(** * zod-form-react: schema parser, form hooks and Firestore synchronization

    A shallow embedding of the parts of the library that decide how a Zod
    schema becomes a form and how a form is kept in a Firestore document:

    - [mapZodTypeToFieldType], [extractValidationRules], [analyzeField],
      [parseSchema], [analyzeSchema], [generateDefaultValues] and
      [validateWithSchema] of [utils/schema-parser.ts];
    - [validateField], [useConditionalFields] and [useArrayField] of
      [hooks/useZodForm.ts];
    - [saveToFirestore], the loading and auto-save effects,
      [transformTimestamps] and [useFirebaseStorageUpload] of
      [firebase/hooks.ts].

    Two libraries the code calls are restated as far as the results depend
    on them: the parser of zod (module [ZodParser]) and the writes of the
    Firestore client (module [Firestore]).

    Conventions of the embedding.  JavaScript values are the inductive
    [value]; an object is an association list in [Object.keys] order.
    Numbers are the integer-valued JavaScript numbers (type [Z]), on which
    subtraction and comparison are exact.  Strings are Rocq strings, read as
    sequences of code units (ASCII text). *)

From Stdlib Require Import List String Ascii ZArith Bool Lia DecimalString.
From Stdlib Require Import PrimFloat.
Import ListNotations.

Set Warnings "-register-all,-inexact-float".

Local Open Scope string_scope.
Local Open Scope Z_scope.

(* ================================================================== *)
(** ** JavaScript values and objects *)
(* ================================================================== *)

Module JS.

(** The values the embedded code manipulates.  [VRegExp] is a [RegExp]
    object, [VServerTimestamp] is the sentinel returned by Firestore's
    [serverTimestamp()]. *)
Inductive value : Type :=
| VUndefined
| VNull
| VBool (b : bool)
| VNum (n : Z)
| VStr (s : string)
| VArr (items : list value)
| VObj (props : list (string * value))
| VRegExp (source flags : string)
| VServerTimestamp.

(** A dictionary with string keys: property list of an object. *)
Definition dict (A : Type) : Type := list (string * A).

Definition obj : Type := dict value.

Section Dict.
Context {A : Type}.

(** [o[k]] when the property exists. *)
Fixpoint lookup (k : string) (o : dict A) : option A :=
  match o with
  | [] => None
  | (k', v) :: rest => if String.eqb k k' then Some v else lookup k rest
  end.

(** [o[k] = v]: an existing property keeps its position, a new one is
    appended. *)
Fixpoint set (k : string) (v : A) (o : dict A) : dict A :=
  match o with
  | [] => [(k, v)]
  | (k', v') :: rest =>
      if String.eqb k k' then (k, v) :: rest else (k', v') :: set k v rest
  end.

(** [{...target, ...src}]. *)
Definition spread (target src : dict A) : dict A :=
  fold_left (fun acc kv => set (fst kv) (snd kv) acc) src target.

Definition keys (o : dict A) : list string := map fst o.

Definition values (o : dict A) : list A := map snd o.
End Dict.

(** Property read on a value object: an absent property is [undefined]. *)
Definition get (k : string) (o : obj) : value :=
  match lookup k o with
  | Some v => v
  | None => VUndefined
  end.

(** The property names an object literal inherits from [Object.prototype].
    Reading one of them on an object without own property of that name
    yields a function (the prototype itself for [__proto__]), not
    [undefined]: [get] is the read of a name that is not one of these, or
    that the object owns. *)
Definition inheritedNames : list string :=
  ["constructor"; "__defineGetter__"; "__defineSetter__"; "hasOwnProperty";
   "__lookupGetter__"; "__lookupSetter__"; "isPrototypeOf";
   "propertyIsEnumerable"; "toString"; "valueOf"; "__proto__";
   "toLocaleString"].

Definition inherited (k : string) : bool :=
  existsb (String.eqb k) inheritedNames.

(** Truthiness, as tested by [if], [!], [&&] and [||]. *)
Definition truthy (v : value) : bool :=
  match v with
  | VUndefined | VNull => false
  | VBool b => b
  | VNum n => negb (n =? 0)
  | VStr s => negb (String.eqb s "")
  | VArr _ | VObj _ | VRegExp _ _ | VServerTimestamp => true
  end.

(** Decimal rendering of an integer-valued number (below [1e21], from where
    [String(n)] switches to the exponential notation). *)
Definition string_of_Z (n : Z) : string :=
  NilZero.string_of_int (Z.to_int n).

(** [Array.prototype.join]: [null] and [undefined] elements render empty. *)
Fixpoint join_with (sep : string) (parts : list string) : string :=
  match parts with
  | [] => ""
  | [p] => p
  | p :: rest => p ++ sep ++ join_with sep rest
  end.

(** [String(v)]. *)
Fixpoint String_ (v : value) : string :=
  match v with
  | VUndefined => "undefined"
  | VNull => "null"
  | VBool true => "true"
  | VBool false => "false"
  | VNum n => string_of_Z n
  | VStr s => s
  | VArr items =>
      join_with ","
        (map (fun x => match x with
                       | VUndefined | VNull => ""
                       | _ => String_ x
                       end) items)
  | VObj _ => "[object Object]"
  | VRegExp source flags => "/" ++ source ++ "/" ++ flags
  | VServerTimestamp => "[object Object]"
  end.

(** [items.join(sep)]. *)
Definition Array_join (sep : string) (items : list value) : string :=
  join_with sep
    (map (fun x => match x with
                   | VUndefined | VNull => ""
                   | _ => String_ x
                   end) items).

(** [c.toUpperCase()] on one ASCII code unit: only [a] to [z] change. *)
Definition upper_ascii (c : ascii) : ascii :=
  let n := nat_of_ascii c in
  if andb (Nat.leb 97 n) (Nat.leb n 122) then ascii_of_nat (n - 32) else c.

(** [s.charAt(0).toUpperCase() + s.slice(1)]. *)
Definition capitalize (s : string) : string :=
  match s with
  | EmptyString => EmptyString
  | String c rest => String (upper_ascii c) rest
  end.

(** [a === b].  Primitives compare by value; two objects (arrays, object
    literals, regular expressions, sentinels) are equal only when they are
    the same allocation, which a configuration value and a form value never
    are. *)
Definition strict_equals (a b : value) : bool :=
  match a, b with
  | VUndefined, VUndefined => true
  | VNull, VNull => true
  | VBool x, VBool y => Bool.eqb x y
  | VNum x, VNum y => x =? y
  | VStr x, VStr y => String.eqb x y
  | _, _ => false
  end.

(** [s.includes(sub)]. *)
Definition includes (s sub : string) : bool :=
  match String.index 0 sub s with
  | Some _ => true
  | None => false
  end.

End JS.

Import JS.

(* ================================================================== *)
(** ** Zod schemas, as the parser inspects them *)
(* ================================================================== *)

Module Zod.

(** One entry of [ZodString._def.checks].  The parser reads [check.kind],
    [check.value] and [check.regex]; [SCOther] stands for the kinds it has
    no case for ([length], [cuid2], [datetime], [trim], ...).  A [RegExp]
    is its source, its flags and its [test] method. *)
Inductive ZodStringCheck : Type :=
| SCEmail
| SCUrl
| SCUuid
| SCCuid
| SCMin (value : Z)
| SCMax (value : Z)
| SCRegex (source flags : string) (test : string -> bool)
| SCStartsWith (value : string)
| SCEndsWith (value : string)
| SCOther (kind : string).

(** One entry of [ZodNumber._def.checks]. *)
Inductive ZodNumberCheck : Type :=
| NCMin (value : Z) (inclusive : bool)
| NCMax (value : Z) (inclusive : bool)
| NCInt
| NCMultipleOf (value : Z)
| NCFinite.

(** What a [ZodEffects] node does to the value. *)
Inductive ZodEffect : Type :=
| Refinement (check : value -> bool)
| Transform (f : value -> value)
| Preprocess (f : value -> value).

(** A schema node, by the class the parser tests with [instanceof].  An
    array schema carries the two bounds the parser reads, [_def.minLength]
    and [_def.maxLength]; an exact length ([.length(n)]) is not
    represented.
    [ZodOther] is any class the parser has no branch for ([ZodLiteral],
    [ZodAny], [ZodTuple], ...): it carries its [_def.typeName], whether
    [_def.cls === File], and its own parse method. *)
Inductive ZodType : Type :=
| ZodString (checks : list ZodStringCheck)
| ZodNumber (checks : list ZodNumberCheck)
| ZodBoolean
| ZodDate
| ZodEnum (values : list string)
| ZodNativeEnum (values : dict value)
| ZodArray (element : ZodType) (minLength maxLength : option Z)
| ZodObject (shape : list (string * ZodType))
| ZodRecord (valueType : ZodType)
| ZodUnion (options : list ZodType)
| ZodDiscriminatedUnion (discriminator : string)
    (optionsMap : list (value * ZodType))
| ZodBigInt
| ZodDefault (innerType : ZodType) (defaultValue : value)
| ZodOptional (innerType : ZodType)
| ZodNullable (innerType : ZodType)
| ZodEffects (schema : ZodType) (effect : ZodEffect)
| ZodOther (typeName : string) (clsIsFile : bool)
    (parse : value -> option value).

(** [zodType._def.typeName]. *)
Definition typeName (t : ZodType) : string :=
  match t with
  | ZodString _ => "ZodString"
  | ZodNumber _ => "ZodNumber"
  | ZodBoolean => "ZodBoolean"
  | ZodDate => "ZodDate"
  | ZodEnum _ => "ZodEnum"
  | ZodNativeEnum _ => "ZodNativeEnum"
  | ZodArray _ _ _ => "ZodArray"
  | ZodObject _ => "ZodObject"
  | ZodRecord _ => "ZodRecord"
  | ZodUnion _ => "ZodUnion"
  | ZodDiscriminatedUnion _ _ => "ZodDiscriminatedUnion"
  | ZodBigInt => "ZodBigInt"
  | ZodDefault _ _ => "ZodDefault"
  | ZodOptional _ => "ZodOptional"
  | ZodNullable _ => "ZodNullable"
  | ZodEffects _ _ => "ZodEffects"
  | ZodOther name _ _ => name
  end.

End Zod.

Import Zod.

(* ================================================================== *)
(** ** The schema parser ([utils/schema-parser.ts]) *)
(* ================================================================== *)

Module SchemaParser.

Inductive FieldType : Type :=
| text | email | password | url | tel | number | range | textarea
| select | radio | checkbox | file | date | datetime_local | time
| stars | array | object | record | switch | color.

Definition FieldType_eqb (a b : FieldType) : bool :=
  match a, b with
  | text, text | email, email | password, password | url, url
  | tel, tel | number, number | range, range | textarea, textarea
  | select, select | radio, radio | checkbox, checkbox | file, file
  | date, date | datetime_local, datetime_local | time, time
  | stars, stars | array, array | object, object | record, record
  | switch, switch | color, color => true
  | _, _ => false
  end.

(** The [{ type, config }] pair the mapper returns; [config] is a
    [Partial<FieldConfig>] object. *)
Record Mapped : Type := mkMapped { type : FieldType; config : obj }.

(** The [for ... switch] loop of the string branch, from a given [config].
    [email] and [url] return at once; so does [min] with a value of at
    least 100, after recording [minLength]. *)
Fixpoint stringChecks (checks : list ZodStringCheck) (config : obj)
  : Mapped :=
  match checks with
  | [] => mkMapped text config
  | check :: rest =>
      match check with
      | SCEmail => mkMapped email config
      | SCUrl => mkMapped url config
      | SCUuid =>
          stringChecks rest
            (set "pattern"
               (VStr "^[0-9a-fA-F]{8}-[0-9a-fA-F]{4}-[0-9a-fA-F]{4}-[0-9a-fA-F]{4}-[0-9a-fA-F]{12}$")
               config)
      | SCMin v =>
          let config := set "minLength" (VNum v) config in
          if 100 <=? v then mkMapped textarea config
          else stringChecks rest config
      | SCMax v => stringChecks rest (set "maxLength" (VNum v) config)
      | SCRegex source _ _ =>
          stringChecks rest (set "pattern" (VStr source) config)
      | SCCuid | SCStartsWith _ | SCEndsWith _ | SCOther _ =>
          stringChecks rest config
      end
  end.

(** State of the number branch's loop: [config], [minValue], [maxValue]. *)
Record NumberLoop : Type :=
  mkNumberLoop { n_config : obj; minValue : option Z; maxValue : option Z }.

Definition numberCheck (st : NumberLoop) (check : ZodNumberCheck)
  : NumberLoop :=
  match check with
  | NCMin v _ =>
      mkNumberLoop (set "min" (VNum v) (n_config st)) (Some v) (maxValue st)
  | NCMax v _ =>
      mkNumberLoop (set "max" (VNum v) (n_config st)) (minValue st) (Some v)
  | NCInt =>
      mkNumberLoop (set "step" (VNum 1) (n_config st))
        (minValue st) (maxValue st)
  | NCMultipleOf v =>
      mkNumberLoop (set "step" (VNum v) (n_config st))
        (minValue st) (maxValue st)
  | NCFinite => st
  end.

Definition numberChecks (checks : list ZodNumberCheck) : NumberLoop :=
  fold_left numberCheck checks (mkNumberLoop [] None None).

(** [{ label: String(v).charAt(0).toUpperCase() + String(v).slice(1),
       value: v }]. *)
Definition capitalizedOption (v : value) : value :=
  VObj [("label", VStr (capitalize (String_ v))); ("value", v)].

(** [{ label: `Option ${index + 1}`, value: index }], for the options from
    position [index] on. *)
Fixpoint unionOptions {A : Type} (options : list A) (index : Z)
  : list value :=
  match options with
  | [] => []
  | _ :: rest =>
      VObj [("label", VStr ("Option " ++ string_of_Z (index + 1)));
            ("value", VNum index)]
      :: unionOptions rest (index + 1)
  end.

Fixpoint mapZodTypeToFieldType (zodType : ZodType) (path : string)
  : Mapped :=
  match zodType with
  | ZodDefault innerType defaultValue =>
      let result := mapZodTypeToFieldType innerType path in
      mkMapped (type result)
        (set "defaultValue" defaultValue (config result))
  | ZodOptional innerType | ZodNullable innerType =>
      let result := mapZodTypeToFieldType innerType path in
      mkMapped (type result) (set "required" (VBool false) (config result))
  | ZodEffects schema _ => mapZodTypeToFieldType schema path
  | ZodString checks => stringChecks checks []
  | ZodNumber checks =>
      let st := numberChecks checks in
      match minValue st, maxValue st with
      | Some lo, Some hi =>
          if hi - lo <=? 10 then mkMapped range (n_config st)
          else mkMapped number (n_config st)
      | _, _ => mkMapped number (n_config st)
      end
  | ZodBoolean => mkMapped checkbox []
  | ZodDate => mkMapped date []
  | ZodEnum values =>
      let options := map (fun v => capitalizedOption (VStr v)) values in
      if Z.of_nat (List.length options) <=? 4
      then mkMapped radio [("options", VArr options)]
      else mkMapped select [("options", VArr options)]
  | ZodNativeEnum values =>
      let enumValues := JS.values values in
      let options := map capitalizedOption enumValues in
      mkMapped select [("options", VArr options)]
  | ZodArray _ minLength maxLength =>
      let config :=
        match minLength with
        | Some v => set "minItems" (VNum v) []
        | None => []
        end in
      let config :=
        match maxLength with
        | Some v => set "maxItems" (VNum v) config
        | None => config
        end in
      mkMapped array config
  | ZodObject _ => mkMapped object []
  | ZodRecord _ => mkMapped record []
  | ZodUnion options =>
      mkMapped radio [("options", VArr (unionOptions options 0))]
  | ZodDiscriminatedUnion _ optionsMap =>
      let options := map (fun kv => capitalizedOption (fst kv)) optionsMap in
      mkMapped select [("options", VArr options)]
  | ZodBigInt => mkMapped number []
  | ZodOther name clsIsFile _ =>
      if andb (String.eqb name "ZodType") clsIsFile then mkMapped file []
      else mkMapped text []
  end.

(** *** [extractValidationRules] *)

Definition stringRule (rules : obj) (check : ZodStringCheck) : obj :=
  match check with
  | SCMin v => set "minLength" (VNum v) rules
  | SCMax v => set "maxLength" (VNum v) rules
  | SCEmail => set "email" (VBool true) rules
  | SCUrl => set "url" (VBool true) rules
  | SCRegex source flags _ => set "pattern" (VRegExp source flags) rules
  | SCUuid => set "uuid" (VBool true) rules
  | SCCuid => set "cuid" (VBool true) rules
  | SCStartsWith v => set "startsWith" (VStr v) rules
  | SCEndsWith v => set "endsWith" (VStr v) rules
  | SCOther _ => rules
  end.

Definition numberRule (rules : obj) (check : ZodNumberCheck) : obj :=
  match check with
  | NCMin v inclusive =>
      set "minInclusive" (VBool inclusive) (set "min" (VNum v) rules)
  | NCMax v inclusive =>
      set "maxInclusive" (VBool inclusive) (set "max" (VNum v) rules)
  | NCInt => set "integer" (VBool true) rules
  | NCMultipleOf v => set "multipleOf" (VNum v) rules
  | NCFinite => set "finite" (VBool true) rules
  end.

Fixpoint extractValidationRules (zodType : ZodType) : obj :=
  match zodType with
  | ZodDefault innerType _ => extractValidationRules innerType
  | ZodOptional innerType | ZodNullable innerType =>
      let innerRules := extractValidationRules innerType in
      set "required" (VBool false) (spread [] innerRules)
  | ZodEffects schema _ => extractValidationRules schema
  | ZodString checks =>
      set "required" (VBool true) (fold_left stringRule checks [])
  | ZodNumber checks =>
      set "required" (VBool true) (fold_left numberRule checks [])
  | ZodArray _ minLength maxLength =>
      let rules :=
        match minLength with
        | Some v => set "minItems" (VNum v) []
        | None => []
        end in
      let rules :=
        match maxLength with
        | Some v => set "maxItems" (VNum v) rules
        | None => rules
        end in
      set "required" (VBool true) rules
  | _ => set "required" (VBool true) []
  end.

(** *** [getZodTypeInfo]: the part [analyzeField] reads *)

Module ZodTypeInfo.
Record t : Type := mk {
  typeName : string;
  isOptional : bool;
  isNullable : bool;
  hasDefault : bool;
  defaultValue : value;
  options : value
}.
End ZodTypeInfo.

Definition getZodTypeInfo (zodType : ZodType) : ZodTypeInfo.t :=
  ZodTypeInfo.mk
    (Zod.typeName zodType)
    match zodType with ZodOptional _ => true | _ => false end
    match zodType with ZodNullable _ => true | _ => false end
    match zodType with ZodDefault _ _ => true | _ => false end
    match zodType with ZodDefault _ d => d | _ => VUndefined end
    match zodType with
    | ZodEnum values =>
        VArr (map (fun v => VObj [("label", VStr v); ("value", VStr v)])
                values)
    | _ => VUndefined
    end.

(** *** [analyzeField] and [parseSchema] *)

Module FieldAnalysis.
Record t : Type := mk {
  name : string;
  type : FieldType;
  zodType : string;
  required : bool;
  config : obj;
  defaultValue : value
}.
End FieldAnalysis.

Definition analyzeField (name : string) (zodType : ZodType) (path : string)
  : FieldAnalysis.t :=
  let fieldPath :=
    if String.eqb path "" then name else path ++ "." ++ name in
  let mapped := mapZodTypeToFieldType zodType fieldPath in
  let validation := extractValidationRules zodType in
  let typeInfo := getZodTypeInfo zodType in
  FieldAnalysis.mk
    name
    (type mapped)
    (Zod.typeName zodType)
    (negb (strict_equals (get "required" validation) (VBool false)))
    (spread (spread [] (config mapped)) validation)
    (ZodTypeInfo.defaultValue typeInfo).

(** [Object.keys(shape).forEach(key => fields[key] = analyzeField(...))]. *)
Definition parseSchema (schema : ZodType) (basePath : string)
  : dict FieldAnalysis.t :=
  match schema with
  | ZodObject shape =>
      fold_left
        (fun fields kv =>
           set (fst kv) (analyzeField (fst kv) (snd kv) basePath) fields)
        shape []
  | _ => []
  end.

(** *** [analyzeSchema] *)

Inductive Complexity : Type := simple | moderate | complex.

Module SchemaAnalysis.
Record t : Type := mk {
  fields : list FieldAnalysis.t;
  hasArrays : bool;
  hasObjects : bool;
  hasConditionals : bool;
  complexity : Complexity
}.
End SchemaAnalysis.

(** [Object.keys(v).length]: own enumerable properties. *)
Definition objectKeysLength (v : value) : Z :=
  match v with
  | VObj props => Z.of_nat (List.length props)
  | VArr items => Z.of_nat (List.length items)
  | VStr s => Z.of_nat (String.length s)
  | _ => 0
  end.

Definition nestedShapeIsLarge (field : FieldAnalysis.t) : bool :=
  FieldType_eqb (FieldAnalysis.type field) object
  && truthy (get "fields" (FieldAnalysis.config field))
  && (5 <? objectKeysLength (get "fields" (FieldAnalysis.config field))).

Definition analyzeSchema (schema : ZodType) : SchemaAnalysis.t :=
  let fields := values (parseSchema schema "") in
  let hasArrays :=
    existsb (fun f => FieldType_eqb (FieldAnalysis.type f) array) fields in
  let hasObjects :=
    existsb (fun f => FieldType_eqb (FieldAnalysis.type f) object) fields in
  let hasConditionals :=
    existsb (fun f => truthy (get "showWhen" (FieldAnalysis.config f)))
      fields in
  let count := Z.of_nat (List.length fields) in
  let complexity := simple in
  let complexity :=
    if hasArrays || hasObjects || (10 <? count) then moderate
    else complexity in
  let complexity :=
    if hasConditionals || (20 <? count) || existsb nestedShapeIsLarge fields
    then complex
    else complexity in
  SchemaAnalysis.mk fields hasArrays hasObjects hasConditionals complexity.

(** *** [generateDefaultValues] *)

Fixpoint generateDefaultValues (schema : ZodType) : obj :=
  match schema with
  | ZodObject shape =>
      (fix forEach (entries : list (string * ZodType)) (defaults : obj)
           {struct entries} : obj :=
         match entries with
         | [] => defaults
         | (key, zodType) :: rest =>
             forEach rest
               match zodType with
               | ZodDefault _ defaultValue => set key defaultValue defaults
               | ZodArray _ _ _ => set key (VArr []) defaults
               | ZodObject _ =>
                   set key (VObj (generateDefaultValues zodType)) defaults
               | ZodBoolean => set key (VBool false) defaults
               | ZodNumber _ => set key (VNum 0) defaults
               | ZodString _ => set key (VStr "") defaults
               | _ => defaults
               end
         end) shape []
  | _ => []
  end.

(** *** [validateWithSchema] *)

Module ZodIssue.
Record t : Type := mk {
  code : string;
  message : string;
  path : list value
}.
End ZodIssue.

(** What [schema.safeParse(data)] does: it throws, or returns
    [{ success: true, data }] or [{ success: false, error }]; [errors] is
    [error.errors]. *)
Inductive SafeParseReturn : Type :=
| Threw
| SafeParseSuccess (data : value)
| SafeParseError (errors : list ZodIssue.t).

Module ValidationError.
Record t : Type := mk {
  field : string;
  message : string;
  code : string;
  path : list value
}.
End ValidationError.

Module ValidationResult.
Record t : Type := mk {
  success : bool;
  data : value;
  errors : list ValidationError.t
}.
End ValidationResult.

Definition toValidationError (err : ZodIssue.t) : ValidationError.t :=
  ValidationError.mk
    (Array_join "." (ZodIssue.path err))
    (ZodIssue.message err)
    (ZodIssue.code err)
    (ZodIssue.path err).

Section Validate.
(** The schema library's [safeParse] method. *)
Variable safeParse : ZodType -> value -> SafeParseReturn.

Definition validateWithSchema (schema : ZodType) (data : value)
  : ValidationResult.t :=
  match safeParse schema data with
  | SafeParseSuccess parsed => ValidationResult.mk true parsed []
  | SafeParseError errors =>
      ValidationResult.mk false VUndefined (map toValidationError errors)
  | Threw =>
      ValidationResult.mk false VUndefined
        [ValidationError.mk "root" "Schema validation failed" "custom" []]
  end.
End Validate.

End SchemaParser.

Import SchemaParser.

(* ================================================================== *)
(** ** Conditional visibility ([useConditionalFields]) *)
(* ================================================================== *)

Module ConditionalFields.

(** A property read [v.k] during destructuring: only an object literal
    carries [field], [value] or [operator]. *)
Definition prop (k : string) (v : value) : value :=
  match v with
  | VObj props => get k props
  | _ => VUndefined
  end.

(** [xs.includes(x)]. *)
Definition Array_includes (xs : list value) (x : value) : bool :=
  existsb (fun y => strict_equals y x) xs.

Section Runtime.
(** The numeric comparisons [Number(a) > Number(b)] and
    [Number(a) < Number(b)] of the host language, on arbitrary values. *)
Variable Number_gt : value -> value -> bool.
Variable Number_lt : value -> value -> bool.

(** The body run for a field whose [config.showWhen] is truthy; the
    [switch] compares [operator] with each case label by [===].  The read
    [formValues[dependentField]] is [get]: the dependent field is one the
    form values own, or one whose name is not in [inheritedNames]. *)
Definition isVisible (showWhen : value) (formValues : obj) : bool :=
  let dependentField := prop "field" showWhen in
  let expectedValue := prop "value" showWhen in
  let operator :=
    match prop "operator" showWhen with
    | VUndefined => VStr "equals"
    | op => op
    end in
  let actualValue := get (String_ dependentField) formValues in
  if strict_equals operator (VStr "equals") then
    strict_equals actualValue expectedValue
  else if strict_equals operator (VStr "not-equals") then
    negb (strict_equals actualValue expectedValue)
  else if strict_equals operator (VStr "contains") then
    match actualValue with
    | VArr items => Array_includes items expectedValue
    | _ => includes (String_ actualValue) (String_ expectedValue)
    end
  else if strict_equals operator (VStr "greater-than") then
    Number_gt actualValue expectedValue
  else if strict_equals operator (VStr "less-than") then
    Number_lt actualValue expectedValue
  else true.

Definition fieldVisible (field : FieldAnalysis.t) (formValues : obj)
  : bool :=
  let showWhen := get "showWhen" (FieldAnalysis.config field) in
  if negb (truthy showWhen) then true else isVisible showWhen formValues.

(** [Object.entries(fields).forEach(([name, field]) => ...)]. *)
Definition useConditionalFields (fields : dict FieldAnalysis.t)
    (formValues : obj) : dict bool :=
  fold_left
    (fun visibleFields entry =>
       set (fst entry) (fieldVisible (snd entry) formValues)
         visibleFields)
    fields [].
End Runtime.

End ConditionalFields.

(* ================================================================== *)
(** ** The schema library's parser *)
(* ================================================================== *)

(** [validateWithSchema] delegates to [schema.safeParse], which belongs to
    the zod library (version 3), not to this repository.  The round trip
    through [generateDefaultValues] needs what that method decides, so this
    module restates the [_parse] method of each schema class: the type gate
    of every class, the wrappers, object and collection traversal, and the
    length and bound checks.  Format checks of strings ([email], [url],
    [uuid], ...) are left to a parameter.  Object schemas use the default
    policy for unknown keys (they are stripped); no [Date] or [bigint] value
    is representable in [value], so [z.date()] and [z.bigint()] accept none. *)

Module ZodParser.

Definition isPrefix (p s : string) : bool := String.prefix p s.

Definition isSuffix (p s : string) : bool :=
  let lp := String.length p in
  let ls := String.length s in
  (Nat.leb lp ls && String.eqb (String.substring (ls - lp) lp s) p)%bool.

Section Parser.
(** The string checks decided by the library's own patterns and the
    transforming ones ([trim], [toLowerCase], ...): the checked string is
    refused ([None]) or passed on, possibly rewritten. *)
Variable stringFormat : ZodStringCheck -> string -> option string.

Definition stringCheck (check : ZodStringCheck) (s : string)
  : option string :=
  match check with
  | SCMin v => if v <=? Z.of_nat (String.length s) then Some s else None
  | SCMax v => if Z.of_nat (String.length s) <=? v then Some s else None
  | SCRegex _ _ test => if test s then Some s else None
  | SCStartsWith p => if isPrefix p s then Some s else None
  | SCEndsWith p => if isSuffix p s then Some s else None
  | SCEmail | SCUrl | SCUuid | SCCuid | SCOther _ => stringFormat check s
  end.

Fixpoint stringChecksPass (checks : list ZodStringCheck) (s : string)
  : option string :=
  match checks with
  | [] => Some s
  | check :: rest =>
      match stringCheck check s with
      | Some s' => stringChecksPass rest s'
      | None => None
      end
  end.

Definition numberCheckPasses (n : Z) (check : ZodNumberCheck) : bool :=
  match check with
  | NCMin v inclusive => if inclusive then v <=? n else v <? n
  | NCMax v inclusive => if inclusive then n <=? v else n <? v
  | NCInt => true
  | NCMultipleOf v => if v =? 0 then false else Z.rem n v =? 0
  | NCFinite => true
  end.

(** [util.getValidEnumValues]: the values of a native enum, without the
    reverse mapping of numeric members. *)
Definition validEnumValues (enumObject : dict value) : list value :=
  values
    (filter
       (fun kv =>
          match get (String_ (snd kv)) enumObject with
          | VNum _ => false
          | _ => true
          end)
       enumObject).

(** [schema._parse(data)]: the parsed output, or [None] when the library
    reports issues. *)
Fixpoint parse (schema : ZodType) (data : value) {struct schema}
  : option value :=
  match schema with
  | ZodString checks =>
      match data with
      | VStr s =>
          match stringChecksPass checks s with
          | Some s' => Some (VStr s')
          | None => None
          end
      | _ => None
      end
  | ZodNumber checks =>
      match data with
      | VNum n =>
          if forallb (numberCheckPasses n) checks then Some data else None
      | _ => None
      end
  | ZodBoolean =>
      match data with
      | VBool _ => Some data
      | _ => None
      end
  | ZodDate => None
  | ZodBigInt => None
  | ZodEnum values =>
      match data with
      | VStr s => if existsb (String.eqb s) values then Some data else None
      | _ => None
      end
  | ZodNativeEnum enumObject =>
      match data with
      | VStr _ | VNum _ =>
          if existsb (fun v => strict_equals v data)
               (validEnumValues enumObject)
          then Some data else None
      | _ => None
      end
  | ZodArray element minLength maxLength =>
      match data with
      | VArr items =>
          let n := Z.of_nat (List.length items) in
          let minOk :=
            match minLength with Some v => v <=? n | None => true end in
          let maxOk :=
            match maxLength with Some v => n <=? v | None => true end in
          let parsed :=
            (fix each (xs : list value) : option (list value) :=
               match xs with
               | [] => Some []
               | x :: rest =>
                   match parse element x, each rest with
                   | Some y, Some ys => Some (y :: ys)
                   | _, _ => None
                   end
               end) items in
          match parsed with
          | Some out => if (minOk && maxOk)%bool then Some (VArr out) else None
          | None => None
          end
      | _ => None
      end
  | ZodObject shape =>
      match data with
      | VObj props =>
          let parsed :=
            (fix each (entries : list (string * ZodType))
                 : option obj :=
               match entries with
               | [] => Some []
               | (key, keyValidator) :: rest =>
                   match parse keyValidator (get key props), each rest with
                   | Some VUndefined, Some out =>
                       match lookup key props with
                       | Some _ => Some ((key, VUndefined) :: out)
                       | None => Some out
                       end
                   | Some v, Some out => Some ((key, v) :: out)
                   | _, _ => None
                   end
               end) shape in
          match parsed with
          | Some out => Some (VObj out)
          | None => None
          end
      | _ => None
      end
  | ZodRecord valueType =>
      match data with
      | VObj props =>
          let parsed :=
            (fix each (entries : obj) : option obj :=
               match entries with
               | [] => Some []
               | (key, v) :: rest =>
                   match parse valueType v, each rest with
                   | Some y, Some out => Some ((key, y) :: out)
                   | _, _ => None
                   end
               end) props in
          match parsed with
          | Some out => Some (VObj out)
          | None => None
          end
      | _ => None
      end
  | ZodUnion options =>
      (fix first (opts : list ZodType) : option value :=
         match opts with
         | [] => None
         | option :: rest =>
             match parse option data with
             | Some out => Some out
             | None => first rest
             end
         end) options
  | ZodDiscriminatedUnion discriminator optionsMap =>
      match data with
      | VObj props =>
          (fix pick (m : list (value * ZodType)) : option value :=
             match m with
             | [] => None
             | (k, option) :: rest =>
                 if strict_equals k (get discriminator props)
                 then parse option data
                 else pick rest
             end) optionsMap
      | _ => None
      end
  | ZodDefault innerType defaultValue =>
      match data with
      | VUndefined => parse innerType defaultValue
      | _ => parse innerType data
      end
  | ZodOptional innerType =>
      match data with
      | VUndefined => Some VUndefined
      | _ => parse innerType data
      end
  | ZodNullable innerType =>
      match data with
      | VNull => Some VNull
      | _ => parse innerType data
      end
  | ZodEffects inner effect =>
      match effect with
      | Refinement check =>
          match parse inner data with
          | Some out => if check out then Some out else None
          | None => None
          end
      | Transform f =>
          match parse inner data with
          | Some out => Some (f out)
          | None => None
          end
      | Preprocess f => parse inner (f data)
      end
  | ZodOther _ _ ownParse => ownParse data
  end.

(** The issues reported for a refused input; their content is not
    modelled. *)
Variable issues : ZodType -> value -> list ZodIssue.t.

(** [schema.safeParse(data)] for synchronous schemas. *)
Definition safeParse (schema : ZodType) (data : value) : SafeParseReturn :=
  match parse schema data with
  | Some out => SafeParseSuccess out
  | None => SafeParseError (issues schema data)
  end.
End Parser.

End ZodParser.

(* ================================================================== *)
(** ** Saving to Firestore ([useFirestoreForm]) *)
(* ================================================================== *)

Module FirestoreForm.

Record DocumentReference : Type := mkRef { refPath : string; id : string }.

Record User : Type := mkUser { uid : string }.

Inductive Error : Type := mkError (message : string).

(** [doc(firestore, collectionName, documentId)]. *)
Definition doc (collectionName documentId : string) : DocumentReference :=
  mkRef (collectionName ++ "/" ++ documentId) documentId.

(** The call made to the Firestore client, with the payload it carries. *)
Inductive WriteCall : Type :=
| SetDocMerge (target : DocumentReference) (payload : value)
| UpdateDoc (target : DocumentReference) (payload : value)
| AddDoc (collectionName : string) (payload : value).

Definition payloadOf (w : WriteCall) : value :=
  match w with
  | SetDocMerge _ p | UpdateDoc _ p | AddDoc _ p => p
  end.

(** The hook's configuration, as far as [saveToFirestore] reads it.  A
    callback may throw: [transformBeforeSave] returns the new payload or the
    error it throws, [onSuccess] returns [Some e] when it throws or rejects,
    [onError] returns [Some e] when it throws. *)
Record Config : Type := mkConfig {
  collectionName : option string;
  documentRef : option DocumentReference;
  user : option User;
  includeMetadata : bool;
  transformBeforeSave : option (value -> Error + value);
  onSuccess : option (obj -> option Error);
  onError : option (Error -> option Error)
}.

(** The hook's React state. *)
Record State : Type := mkState {
  saving : bool;
  error : option Error;
  currentDocId : option string
}.

(** Truthiness of a [string | null] or [string | undefined]. *)
Definition nonEmpty (s : option string) : bool :=
  match s with
  | Some x => negb (String.eqb x "")
  | None => false
  end.

(** The string held by a truthy [string | null]. *)
Definition theString (s : option string) : string :=
  match s with
  | Some x => x
  | None => ""
  end.

(** [user?.uid || null]. *)
Definition uidOrNull (u : option User) : value :=
  match u with
  | Some x => if String.eqb (uid x) "" then VNull else VStr (uid x)
  | None => VNull
  end.

(** The [_metadata] literal. *)
Definition metadata (cfg : Config) (st : State) : obj :=
  spread
    [("updatedAt", VServerTimestamp); ("updatedBy", uidOrNull (user cfg))]
    (if nonEmpty (currentDocId st) then []
     else [("createdAt", VServerTimestamp);
           ("createdBy", uidOrNull (user cfg))]).

(** [dataToSave], up to the call of the Firestore client: the payload, or
    the error [transformBeforeSave] throws. *)
Definition assemble (cfg : Config) (st : State) (formData : obj)
  : Error + value :=
  let dataToSave := spread [] formData in
  let dataToSave :=
    if includeMetadata cfg
    then set "_metadata" (VObj (metadata cfg st)) (spread [] dataToSave)
    else dataToSave in
  match transformBeforeSave cfg with
  | Some f => f (VObj dataToSave)
  | None => inr (VObj dataToSave)
  end.

(** What one call of [saveToFirestore] leaves behind: the state of the
    hook, the store, the call made to the Firestore client if any, and what
    the returned promise settles with. *)
Record Saved (Store : Type) : Type := mkSaved {
  state : State;
  store : Store;
  written : option WriteCall;
  outcome : Error + DocumentReference
}.

Arguments mkSaved {Store}.
Arguments state {Store}.
Arguments store {Store}.
Arguments written {Store}.
Arguments outcome {Store}.

(** The double quote character. *)
Definition dquote : string := String (ascii_of_nat 34) EmptyString.

Definition noTarget : Error :=
  mkError
    ("FirestoreForm: No collection name or document reference provided. "
     ++ "Please provide either a " ++ dquote ++ "collection" ++ dquote
     ++ " prop or a " ++ dquote ++ "documentRef" ++ dquote ++ " prop.").

(** What leaves the [catch] block for the caught error [err]:
    [if (onError) onError(err); throw err;] rethrows [err] unless [onError]
    throws first. *)
Definition rethrown (cfg : Config) (err : Error) : Error :=
  match onError cfg with
  | Some callback =>
      match callback err with
      | Some thrown => thrown
      | None => err
      end
  | None => err
  end.

Section Save.
(** The Firestore client: each primitive resolves with the new store
    (and, for [addDoc], the created reference) or rejects.  [updateDoc]
    stands for [doc(...)] followed by [updateDoc], and [addDoc] for
    [collection(...)] followed by [addDoc]: a rejection covers a throw of
    either. *)
Variable Store : Type.
Variable setDoc :
  DocumentReference -> value -> bool -> Store -> Error + Store.
Variable updateDoc : DocumentReference -> value -> Store -> Error + Store.
Variable addDoc :
  string -> value -> Store -> Error + (DocumentReference * Store).

(** The [catch] block: [setError(err); setSaving(false)], the call of
    [onError], then the rethrow. *)
Definition failed (cfg : Config) (st : State) (db : Store)
    (w : option WriteCall) (err : Error) : Saved Store :=
  mkSaved (mkState false (Some err) (currentDocId st)) db w
    (inl (rethrown cfg err)).

(** After the write: [onSuccess], [setSaving(false)], [return docRef]. *)
Definition finish (cfg : Config) (st : State) (db : Store)
    (w : WriteCall) (formData : obj) (docRef : DocumentReference)
  : Saved Store :=
  match
    match onSuccess cfg with
    | Some callback => callback formData
    | None => None
    end
  with
  | Some err => failed cfg st db (Some w) err
  | None =>
      mkSaved (mkState false None (currentDocId st)) db (Some w)
        (inr docRef)
  end.

(** [saveToFirestore(data)], as the callback of the render whose state is
    [st0], with the form holding [formValues].  The callback reads the
    document id of that render: [currentDocId] is one of its dependencies. *)
Definition saveToFirestore (cfg : Config) (st0 : State)
    (data : option obj) (formValues : obj) (db : Store) : Saved Store :=
  let st := mkState true None (currentDocId st0) in
  let formData :=
    match data with
    | Some d => d
    | None => formValues
    end in
  match assemble cfg st formData with
  | inl err => failed cfg st db None err
  | inr dataToSave =>
      match documentRef cfg with
      | Some target =>
          let w := SetDocMerge target dataToSave in
          match setDoc target dataToSave true db with
          | inr db' => finish cfg st db' w formData target
          | inl err => failed cfg st db (Some w) err
          end
      | None =>
          if nonEmpty (collectionName cfg) && nonEmpty (currentDocId st) then
            let target :=
              doc (theString (collectionName cfg))
                (theString (currentDocId st)) in
            let w := UpdateDoc target dataToSave in
            match updateDoc target dataToSave db with
            | inr db' => finish cfg st db' w formData target
            | inl err => failed cfg st db (Some w) err
            end
          else if nonEmpty (collectionName cfg) then
            let w := AddDoc (theString (collectionName cfg)) dataToSave in
            match addDoc (theString (collectionName cfg)) dataToSave db with
            | inr (created, db') =>
                finish cfg (mkState true None (Some (id created))) db' w
                  formData created
            | inl err => failed cfg st db (Some w) err
            end
          else failed cfg st db None noTarget
      end
  end.

End Save.

End FirestoreForm.

(* ================================================================== *)
(** ** The Firestore client's writes *)
(* ================================================================== *)

(** [setDoc], [updateDoc] and [addDoc] belong to the Firebase SDK, not to
    this repository.  What a save does to the stored document depends on
    them, so this module restates their documented effect on a store of
    documents, for payloads whose field names hold no dot: [setDoc] with
    [{ merge: true }] creates the document or merges the payload into it,
    maps being merged field by field at every depth; [updateDoc] fails on a
    missing document and otherwise replaces each top-level field the payload
    names, a map included; [addDoc] creates a document under a new id.  The
    [serverTimestamp()] sentinel is kept where it was written: it stands for
    the time the server assigned at that write. *)
Module Firestore.

Import FirestoreForm.

(** The documents by path, and the number of ids generated so far. *)
Record Store : Type := mkStore { documents : dict obj; generated : Z }.


Definition invalidData : Error := mkError "invalid-argument".

Definition notFound : Error := mkError "not-found".

(** The value a merging write leaves in a field that held [old]. *)
Fixpoint mergeValue (new old : value) {struct new} : value :=
  match new with
  | VObj props =>
      match old with
      | VObj stored =>
          VObj
            ((fix fields (ps : list (string * value)) (acc : obj)
                  {struct ps} : obj :=
                match ps with
                | [] => acc
                | (k, v) :: rest =>
                    fields rest (set k (mergeValue v (get k stored)) acc)
                end) props stored)
      | _ => new
      end
  | _ => new
  end.

Definition setDoc (target : DocumentReference) (payload : value)
    (merge : bool) (db : Store) : Error + Store :=
  match payload with
  | VObj props =>
      let next :=
        match lookup (refPath target) (documents db) with
        | Some stored =>
            if merge
            then match mergeValue payload (VObj stored) with
                 | VObj fields => fields
                 | _ => props
                 end
            else props
        | None => props
        end in
      inr (mkStore (set (refPath target) next (documents db)) (generated db))
  | _ => inl invalidData
  end.

Definition updateDoc (target : DocumentReference) (payload : value)
    (db : Store) : Error + Store :=
  match payload with
  | VObj props =>
      match lookup (refPath target) (documents db) with
      | Some stored =>
          inr (mkStore
                 (set (refPath target) (spread stored props) (documents db))
                 (generated db))
      | None => inl notFound
      end
  | _ => inl invalidData
  end.

Definition addDoc (collectionName : string) (payload : value) (db : Store)
  : Error + (DocumentReference * Store) :=
  match payload with
  | VObj props =>
      let created :=
        doc collectionName ("auto" ++ string_of_Z (generated db)) in
      inr (created,
           mkStore (set (refPath created) props (documents db))
             (generated db + 1))
  | _ => inl invalidData
  end.

End Firestore.

(* ================================================================== *)
(** ** Field validation and array fields ([hooks/useZodForm.ts]) *)
(* ================================================================== *)

Module FormHooks.

(** What [shape[fieldName]] evaluates to on the shape of an object schema:
    the schema of an own property, a member inherited from
    [Object.prototype] (the shape is the object literal given to
    [z.object]), or [undefined]. *)
Inductive ShapeMember : Type :=
| OwnSchema (zodType : ZodType)
| InheritedMember
| NoMember.

(** [getFieldSchema]: [shape[fieldName]] of an object schema, [undefined]
    for any other schema. *)
Definition getFieldSchema (schema : ZodType) (fieldName : string)
  : ShapeMember :=
  match schema with
  | ZodObject shape =>
      match lookup fieldName shape with
      | Some zodType => OwnSchema zodType
      | None => if inherited fieldName then InheritedMember else NoMember
      end
  | _ => NoMember
  end.

Section ValidateField.
Variable safeParse : ZodType -> value -> SafeParseReturn.

(** [result.errors[0].message] when the validation failed with errors. *)
Definition firstMessage (result : ValidationResult.t) : option string :=
  match ValidationResult.success result, ValidationResult.errors result with
  | false, first :: _ => Some (ValidationError.message first)
  | _, _ => None
  end.

(** [validateField(name, value)]: the message to show, [None] for
    [undefined].  An inherited member is truthy and has no [safeParse]
    method: the call throws inside [validateWithSchema], which catches.
    Nothing else in the [try] block throws, so the [catch] that returns
    [Validation error] has no case here. *)
Definition validateField (schema : ZodType) (name : string) (v : value)
  : option string :=
  match getFieldSchema schema name with
  | NoMember => None
  | OwnSchema fieldSchema =>
      firstMessage (validateWithSchema safeParse fieldSchema v)
  | InheritedMember =>
      firstMessage (validateWithSchema (fun _ _ => Threw) schema v)
  end.
End ValidateField.

(** [getValues(name) || []]. *)
Definition orEmptyArray (current : value) : value :=
  if truthy current then current else VArr [].

(** One string per code unit of [s]. *)
Fixpoint characters (s : string) : list value :=
  match s with
  | EmptyString => []
  | String c rest => VStr (String c EmptyString) :: characters rest
  end.

(** [[...v]]: the elements of an iterable; [None] is the [TypeError] raised
    for a value that is not iterable. *)
Definition iterate (v : value) : option (list value) :=
  match v with
  | VArr items => Some items
  | VStr s => Some (characters s)
  | _ => None
  end.

(** [append(value)]: the array handed to [setValue]. *)
Definition append (current : value) (v : value) : option (list value) :=
  match iterate (orEmptyArray current) with
  | Some currentValues => Some (currentValues ++ [v])%list
  | None => None
  end.

(** [xs.filter((_, i) => i !== index)], for the elements from position [i]. *)
Fixpoint withoutIndex (xs : list value) (i index : Z) : list value :=
  match xs with
  | [] => []
  | x :: rest =>
      if i =? index then withoutIndex rest (i + 1) index
      else x :: withoutIndex rest (i + 1) index
  end.

(** [remove(index)]; only an array has [filter]. *)
Definition remove (current : value) (index : Z) : option (list value) :=
  match orEmptyArray current with
  | VArr currentValues => Some (withoutIndex currentValues 0 index)
  | _ => None
  end.

(** The position at which [splice(start, ...)] acts on an array of [len]
    elements: a negative [start] counts from the end, and the result is
    clamped to [0 .. len]. *)
Definition spliceStart (len : nat) (start : Z) : nat :=
  if start <? 0 then Z.to_nat (Z.max (Z.of_nat len + start) 0)
  else Nat.min (Z.to_nat start) len.

(** [move(from, to)]: [splice(from, 1)], then [splice(to, 0, movedItem)]. *)
Definition move (current : value) (from to : Z) : option (list value) :=
  match iterate (orEmptyArray current) with
  | None => None
  | Some newValues =>
      let start := spliceStart (List.length newValues) from in
      let removed := firstn 1 (skipn start newValues) in
      let newValues :=
        (firstn start newValues ++ skipn (start + 1) newValues)%list in
      let movedItem :=
        match removed with
        | x :: _ => x
        | [] => VUndefined
        end in
      let target := spliceStart (List.length newValues) to in
      Some (firstn target newValues ++ movedItem :: skipn target newValues)%list
  end.

(** The index keys of an array's or a string's elements, from [i] on. *)
Fixpoint indexed (xs : list value) (i : Z) : obj :=
  match xs with
  | [] => []
  | x :: rest => (string_of_Z i, x) :: indexed rest (i + 1)
  end.

(** The own enumerable properties copied by [{ ...item }]. *)
Definition ownEntries (item : value) : obj :=
  match item with
  | VObj props => props
  | VArr xs => indexed xs 0
  | VStr s => indexed (characters s) 0
  | VServerTimestamp => [("_methodName", VStr "serverTimestamp")]
  | _ => []
  end.

(** [{ id: `${name}-${index}`, ...item }], for the items from [index] on. *)
Fixpoint itemsFrom (name : string) (xs : list value) (index : Z)
  : list obj :=
  match xs with
  | [] => []
  | item :: rest =>
      spread [("id", VStr (name ++ "-" ++ string_of_Z index))]
        (ownEntries item)
      :: itemsFrom name rest (index + 1)
  end.

(** [items]; only an array has [map]. *)
Definition items (name : string) (current : value) : option (list obj) :=
  match orEmptyArray current with
  | VArr xs => Some (itemsFrom name xs 0)
  | _ => None
  end.

End FormHooks.

(* ================================================================== *)
(** ** Loading, auto-save and upload ([firebase/hooks.ts]) *)
(* ================================================================== *)

Module Timestamps.

(** Document data as a snapshot delivers it: plain values, Firestore
    [Timestamp]s, the [Date]s they are converted to, and objects of the
    other classes of the SDK ([GeoPoint], [DocumentReference], [Bytes], ...),
    each with its own enumerable properties.  The two kinds of instant are
    kept abstract. *)
Section Data.
Variables (Timestamp Date : Type).

Inductive data : Type :=
| DUndefined
| DNull
| DBool (b : bool)
| DNum (n : Z)
| DStr (s : string)
| DTimestamp (t : Timestamp)
| DDate (d : Date)
| DInstance (className : string) (props : list (string * data))
| DArr (items : list data)
| DObj (props : list (string * data)).

Variable toDate : Timestamp -> Date.

(** [transformTimestamps].  A primitive is returned as it is.  Whatever is
    an object but neither a [Timestamp] nor an array goes through the last
    loop, which builds a plain object from its own enumerable properties: a
    [Date] has none and comes out as an empty object, an object of another
    class loses its class. *)
Fixpoint transformTimestamps (d : data) : data :=
  match d with
  | DUndefined | DNull | DBool _ | DNum _ | DStr _ => d
  | DTimestamp t => DDate (toDate t)
  | DArr items => DArr (map transformTimestamps items)
  | DDate _ => DObj []
  | DInstance _ props | DObj props =>
      DObj
        ((fix entries (ps : list (string * data)) (transformed : dict data)
              {struct ps} : dict data :=
            match ps with
            | [] => transformed
            | (key, v) :: rest =>
                entries rest (set key (transformTimestamps v) transformed)
            end) props [])
  end.

End Data.

Arguments DUndefined {Timestamp Date}.
Arguments DNull {Timestamp Date}.
Arguments DBool {Timestamp Date}.
Arguments DNum {Timestamp Date}.
Arguments DStr {Timestamp Date}.
Arguments DTimestamp {Timestamp Date}.
Arguments DDate {Timestamp Date}.
Arguments DInstance {Timestamp Date}.
Arguments DArr {Timestamp Date}.
Arguments DObj {Timestamp Date}.
Arguments transformTimestamps {Timestamp Date}.

End Timestamps.

Module FirestoreLoad.

Import Timestamps.

Section Load.
Variables (Timestamp Date : Type).
Variable toDate : Timestamp -> Date.

Let Data : Type := data Timestamp Date.

(** The configuration read by the loading effect and the initial state. *)
Record LoadConfig : Type := mkLoadConfig {
  collectionName : option string;
  documentId : option string;
  documentRef : option FirestoreForm.DocumentReference;
  transformAfterLoad : option (Data -> Data)
}.

(** The hook's state as the loading effect sees it; [formValues] is what
    [form.reset] last installed. *)
Record LoadState : Type := mkLoadState {
  loading : bool;
  error : option FirestoreForm.Error;
  currentDocId : option string;
  formValues : option Data
}.

(** A document snapshot: its id, and its data when it exists. *)
Record Snapshot : Type := mkSnapshot {
  snapshotId : string;
  snapshotData : option Data
}.

Inductive Event : Type :=
| Next (snapshot : Snapshot)
| Failed (err : FirestoreForm.Error).

(** [useState(!!documentId || !!documentRef)], [useState(documentId || null)]. *)
Definition initialState (cfg : LoadConfig) : LoadState :=
  mkLoadState
    (FirestoreForm.nonEmpty (documentId cfg)
     || match documentRef cfg with Some _ => true | None => false end)
    None
    (if FirestoreForm.nonEmpty (documentId cfg) then documentId cfg else None)
    None.

(** The effect subscribes unless
    [!documentRef && (!collectionName || !documentId)]. *)
Definition subscribes (cfg : LoadConfig) : bool :=
  negb
    (match documentRef cfg with Some _ => false | None => true end
     && (negb (FirestoreForm.nonEmpty (collectionName cfg))
         || negb (FirestoreForm.nonEmpty (documentId cfg)))).

(** The two callbacks given to [onSnapshot]. *)
Definition onEvent (cfg : LoadConfig) (st : LoadState) (e : Event)
  : LoadState :=
  match e with
  | Next snapshot =>
      match snapshotData snapshot with
      | Some raw =>
          let loaded := transformTimestamps toDate raw in
          let loaded :=
            match transformAfterLoad cfg with
            | Some f => f loaded
            | None => loaded
            end in
          mkLoadState false (error st) (Some (snapshotId snapshot))
            (Some loaded)
      | None =>
          mkLoadState false (error st) (currentDocId st) (formValues st)
      end
  | Failed err =>
      mkLoadState false (Some err) (currentDocId st) (formValues st)
  end.

(** The state after the events a subscription delivered, in order; without
    subscription nothing is delivered. *)
Definition afterEvents (cfg : LoadConfig) (events : list Event) : LoadState :=
  if subscribes cfg then fold_left (onEvent cfg) events (initialState cfg)
  else initialState cfg.

End Load.

Arguments mkLoadConfig {Timestamp Date}.
Arguments collectionName {Timestamp Date}.
Arguments documentId {Timestamp Date}.
Arguments documentRef {Timestamp Date}.
Arguments transformAfterLoad {Timestamp Date}.
Arguments mkLoadState {Timestamp Date}.
Arguments loading {Timestamp Date}.
Arguments error {Timestamp Date}.
Arguments currentDocId {Timestamp Date}.
Arguments formValues {Timestamp Date}.
Arguments mkSnapshot {Timestamp Date}.
Arguments snapshotId {Timestamp Date}.
Arguments snapshotData {Timestamp Date}.
Arguments Next {Timestamp Date}.
Arguments Failed {Timestamp Date}.
Arguments initialState {Timestamp Date}.
Arguments subscribes {Timestamp Date}.
Arguments onEvent {Timestamp Date}.
Arguments afterEvents {Timestamp Date}.

End FirestoreLoad.

Module AutoSave.

(** What happens to the auto-save effect: the form reports a change with its
    current data, the pending timeout runs (the form being valid or not at
    that moment), or the component unmounts. *)
Inductive Event : Type :=
| Changed (data : obj)
| TimerFired (isValid : bool)
| Unmounted.

(** [watching]: the [form.watch] subscription is active.  [pending]: the
    data captured by the timeout that [autoSaveTimeoutRef] holds and that
    has neither run nor been cleared. *)
Record Effect : Type := mkEffect {
  watching : bool;
  pending : option obj
}.

(** [if (!autoSave) return;] before subscribing. *)
Definition mounted (autoSave : bool) : Effect := mkEffect autoSave None.

(** One event: the new effect state and the data handed to
    [saveToFirestore], if any. *)
Definition onEvent (st : Effect) (e : Event) : Effect * list obj :=
  match e with
  | Changed data =>
      if watching st then (mkEffect true (Some data), [])
      else (st, [])
  | TimerFired isValid =>
      match pending st with
      | Some data =>
          (mkEffect (watching st) None, if isValid then [data] else [])
      | None => (st, [])
      end
  | Unmounted => (mkEffect false None, [])
  end.

(** The saves triggered by a sequence of events, in order. *)
Fixpoint saves (st : Effect) (events : list Event) : list obj :=
  match events with
  | [] => []
  | e :: rest =>
      (snd (onEvent st e) ++ saves (fst (onEvent st e)) rest)%list
  end.

End AutoSave.

Module StorageUpload.

Section Upload.
(** Progress values are host numbers; [percent b t] is
    [(b / t) * 100] and [zero] is [0]. *)
Variable Progress : Type.
Variable zero : Progress.
Variable percent : Z -> Z -> Progress.

(** The optional handlers of the caller: whether [onProgress] and [onError]
    were provided, and [onComplete], which returns [Some e] when it throws. *)
Record Handlers : Type := mkHandlers {
  onProgress : bool;
  onComplete : option (string -> option FirestoreForm.Error);
  onError : bool
}.

Record UploadState : Type := mkUploadState {
  uploading : bool;
  progress : Progress;
  downloadURL : option string;
  error : option FirestoreForm.Error
}.

(** What the upload task reports: a [state_changed] snapshot, an error, or
    completion, with the outcome of [getDownloadURL]. *)
Inductive TaskEvent : Type :=
| StateChanged (bytesTransferred totalBytes : Z)
| TaskFailed (err : FirestoreForm.Error)
| TaskCompleted (resolved : FirestoreForm.Error + string).

(** A call made to one of the caller's handlers. *)
Inductive Call : Type :=
| ProgressCall (p : Progress)
| CompleteCall (downloadUrl : string)
| ErrorCall (err : FirestoreForm.Error).

Definition initialState : UploadState := mkUploadState false zero None None.

(** [upload(file)], up to the registration of the observers. *)
Definition start (st : UploadState) : UploadState :=
  mkUploadState true zero (downloadURL st) None.

Definition fail (h : Handlers) (st : UploadState) (err : FirestoreForm.Error)
  : UploadState * list Call :=
  (mkUploadState false (progress st) (downloadURL st) (Some err),
   if onError h then [ErrorCall err] else []).

(** The three observers of [uploadTask.on]. *)
Definition onTaskEvent (h : Handlers) (st : UploadState) (e : TaskEvent)
  : UploadState * list Call :=
  match e with
  | StateChanged bytesTransferred totalBytes =>
      let prog := percent bytesTransferred totalBytes in
      (mkUploadState (uploading st) prog (downloadURL st) (error st),
       if onProgress h then [ProgressCall prog] else [])
  | TaskFailed err => fail h st err
  | TaskCompleted (inr link) =>
      let done := mkUploadState false (progress st) (Some link) (error st) in
      match onComplete h with
      | Some handler =>
          match handler link with
          | Some err =>
              let (failed, calls) := fail h done err in
              (failed, CompleteCall link :: calls)
          | None => (done, [CompleteCall link])
          end
      | None => (done, [])
      end
  | TaskCompleted (inl err) => fail h st err
  end.

(** An upload started in state [st] whose task reports [events]: the final
    state and the calls made, in order. *)
Fixpoint observe (h : Handlers) (st : UploadState) (events : list TaskEvent)
  : UploadState * list Call :=
  match events with
  | [] => (st, [])
  | e :: rest =>
      let (st', calls) := onTaskEvent h st e in
      let (final, later) := observe h st' rest in
      (final, (calls ++ later)%list)
  end.

Definition upload (h : Handlers) (st : UploadState) (events : list TaskEvent)
  : UploadState * list Call :=
  observe h (start st) events.

End Upload.

Arguments mkUploadState {Progress}.
Arguments uploading {Progress}.
Arguments progress {Progress}.
Arguments downloadURL {Progress}.
Arguments error {Progress}.
Arguments ProgressCall {Progress}.
Arguments CompleteCall {Progress}.
Arguments ErrorCall {Progress}.

End StorageUpload.

Import ConditionalFields ZodParser FirestoreForm.

(* ================================================================== *)
(** ** What a schema declares, and the inputs used below *)
(* ================================================================== *)





Definition isEmailOrUrl (c : ZodStringCheck) : bool :=
  match c with
  | SCEmail | SCUrl => true
  | _ => false
  end.

(** A [min] check that makes the mapper choose [textarea]. *)
Definition isLongMin (c : ZodStringCheck) : bool :=
  match c with
  | SCMin v => 100 <=? v
  | _ => false
  end.

(** The last [max] check of a string schema. *)
Definition declaredMaxLength (checks : list ZodStringCheck) : option Z :=
  fold_left
    (fun acc c => match c with SCMax v => Some v | _ => acc end)
    checks None.

(** The last [regex] check of a string schema, as the [RegExp] object. *)
Definition declaredPattern (checks : list ZodStringCheck) : option value :=
  fold_left
    (fun acc c =>
       match c with SCRegex source flags _ => Some (VRegExp source flags)
               | _ => acc end)
    checks None.


(** The value [generateDefaultValues] assigns to a property of the given
    schema, if it assigns one. *)
Definition defaultFor (zodType : ZodType) : option value :=
  match zodType with
  | ZodDefault _ defaultValue => Some defaultValue
  | ZodArray _ _ _ => Some (VArr [])
  | ZodObject _ => Some (VObj (generateDefaultValues zodType))
  | ZodBoolean => Some (VBool false)
  | ZodNumber _ => Some (VNum 0)
  | ZodString _ => Some (VStr "")
  | _ => None
  end.

(** One iteration of the [forEach] of [generateDefaultValues]. *)
Definition assignDefault (defaults : obj) (entry : string * ZodType) : obj :=
  match defaultFor (snd entry) with
  | Some v => set (fst entry) v defaults
  | None => defaults
  end.


(** The operators [useConditionalFields] has a case for. *)
Definition knownOperators : list string :=
  ["equals"; "not-equals"; "contains"; "greater-than"; "less-than"].

(** The widest [_metadata] a save writes. *)
Definition creationMetadata (u : option User) : obj :=
  [("updatedAt", VServerTimestamp); ("updatedBy", uidOrNull u);
   ("createdAt", VServerTimestamp); ("createdBy", uidOrNull u)].


(** Every key the parser writes into a config or a rule object. *)
Definition parserKeys : list string :=
  ["defaultValue"; "required"; "pattern"; "minLength"; "maxLength"; "min";
   "max"; "step"; "options"; "minItems"; "maxItems"; "email"; "url"; "uuid";
   "cuid"; "startsWith"; "endsWith"; "minInclusive"; "maxInclusive";
   "integer"; "multipleOf"; "finite"].

(** A biography of at least 100 characters, capped at 500, with a pattern. *)
Definition bioChecks : list ZodStringCheck :=
  [SCMin 100; SCMax 500; SCRegex "^[a-z ]+$" "" (fun _ => true)].

(** An object schema with six string properties. *)
Definition sixStrings : ZodType :=
  ZodObject
    [("street", ZodString []); ("number", ZodString []);
     ("city", ZodString []); ("zip", ZodString []);
     ("state", ZodString []); ("country", ZodString [])].

(** [z.object({ address: sixStrings })]. *)
Definition addressSchema : ZodType := ZodObject [("address", sixStrings)].




(** [z.object({ name: z.string().default('John'),
                 phone: z.string().optional(),
                 age: z.number().nullable() })]. *)
Definition profileSchema : ZodType :=
  ZodObject
    [("name", ZodDefault (ZodString []) (VStr "John"));
     ("phone", ZodOptional (ZodString []));
     ("age", ZodNullable (ZodNumber []))].

(** [z.object({ name: z.string().default('John'),
                 phone: z.string().optional() })]. *)
Definition contactShape : list (string * ZodType) :=
  [("name", ZodDefault (ZodString []) (VStr "John"));
   ("phone", ZodOptional (ZodString []))].

(** The outcomes of [safeParse] used to exercise the validator: two issues,
    one on a nested array item and one at the root. *)
Definition twoIssues : list ZodIssue.t :=
  [ZodIssue.mk "too_small" "Too short"
     [VStr "items"; VNum 2; VStr "name"];
   ZodIssue.mk "invalid_type" "Required" []].

Definition failingParse (schema : ZodType) (data : value) : SafeParseReturn :=
  match data with
  | VNull => Threw
  | VUndefined => SafeParseError twoIssues
  | _ => SafeParseSuccess data
  end.

(** Numeric comparisons on integer-valued numbers only. *)
Definition numGt (a b : value) : bool :=
  match a, b with
  | VNum x, VNum y => y <? x
  | _, _ => false
  end.

Definition numLt (a b : value) : bool :=
  match a, b with
  | VNum x, VNum y => x <? y
  | _, _ => false
  end.

Definition plainField (name : string) (cfg : obj) : FieldAnalysis.t :=
  FieldAnalysis.mk name text "ZodString" true cfg VUndefined.

(** A form with a field without rule and one whose rule has a mistyped
    operator. *)
Definition contactFields : dict FieldAnalysis.t :=
  [("contactPreference", plainField "contactPreference" []);
   ("phoneNumber",
    plainField "phoneNumber"
      [("showWhen",
        VObj [("field", VStr "contactPreference"); ("value", VStr "phone");
              ("operator", VStr "equal")])])].

(** A Firestore client that accepts every write and records it; [addDoc]
    names the created document after the number of writes so far. *)
Definition Log : Type := list WriteCall.

Definition logSetDoc (target : DocumentReference) (payload : value)
    (merge : bool) (db : Log) : Error + Log :=
  inr (db ++ [SetDocMerge target payload])%list.

Definition logUpdateDoc (target : DocumentReference) (payload : value)
    (db : Log) : Error + Log :=
  inr (db ++ [UpdateDoc target payload])%list.

Definition logAddDoc (collectionName : string) (payload : value) (db : Log)
  : Error + (DocumentReference * Log) :=
  inr (doc collectionName ("doc" ++ string_of_Z (Z.of_nat (List.length db))),
       (db ++ [AddDoc collectionName payload])%list).



(** The hook's state before any document is bound. *)
Definition unboundState : State := mkState false None None.

Definition titleX : obj := [("title", VStr "x")].

(** The schema under the wrappers ([ZodDefault], [ZodOptional],
    [ZodNullable], [ZodEffects]) that the mapper peels. *)
Fixpoint unwrap (zodType : ZodType) : ZodType :=
  match zodType with
  | ZodDefault innerType _ => unwrap innerType
  | ZodOptional innerType | ZodNullable innerType => unwrap innerType
  | ZodEffects schema _ => unwrap schema
  | _ => zodType
  end.

Definition isWrapper (zodType : ZodType) : bool :=
  match zodType with
  | ZodDefault _ _ | ZodOptional _ | ZodNullable _ | ZodEffects _ _ => true
  | _ => false
  end.

(** An optional or nullable wrapper occurs among the wrappers. *)
Fixpoint hasOptionalWrapper (zodType : ZodType) : bool :=
  match zodType with
  | ZodOptional _ | ZodNullable _ => true
  | ZodDefault innerType _ => hasOptionalWrapper innerType
  | ZodEffects schema _ => hasOptionalWrapper schema
  | _ => false
  end.

(** The default declared by the outermost [ZodDefault] among the wrappers. *)
Fixpoint wrapperDefault (zodType : ZodType) : option value :=
  match zodType with
  | ZodDefault _ defaultValue => Some defaultValue
  | ZodOptional innerType | ZodNullable innerType => wrapperDefault innerType
  | ZodEffects schema _ => wrapperDefault schema
  | _ => None
  end.

(** The checks of a string schema at which the mapper's loop returns. *)
Definition isDecisive (c : ZodStringCheck) : bool :=
  isEmailOrUrl c || isLongMin c.

Definition isArraySchema (zodType : ZodType) : bool :=
  match zodType with
  | ZodArray _ _ _ => true
  | _ => false
  end.

Definition isObjectSchema (zodType : ZodType) : bool :=
  match zodType with
  | ZodObject _ => true
  | _ => false
  end.

(** The entry [generateDefaultValues] writes for one property, if any. *)
Definition defaultEntry (entry : string * ZodType) : obj :=
  match defaultFor (snd entry) with
  | Some v => [(fst entry, v)]
  | None => []
  end.

(** A property that may be absent, as a value. *)
Definition orUndefined (o : option value) : value :=
  match o with
  | Some v => v
  | None => VUndefined
  end.

(** The keys the mapper writes for a schema that is not a wrapper. *)
Definition baseKeys : list string :=
  ["pattern"; "minLength"; "maxLength"; "min"; "max"; "step"; "options";
   "minItems"; "maxItems"].

(** Scenario 6 of the specification: [phoneNumber] shows when
    [contactPreference] is [phone] (no operator given), [postalAddress] when
    it is not. *)
Definition preferenceFields : dict FieldAnalysis.t :=
  [("phoneNumber",
    plainField "phoneNumber"
      [("showWhen",
        VObj [("field", VStr "contactPreference"); ("value", VStr "phone")])]);
   ("postalAddress",
    plainField "postalAddress"
      [("showWhen",
        VObj [("field", VStr "contactPreference"); ("value", VStr "phone");
              ("operator", VStr "not-equals")])])].

(** A [Timestamp] occurs somewhere in the data. *)
Fixpoint holdsTimestamp {T D : Type} (d : Timestamps.data T D) : bool :=
  match d with
  | Timestamps.DTimestamp _ => true
  | Timestamps.DArr items => existsb holdsTimestamp items
  | Timestamps.DInstance _ props | Timestamps.DObj props =>
      (fix any (ps : list (string * Timestamps.data T D)) : bool :=
         match ps with
         | [] => false
         | (_, v) :: rest => holdsTimestamp v || any rest
         end) props
  | _ => false
  end.

(** Every object in the data, at any depth, has distinct property names, as
    every JavaScript object has. *)
Fixpoint distinctKeys {T D : Type} (d : Timestamps.data T D) : Prop :=
  match d with
  | Timestamps.DArr items =>
      (fix all (xs : list (Timestamps.data T D)) : Prop :=
         match xs with
         | [] => True
         | x :: rest => distinctKeys x /\ all rest
         end) items
  | Timestamps.DInstance _ props | Timestamps.DObj props =>
      NoDup (map fst props)
      /\ (fix all (ps : list (string * Timestamps.data T D)) : Prop :=
            match ps with
            | [] => True
            | (_, v) :: rest => distinctKeys v /\ all rest
            end) props
  | _ => True
  end.

(** Data made of primitives, arrays and plain objects only: no [Timestamp],
    no [Date], no object of another class; the objects have distinct
    property names. *)
Fixpoint isPlain {T D : Type} (d : Timestamps.data T D) : Prop :=
  match d with
  | Timestamps.DTimestamp _ | Timestamps.DDate _
  | Timestamps.DInstance _ _ => False
  | Timestamps.DArr items =>
      (fix all (xs : list (Timestamps.data T D)) : Prop :=
         match xs with
         | [] => True
         | x :: rest => isPlain x /\ all rest
         end) items
  | Timestamps.DObj props =>
      NoDup (map fst props)
      /\ (fix all (ps : list (string * Timestamps.data T D)) : Prop :=
            match ps with
            | [] => True
            | (_, v) :: rest => isPlain v /\ all rest
            end) props
  | _ => True
  end.

(** A position in the data: an index of an array or a property name of an
    object. *)
Inductive Step : Type :=
| AtIndex (i : nat)
| AtKey (k : string).

(** The value found by following a path of positions from the root. *)
Fixpoint valueAt {T D : Type} (path : list Step) (d : Timestamps.data T D)
  : option (Timestamps.data T D) :=
  match path with
  | [] => Some d
  | AtIndex i :: rest =>
      match d with
      | Timestamps.DArr items =>
          match nth_error items i with
          | Some x => valueAt rest x
          | None => None
          end
      | _ => None
      end
  | AtKey k :: rest =>
      match d with
      | Timestamps.DInstance _ props | Timestamps.DObj props =>
          match lookup k props with
          | Some x => valueAt rest x
          | None => None
          end
      | _ => None
      end
  end.

(** A stored event: a name, the instant it starts (seconds since the
    epoch), the place as a [GeoPoint], and tags. *)
Definition storedEvent : Timestamps.data Z Z :=
  Timestamps.DObj
    [("name", Timestamps.DStr "Launch");
     ("startsAt", Timestamps.DTimestamp 1700000000);
     ("place",
      Timestamps.DInstance "GeoPoint"
        [("_lat", Timestamps.DNum 48); ("_long", Timestamps.DNum 2)]);
     ("slots",
      Timestamps.DArr
        [Timestamps.DTimestamp 1700003600; Timestamps.DNull])].


(** A conversion for instants given as seconds since the epoch. *)
Definition secondsToMillis (t : Z) : Z := t * 1000.

(** The snapshot of an existing document. *)
Definition deliversData {T D : Type} (e : FirestoreLoad.Event T D)
  : bool :=
  match e with
  | FirestoreLoad.Next snapshot =>
      match FirestoreLoad.snapshotData snapshot with
      | Some _ => true
      | None => false
      end
  | FirestoreLoad.Failed _ => false
  end.

Definition isFailure {T D : Type} (e : FirestoreLoad.Event T D)
  : bool :=
  match e with
  | FirestoreLoad.Failed _ => true
  | FirestoreLoad.Next _ => false
  end.

(** A hook bound to the document [abc] of the collection [posts]. *)
Definition boundConfig : FirestoreLoad.LoadConfig Z Z :=
  FirestoreLoad.mkLoadConfig (Some "posts") (Some "abc") None None.

(** A hook given a document id without collection. *)
Definition idOnlyConfig : FirestoreLoad.LoadConfig Z Z :=
  FirestoreLoad.mkLoadConfig None (Some "abc") None None.

Definition titleY : Timestamps.data Z Z :=
  Timestamps.DObj [("title", Timestamps.DStr "y")].

Definition offline : FirestoreForm.Error := FirestoreForm.mkError "unavailable".

(** A hook without collection and without document reference. *)
Definition targetlessConfig : Config :=
  mkConfig None None None true None None None.

(** The hook on [posts] with an [onSuccess] callback that always throws. *)
Definition rejected : Error := mkError "onSuccess failed".

Definition throwingConfig : Config :=
  mkConfig (Some "posts") None (Some (mkUser "u1")) true None
    (Some (fun _ => Some rejected)) None.

(** The hook on [posts] with a document reference as well, and the state
    with the document [abc] bound. *)
Definition bothConfig : Config :=
  mkConfig (Some "posts") (Some (doc "users" "u1")) None true None None None.

Definition boundState : State := mkState false None (Some "abc").

(** The hook on [posts] without metadata. *)
Definition bareConfig : Config :=
  mkConfig (Some "posts") None None false None None None.

(** The task event that ends an upload. *)
Definition isTerminal (e : StorageUpload.TaskEvent) : bool :=
  match e with
  | StorageUpload.StateChanged _ _ => false
  | _ => true
  end.

(** The [state_changed] event of a tick (bytes transferred, total bytes). *)
Definition tickEvent (t : Z * Z) : StorageUpload.TaskEvent :=
  StorageUpload.StateChanged (fst t) (snd t).

(** Whole percents, for uploads whose ticks fall on whole percents. *)
Definition wholePercent (transferred total : Z) : Z :=
  transferred * 100 / total.

(** Handlers that are all provided and do not throw. *)
Definition allHandlers : StorageUpload.Handlers :=
  StorageUpload.mkHandlers true (Some (fun _ => None)) true.

(** A hook without target whose [transformBeforeSave] throws, and the hook
    on [posts] whose [onSuccess] and [onError] both throw. *)
Definition refused : Error := mkError "refused".

Definition hookThrows : Config :=
  mkConfig None None None true (Some (fun _ => inl refused)) None None.

Definition bothThrow : Config :=
  mkConfig (Some "posts") None (Some (mkUser "u1")) true None
    (Some (fun _ => Some rejected)) (Some (fun _ => Some refused)).










(** The keys [extractValidationRules] writes. *)
Definition ruleKeys : list string :=
  ["required"; "minLength"; "maxLength"; "email"; "url"; "pattern"; "uuid";
   "cuid"; "startsWith"; "endsWith"; "min"; "minInclusive"; "max";
   "maxInclusive"; "integer"; "multipleOf"; "finite"; "minItems";
   "maxItems"].

(* ================================================================== *)
(** ** Objects: reading after writing *)
(* ================================================================== *)

Local Open Scope list_scope.

Section DictFacts.
Context {A : Type}.
Implicit Types (o : dict A) (k : string) (v : A).

Lemma lookup_set_same k v o : lookup k (set k v o) = Some v.
Proof.
  induction o as [|[k' v'] rest IH]; simpl.
  - now rewrite String.eqb_refl.
  - destruct (String.eqb k k') eqn:E; simpl.
    + now rewrite String.eqb_refl.
    + now rewrite E.
Qed.

Lemma lookup_set_other k k' v o :
  k <> k' -> lookup k (set k' v o) = lookup k o.
Proof.
  intros Hne. induction o as [|[k0 v0] rest IH]; simpl.
  - apply String.eqb_neq in Hne. now rewrite Hne.
  - destruct (String.eqb k' k0) eqn:E; simpl.
    + apply String.eqb_eq in E. subst k0.
      apply String.eqb_neq in Hne. now rewrite Hne.
    + now rewrite IH.
Qed.

Lemma lookup_key_some k o : In k (keys o) -> exists v, lookup k o = Some v.
Proof.
  induction o as [|[k' v'] rest IH]; simpl; intros Hin; [contradiction|].
  destruct (String.eqb k k') eqn:E; [eauto|].
  destruct Hin as [Heq|Hin]; [|auto].
  subst. now rewrite String.eqb_refl in E.
Qed.

(** Reading a key after a spread: the right operand wins. *)
Lemma lookup_spread k (target src : dict A) :
  lookup k (spread target src) =
  match lookup k (spread [] src) with
  | Some v => Some v
  | None => lookup k target
  end.
Proof.
  unfold spread.
  revert target. induction src as [|[k' v'] rest IH] using rev_ind; intros target.
  - simpl. reflexivity.
  - rewrite !fold_left_app. simpl.
    destruct (String.eqb k k') eqn:E.
    + apply String.eqb_eq in E. subst k'. now rewrite !lookup_set_same.
    + apply String.eqb_neq in E. rewrite !(lookup_set_other _ _ _ _ E). apply IH.
Qed.

End DictFacts.

Lemma get_set_same k v (o : obj) : get k (set k v o) = v.
Proof. unfold get. now rewrite lookup_set_same. Qed.

Lemma get_set_other k k' v (o : obj) : k <> k' -> get k (set k' v o) = get k o.
Proof. intros H. unfold get. now rewrite lookup_set_other. Qed.

Lemma get_spread k (target src : obj) :
  get k (spread target src) =
  match lookup k (spread [] src) with
  | Some v => v
  | None => get k target
  end.
Proof.
  unfold get. rewrite lookup_spread.
  now destruct (lookup k (spread [] src)).
Qed.

(* ================================================================== *)
(** ** Number schemas: [range] or [number] *)
(* ================================================================== *)










(* ================================================================== *)
(** ** Enum schemas: [radio] or [select] *)
(* ================================================================== *)



(** C9.  A native enum schema maps to [select] whatever the number of its
    values, with one capitalized option per value; the rule that at most 4
    options give [radio] is that of literal enum schemas only. *)
Theorem native_enum_always_select (values : dict value) (path : string) :
  let r := mapZodTypeToFieldType (ZodNativeEnum values) path in
  type r = select
  /\ get "options" (config r) = VArr (map capitalizedOption (JS.values values))
  /\ (forall literals : list string,
        (List.length literals <= 4)%nat ->
        List.length literals = List.length values ->
        type (mapZodTypeToFieldType (ZodEnum literals) path) = radio).
Proof.
  intros r. subst r. simpl. repeat split.
  intros literals Hle _. rewrite length_map.
  apply Nat2Z.inj_le in Hle. simpl in Hle.
  apply Z.leb_le in Hle. now rewrite Hle.
Qed.

Lemma native_enum_always_select_witness :
  type (mapZodTypeToFieldType
          (ZodNativeEnum [("Up", VStr "up"); ("Down", VStr "down")]) "")
  = select
  /\ (List.length ["up"; "down"] <= 4)%nat
  /\ type (mapZodTypeToFieldType (ZodEnum ["up"; "down"]) "") = radio.
Proof.
  pose proof
    (native_enum_always_select [("Up", VStr "up"); ("Down", VStr "down")] "")
    as Hthm.
  cbv zeta in Hthm. destruct Hthm as (Hselect & _ & Hradio).
  split; [exact Hselect|]. split; [simpl; lia|].
  apply (Hradio ["up"; "down"]); [simpl; lia | reflexivity].
Defined.

(* ================================================================== *)
(** ** Objects built by assignment have no repeated key *)
(* ================================================================== *)

Section DictShape.
Context {A : Type}.
Implicit Types (o : dict A) (k : string) (v : A).

Lemma set_fresh k v o : ~ In k (keys o) -> set k v o = o ++ [(k, v)].
Proof.
  induction o as [|[k' v'] rest IH]; simpl; intros Hnot; [reflexivity|].
  destruct (String.eqb k k') eqn:E.
  - apply String.eqb_eq in E. subst. exfalso. auto.
  - f_equal. apply IH. auto.
Qed.

Lemma keys_set_present k v o : In k (keys o) -> keys (set k v o) = keys o.
Proof.
  induction o as [|[k' v'] rest IH]; simpl; intros Hin; [contradiction|].
  destruct (String.eqb k k') eqn:E; simpl.
  - apply String.eqb_eq in E. now subst.
  - f_equal. apply IH. destruct Hin as [Heq|Hin]; [|exact Hin].
    subst. now rewrite String.eqb_refl in E.
Qed.

Lemma NoDup_keys_set k v o : NoDup (keys o) -> NoDup (keys (set k v o)).
Proof.
  intros Hnd. destruct (in_dec string_dec k (keys o)) as [Hin|Hnot].
  - now rewrite keys_set_present.
  - rewrite set_fresh by exact Hnot. unfold keys. rewrite map_app. simpl.
    apply NoDup_app; [exact Hnd | repeat constructor; auto |].
    intros x Hx [Heq|[]]. subst. auto.
Qed.

Lemma spread_fresh (target src : dict A) :
  NoDup (keys (target ++ src)) -> spread target src = target ++ src.
Proof.
  unfold spread. revert target.
  induction src as [|[k v] rest IH]; intros target Hnd; simpl.
  - now rewrite app_nil_r.
  - rewrite set_fresh.
    + rewrite IH; rewrite <- app_assoc; [reflexivity | exact Hnd].
    + unfold keys in Hnd. rewrite map_app in Hnd. simpl in Hnd.
      apply NoDup_remove_2 in Hnd. intros Hin. apply Hnd.
      apply in_or_app. now left.
Qed.

(** [{...o}] is a copy of [o]. *)
Lemma spread_copy o : NoDup (keys o) -> spread [] o = o.
Proof. intros Hnd. now rewrite spread_fresh. Qed.

End DictShape.

Lemma get_spread_NoDup k (target src : obj) :
  NoDup (keys src) ->
  get k (spread target src) =
  match lookup k src with
  | Some v => v
  | None => get k target
  end.
Proof. intros Hnd. rewrite get_spread. now rewrite spread_copy. Qed.

(* ================================================================== *)
(** ** String schemas: the [textarea] rule *)
(* ================================================================== *)

Lemma stringChecks_long_min pre v post cfg :
  forallb (fun c => negb (isEmailOrUrl c)) pre = true ->
  100 <= v ->
  type (stringChecks (pre ++ SCMin v :: post) cfg) = textarea.
Proof.
  intros Hpre Hv. revert cfg.
  induction pre as [|c rest IH]; intros cfg; simpl.
  - apply Z.leb_le in Hv. now rewrite Hv.
  - simpl in Hpre. apply andb_prop in Hpre. destruct Hpre as [Hc Hrest].
    destruct c; simpl in Hc; try discriminate; try (apply IH; exact Hrest).
    match goal with
    | |- context [100 <=? ?w] => destruct (100 <=? w)
    end; [reflexivity | apply IH; exact Hrest].
Qed.

(** The loop returns at the first long [min]: what follows is not read. *)
Lemma stringChecks_stops pre v post cfg :
  forallb (fun c => negb (isEmailOrUrl c || isLongMin c)) pre = true ->
  100 <= v ->
  stringChecks (pre ++ SCMin v :: post) cfg =
  mkMapped textarea (set "minLength" (VNum v) (config (stringChecks pre cfg))).
Proof.
  intros Hpre Hv. revert cfg.
  induction pre as [|c rest IH]; intros cfg; simpl.
  - apply Z.leb_le in Hv. now rewrite Hv.
  - simpl in Hpre. apply andb_prop in Hpre. destruct Hpre as [Hc Hrest].
    destruct c; simpl in Hc; try discriminate; try (apply IH; exact Hrest).
    match goal with
    | |- context [100 <=? ?w] => destruct (100 <=? w)
    end; [discriminate | apply IH; exact Hrest].
Qed.

Lemma stringRule_keys_NoDup checks rules :
  NoDup (keys rules) -> NoDup (keys (fold_left stringRule checks rules)).
Proof.
  revert rules. induction checks as [|c rest IH]; intros rules Hnd; simpl.
  - exact Hnd.
  - apply IH. destruct c; simpl; try exact Hnd; now apply NoDup_keys_set.
Qed.

Lemma stringRule_maxLength checks rules acc :
  lookup "maxLength" rules = option_map VNum acc ->
  lookup "maxLength" (fold_left stringRule checks rules) =
  option_map VNum
    (fold_left (fun acc c => match c with SCMax v => Some v | _ => acc end)
       checks acc).
Proof.
  revert rules acc. induction checks as [|c rest IH]; intros rules acc H; simpl.
  - exact H.
  - apply IH. destruct c; simpl;
      try (rewrite lookup_set_other by discriminate; exact H).
    + apply lookup_set_same.
    + exact H.
Qed.

Lemma stringRule_pattern checks rules acc :
  lookup "pattern" rules = acc ->
  lookup "pattern" (fold_left stringRule checks rules) =
  fold_left
    (fun acc c =>
       match c with SCRegex source flags _ => Some (VRegExp source flags)
               | _ => acc end)
    checks acc.
Proof.
  revert rules acc. induction checks as [|c rest IH]; intros rules acc H; simpl.
  - exact H.
  - apply IH. destruct c; simpl;
      try (rewrite lookup_set_other by discriminate; exact H).
    + apply lookup_set_same.
    + exact H.
Qed.

(** What [analyzeField] stores for a string schema under a key that the
    validation rules define. *)
Lemma analyzed_string_rule name checks path k v :
  k <> "required" ->
  lookup k (fold_left stringRule checks []) = Some v ->
  get k (FieldAnalysis.config (analyzeField name (ZodString checks) path)) = v.
Proof.
  intros Hk Hlook. unfold analyzeField. simpl FieldAnalysis.config.
  rewrite get_spread_NoDup.
  - simpl extractValidationRules.
    rewrite lookup_set_other by exact Hk. now rewrite Hlook.
  - simpl. apply NoDup_keys_set. apply stringRule_keys_NoDup. constructor.
Qed.

(** C2, as the code has it.  When no [email] or [url] check precedes a
    [min] check of at least 100, the mapper returns [textarea]; when that
    check is the first such [min], the config it returns is the one
    gathered up to that check with [minLength] set, whatever is declared
    after it.  A [max] or [regex] declared anywhere in the list, after the
    long [min] as well, reaches the field's config through the validation
    rules that [analyzeField] merges over the mapper's config. *)
Theorem long_string_is_textarea (pre post : list ZodStringCheck) (v : Z)
    (name path : string) :
  forallb (fun c => negb (isEmailOrUrl c)) pre = true ->
  100 <= v ->
  let checks := pre ++ SCMin v :: post in
  type (mapZodTypeToFieldType (ZodString checks) path) = textarea
  /\ (forallb (fun c => negb (isLongMin c)) pre = true ->
      mapZodTypeToFieldType (ZodString checks) path =
      mkMapped textarea
        (set "minLength" (VNum v) (config (stringChecks pre []))))
  /\ (forall m, declaredMaxLength checks = Some m ->
      get "maxLength"
        (FieldAnalysis.config (analyzeField name (ZodString checks) path))
      = VNum m)
  /\ (forall p, declaredPattern checks = Some p ->
      get "pattern"
        (FieldAnalysis.config (analyzeField name (ZodString checks) path))
      = p).
Proof.
  intros Hpre Hv checks. subst checks. repeat split.
  - simpl. now apply stringChecks_long_min.
  - intros Hlong. simpl. apply stringChecks_stops; [|exact Hv].
    clear - Hpre Hlong. induction pre as [|c rest IH]; [reflexivity|].
    simpl in *. apply andb_prop in Hpre. apply andb_prop in Hlong.
    destruct Hpre as [Hc Hrest], Hlong as [Hl Hlrest].
    rewrite IH by assumption.
    rewrite negb_orb, Hc, Hl. reflexivity.
  - intros m Hm. apply analyzed_string_rule; [discriminate|].
    rewrite (stringRule_maxLength _ [] None) by reflexivity.
    unfold declaredMaxLength in Hm. now rewrite Hm.
  - intros p Hp. apply analyzed_string_rule; [discriminate|].
    rewrite (stringRule_pattern _ [] None) by reflexivity.
    exact Hp.
Qed.

Lemma long_string_is_textarea_witness :
  100 <= 100
  /\ type (mapZodTypeToFieldType (ZodString bioChecks) "bio") = textarea
  /\ get "maxLength"
       (FieldAnalysis.config (analyzeField "bio" (ZodString bioChecks) "bio"))
     = VNum 500.
Proof.
  pose proof
    (long_string_is_textarea [] (tl bioChecks) 100 "bio" "bio"
       eq_refl ltac:(lia)) as Hthm.
  cbv zeta in Hthm. destruct Hthm as (Htype & _ & Hmax & _).
  split; [lia|]. split; [exact Htype|].
  apply Hmax. reflexivity.
Defined.

(** C2, as stated, fails: the mapper's own config holds nothing declared
    after the long [min]. *)
Lemma later_checks_not_in_mapped_config :
  mapZodTypeToFieldType (ZodString bioChecks) "bio"
  = mkMapped textarea [("minLength", VNum 100)]
  /\ get "maxLength" (config (mapZodTypeToFieldType (ZodString bioChecks) "bio"))
     = VUndefined
  /\ get "pattern" (config (mapZodTypeToFieldType (ZodString bioChecks) "bio"))
     = VUndefined.
Proof. repeat split. Qed.

(* ================================================================== *)
(** ** Schema analysis: which keys a parsed field can carry *)
(* ================================================================== *)

Lemma lookup_set_unwritten (k k' : string) (v : value) (o : obj) :
  ~ In k parserKeys -> In k' parserKeys ->
  lookup k (set k' v o) = lookup k o.
Proof.
  intros Hk Hk'. apply lookup_set_other. intros E. subst. contradiction.
Qed.

Ltac unwritten Hk :=
  repeat (rewrite lookup_set_unwritten; [| exact Hk | simpl; tauto]).

Lemma stringChecks_unwritten k checks cfg :
  ~ In k parserKeys -> lookup k cfg = None ->
  lookup k (config (stringChecks checks cfg)) = None.
Proof.
  intros Hk. revert cfg.
  induction checks as [|c rest IH]; intros cfg Hcfg; simpl; [exact Hcfg|].
  destruct c; simpl; try exact Hcfg; try (apply IH; unwritten Hk; exact Hcfg).
  match goal with
  | |- context [100 <=? ?w] => destruct (100 <=? w)
  end; simpl; [unwritten Hk; exact Hcfg | apply IH; unwritten Hk; exact Hcfg].
Qed.

Lemma numberChecks_unwritten k checks st :
  ~ In k parserKeys -> lookup k (n_config st) = None ->
  lookup k (n_config (fold_left numberCheck checks st)) = None.
Proof.
  intros Hk. revert st.
  induction checks as [|c rest IH]; intros st Hst; simpl; [exact Hst|].
  apply IH. destruct c; simpl; unwritten Hk; exact Hst.
Qed.

Ltac literal_keys Hk :=
  repeat match goal with
    | |- context [String.eqb ?k ?lit] =>
        let E := fresh in
        destruct (String.eqb k lit) eqn:E;
        [apply String.eqb_eq in E; subst; exfalso; apply Hk; simpl; tauto |]
    end;
  try reflexivity.

Lemma mapped_unwritten k zodType path :
  ~ In k parserKeys ->
  lookup k (config (mapZodTypeToFieldType zodType path)) = None.
Proof.
  intros Hk. induction zodType; simpl; try reflexivity;
    try (unwritten Hk; assumption).
  - now apply stringChecks_unwritten.
  - assert (H : lookup k (n_config (numberChecks checks)) = None)
      by now apply numberChecks_unwritten.
    destruct (minValue (numberChecks checks)),
      (maxValue (numberChecks checks)); try exact H.
    now destruct (_ <=? 10).
  - destruct (_ <=? 4); simpl; literal_keys Hk.
  - literal_keys Hk.
  - destruct minLength, maxLength; simpl; literal_keys Hk.
  - literal_keys Hk.
  - literal_keys Hk.
  - now destruct (_ && _)%bool.
Qed.

Lemma lookup_spread_absent {A : Type} k (target src : dict A) :
  lookup k src = None -> lookup k (spread target src) = lookup k target.
Proof.
  unfold spread. revert target.
  induction src as [|[k' v'] rest IH]; intros target Hnone; simpl;
    [reflexivity|].
  simpl in Hnone. destruct (String.eqb k k') eqn:E; [discriminate|].
  rewrite IH by exact Hnone. apply lookup_set_other.
  now apply String.eqb_neq.
Qed.

Lemma stringRule_unwritten k checks rules :
  ~ In k parserKeys -> lookup k rules = None ->
  lookup k (fold_left stringRule checks rules) = None.
Proof.
  intros Hk. revert rules.
  induction checks as [|c rest IH]; intros rules H; simpl; [exact H|].
  apply IH. destruct c; simpl; unwritten Hk; exact H.
Qed.

Lemma numberRule_unwritten k checks rules :
  ~ In k parserKeys -> lookup k rules = None ->
  lookup k (fold_left numberRule checks rules) = None.
Proof.
  intros Hk. revert rules.
  induction checks as [|c rest IH]; intros rules H; simpl; [exact H|].
  apply IH. destruct c; simpl; unwritten Hk; exact H.
Qed.

Lemma rules_unwritten k zodType :
  ~ In k parserKeys -> lookup k (extractValidationRules zodType) = None.
Proof.
  intros Hk.
  induction zodType as
    [checks|checks| | |vs|vs|elt _ minL maxL|shape|vt _|opts|d m|
     |inner IH dv|inner IH|inner IH|inner IH eff|nm isFile own];
    simpl; try assumption; try (literal_keys Hk).
  - unwritten Hk. now apply stringRule_unwritten.
  - unwritten Hk. now apply numberRule_unwritten.
  - destruct minL, maxL; simpl; literal_keys Hk.
  - unwritten Hk. now rewrite lookup_spread_absent.
  - unwritten Hk. now rewrite lookup_spread_absent.
Qed.

(** A field produced by [analyzeField] carries only parser keys. *)
Lemma analyzed_unwritten k name zodType path :
  ~ In k parserKeys ->
  get k (FieldAnalysis.config (analyzeField name zodType path)) = VUndefined.
Proof.
  intros Hk. unfold analyzeField, get. simpl FieldAnalysis.config.
  rewrite lookup_spread_absent by now apply rules_unwritten.
  rewrite lookup_spread_absent by now apply mapped_unwritten.
  reflexivity.
Qed.

Lemma Forall_values_set {A : Type} (P : A -> Prop) k v (o : dict A) :
  Forall P (values o) -> P v -> Forall P (values (set k v o)).
Proof.
  intros Ho Hv. induction o as [|[k' v'] rest IH]; simpl.
  - constructor; [exact Hv | constructor].
  - inversion Ho as [|? ? Hv' Hrest]; subst.
    destruct (String.eqb k k'); simpl; constructor; auto.
Qed.

(** No field of a parsed schema has a [showWhen] rule or nested [fields]. *)
Lemma parsed_fields_plain schema path :
  Forall
    (fun f => get "showWhen" (FieldAnalysis.config f) = VUndefined
              /\ get "fields" (FieldAnalysis.config f) = VUndefined)
    (values (parseSchema schema path)).
Proof.
  destruct schema; simpl; try constructor.
  assert (G : forall entries acc,
             Forall
               (fun f => get "showWhen" (FieldAnalysis.config f) = VUndefined
                         /\ get "fields" (FieldAnalysis.config f) = VUndefined)
               (values acc) ->
             Forall
               (fun f => get "showWhen" (FieldAnalysis.config f) = VUndefined
                         /\ get "fields" (FieldAnalysis.config f) = VUndefined)
               (values
                  (fold_left
                     (fun fields kv =>
                        set (fst kv) (analyzeField (fst kv) (snd kv) path)
                          fields)
                     entries acc))).
  { induction entries as [|[k t] rest IH]; intros acc Hacc; simpl.
    - exact Hacc.
    - apply IH. apply Forall_values_set; [exact Hacc|].
      split; apply analyzed_unwritten; simpl; intuition discriminate. }
  apply G. constructor.
Qed.

(** What [analyzeSchema] computes: the two escalation tests on [showWhen]
    and on nested [fields] never fire, so only a count above 20 gives
    [complex]. *)
Lemma analyzeSchema_complexity schema :
  let a := analyzeSchema schema in
  let n := Z.of_nat (List.length (SchemaAnalysis.fields a)) in
  SchemaAnalysis.hasConditionals a = false
  /\ SchemaAnalysis.complexity a =
     if 20 <? n then complex
     else if SchemaAnalysis.hasArrays a || SchemaAnalysis.hasObjects a
             || (10 <? n)
          then moderate else simple.
Proof.
  unfold analyzeSchema. simpl.
  pose proof (parsed_fields_plain schema "") as Hplain.
  set (fields := values (parseSchema schema "")) in *.
  assert (Hcond : existsb
            (fun f => truthy (get "showWhen" (FieldAnalysis.config f)))
            fields = false).
  { clear - Hplain. induction Hplain as [|f rest [Hs _] _ IH]; simpl.
    - reflexivity.
    - now rewrite Hs, IH. }
  assert (Hnested : existsb nestedShapeIsLarge fields = false).
  { clear - Hplain. induction Hplain as [|f rest [_ Hf] _ IH]; simpl.
    - reflexivity.
    - unfold nestedShapeIsLarge at 1. rewrite Hf, IH. simpl.
      now rewrite andb_false_r. }
  rewrite Hcond, Hnested. split; [reflexivity|].
  simpl. rewrite orb_false_r.
  now destruct (20 <? Z.of_nat (List.length fields)).
Qed.

(** C3, on the deviating input.  The object schema [addressSchema] has one
    property, [address], itself an object schema with 6 properties; its
    field is mapped to [object] with no nested [fields], and the analysis
    classifies the schema as [moderate], where the claim asks for
    [complex]. *)
Theorem nested_shape_not_escalated :
  (exists shape, sixStrings = ZodObject shape
                 /\ 5 < Z.of_nat (List.length shape))
  /\ map FieldAnalysis.type (SchemaAnalysis.fields (analyzeSchema addressSchema))
     = [object]
  /\ map (fun f => get "fields" (FieldAnalysis.config f))
       (SchemaAnalysis.fields (analyzeSchema addressSchema))
     = [VUndefined]
  /\ SchemaAnalysis.complexity (analyzeSchema addressSchema) = moderate.
Proof.
  split.
  - eexists. split; [reflexivity|]. simpl. lia.
  - repeat split.
Qed.

(* ================================================================== *)
(** ** Default values *)
(* ================================================================== *)

Lemma generateDefaultValues_object shape :
  generateDefaultValues (ZodObject shape) = fold_left assignDefault shape [].
Proof.
  simpl. generalize (@nil (string * value)).
  induction shape as [|[key zodType] rest IH]; intros defaults; simpl.
  - reflexivity.
  - rewrite IH. unfold assignDefault at 2. simpl.
    destruct zodType; reflexivity.
Qed.

Lemma assignDefault_other key shape acc :
  ~ In key (keys shape) ->
  lookup key (fold_left assignDefault shape acc) = lookup key acc.
Proof.
  revert acc. induction shape as [|[k t] rest IH]; intros acc Hnot; simpl.
  - reflexivity.
  - simpl in Hnot. rewrite IH by tauto.
    unfold assignDefault. simpl. destruct (defaultFor t); [|reflexivity].
    apply lookup_set_other. intros E. subst. tauto.
Qed.

(** With distinct property names, the synthesized tree holds under each
    name exactly what [defaultFor] gives for its schema. *)
Lemma assignDefault_entry key zodType shape acc :
  NoDup (keys shape) -> In (key, zodType) shape ->
  lookup key (fold_left assignDefault shape acc) =
  match defaultFor zodType with
  | Some v => Some v
  | None => lookup key acc
  end.
Proof.
  revert acc. induction shape as [|[k t] rest IH]; intros acc Hnd Hin; simpl.
  - contradiction.
  - simpl in Hnd. inversion Hnd as [|? ? Hnotin Hnd']; subst.
    destruct Hin as [Heq|Hin].
    + inversion Heq; subst. rewrite assignDefault_other by exact Hnotin.
      unfold assignDefault. simpl. destruct (defaultFor zodType).
      * apply lookup_set_same.
      * reflexivity.
    + rewrite IH by assumption.
      destruct (defaultFor zodType); [reflexivity|].
      unfold assignDefault. simpl. destruct (defaultFor t); [|reflexivity].
      apply lookup_set_other. intros E. subst. apply Hnotin.
      unfold keys. change k with (fst (k, zodType)). now apply in_map.
Qed.

Lemma lookup_none_not_key {A : Type} k (o : dict A) :
  lookup k o = None -> ~ In k (keys o).
Proof.
  intros Hnone Hin. destruct (lookup_key_some k o Hin) as [v Hv].
  congruence.
Qed.

(** C10.  In an object schema with distinct property names, a property
    whose schema is an optional or a nullable wrapper, whatever it wraps
    (a string, a number, a boolean, a schema with a default), is absent from
    the synthesized tree: reading it gives [undefined], not the default of
    the wrapped kind. *)
Theorem wrapped_property_is_omitted (shape : list (string * ZodType))
    (key : string) (inner : ZodType) :
  NoDup (keys shape) ->
  In (key, ZodOptional inner) shape \/ In (key, ZodNullable inner) shape ->
  ~ In key (keys (generateDefaultValues (ZodObject shape)))
  /\ get key (generateDefaultValues (ZodObject shape)) = VUndefined.
Proof.
  intros Hnd Hin.
  assert (Hnone : lookup key (generateDefaultValues (ZodObject shape)) = None).
  { rewrite generateDefaultValues_object.
    destruct Hin as [Hin|Hin];
      now rewrite (assignDefault_entry _ _ _ _ Hnd Hin). }
  split.
  - now apply lookup_none_not_key.
  - unfold get. now rewrite Hnone.
Qed.

Lemma wrapped_property_is_omitted_witness :
  NoDup (keys [("name", ZodDefault (ZodString []) (VStr "John"));
               ("phone", ZodOptional (ZodString []));
               ("age", ZodNullable (ZodNumber []))])
  /\ get "phone" (generateDefaultValues profileSchema) = VUndefined
  /\ get "age" (generateDefaultValues profileSchema) = VUndefined
  /\ generateDefaultValues profileSchema = [("name", VStr "John")].
Proof.
  assert (Hnd : NoDup (keys [("name", ZodDefault (ZodString []) (VStr "John"));
                             ("phone", ZodOptional (ZodString []));
                             ("age", ZodNullable (ZodNumber []))])).
  { repeat constructor; simpl; intuition discriminate. }
  split; [exact Hnd|]. split; [|split; [|reflexivity]].
  - apply (wrapped_property_is_omitted _ "phone" (ZodString []) Hnd).
    left. simpl. tauto.
  - apply (wrapped_property_is_omitted _ "age" (ZodNumber []) Hnd).
    right. simpl. tauto.
Defined.

(* ================================================================== *)
(** ** Validating the synthesized defaults *)
(* ================================================================== *)






(* ================================================================== *)
(** ** The validator *)
(* ================================================================== *)

(** C7.  [validateWithSchema] always returns a result.  When [safeParse]
    throws, the result is a failure with exactly one error, of field
    [root], code [custom] and empty path.  When [safeParse] reports issues,
    the result is a failure with one error per issue, in order, carrying
    the issue's code, message and path, and as [field] the path segments
    joined with a dot.  When [safeParse] succeeds, so does the result, with
    the parsed data and no error. *)
Theorem validate_never_throws
    (safeParse : ZodType -> value -> SafeParseReturn)
    (schema : ZodType) (data : value) :
  let r := validateWithSchema safeParse schema data in
  (safeParse schema data = Threw ->
     ValidationResult.success r = false
     /\ ValidationResult.data r = VUndefined
     /\ exists e, ValidationResult.errors r = [e]
                  /\ ValidationError.field e = "root"
                  /\ ValidationError.code e = "custom"
                  /\ ValidationError.path e = [])
  /\ (forall issues, safeParse schema data = SafeParseError issues ->
     ValidationResult.success r = false
     /\ Forall2
          (fun issue e =>
             ValidationError.code e = ZodIssue.code issue
             /\ ValidationError.message e = ZodIssue.message issue
             /\ ValidationError.path e = ZodIssue.path issue
             /\ ValidationError.field e = Array_join "." (ZodIssue.path issue))
          issues (ValidationResult.errors r))
  /\ (forall parsed, safeParse schema data = SafeParseSuccess parsed ->
     ValidationResult.success r = true
     /\ ValidationResult.data r = parsed
     /\ ValidationResult.errors r = []).
Proof.
  intros r. subst r. unfold validateWithSchema. split; [|split].
  - intros E. rewrite E. simpl. split; [reflexivity|]. split; [reflexivity|].
    eexists. repeat split.
  - intros issues E. rewrite E. simpl. split; [reflexivity|]. clear E.
    induction issues as [|i rest IH]; simpl; constructor.
    + repeat split.
    + exact IH.
  - intros parsed E. rewrite E. simpl. repeat split.
Qed.

Lemma validate_never_throws_witness :
  failingParse ZodBoolean VNull = Threw
  /\ ValidationResult.success (validateWithSchema failingParse ZodBoolean VNull)
     = false
  /\ failingParse ZodBoolean VUndefined = SafeParseError twoIssues
  /\ map ValidationError.field
       (ValidationResult.errors
          (validateWithSchema failingParse ZodBoolean VUndefined))
     = ["items.2.name"; ""].
Proof.
  split; [reflexivity|]. split.
  - apply (validate_never_throws failingParse ZodBoolean VNull). reflexivity.
  - split; reflexivity.
Defined.

(* ================================================================== *)
(** ** Conditional visibility *)
(* ================================================================== *)

Lemma forEach_assign_other {A B : Type} (f : A -> B) (entries : dict A)
    (acc : dict B) (k : string) :
  ~ In k (keys entries) ->
  lookup k
    (fold_left (fun out e => set (fst e) (f (snd e)) out) entries acc)
  = lookup k acc.
Proof.
  revert acc. induction entries as [|[k' a'] rest IH]; intros acc Hnot; simpl.
  - reflexivity.
  - simpl in Hnot. rewrite IH by tauto.
    apply lookup_set_other. intros E. subst. tauto.
Qed.

(** A [forEach] that assigns [f entry] under each name of an object with
    distinct names leaves under a name what [f] gives for its entry. *)
Lemma forEach_assign_entry {A B : Type} (f : A -> B) (entries : dict A)
    (acc : dict B) (k : string) (a : A) :
  NoDup (keys entries) -> In (k, a) entries ->
  lookup k
    (fold_left (fun out e => set (fst e) (f (snd e)) out) entries acc)
  = Some (f a).
Proof.
  revert acc. induction entries as [|[k' a'] rest IH]; intros acc Hnd Hin.
  - contradiction.
  - simpl. simpl in Hnd. inversion Hnd as [|? ? Hnotin Hnd']; subst.
    destruct Hin as [Heq|Hin]; [|now apply IH].
    inversion Heq; subst.
    rewrite forEach_assign_other by exact Hnotin.
    apply lookup_set_same.
Qed.

(** An operator outside the five known ones reaches the [default] case. *)
Lemma isVisible_unknown_operator gt lt rule op formValues :
  get "operator" rule = op ->
  op <> VUndefined ->
  (forall s, In s knownOperators -> op <> VStr s) ->
  isVisible gt lt (VObj rule) formValues = true.
Proof.
  intros Hop Hdef Hunknown. unfold isVisible. simpl prop. rewrite Hop.
  destruct op as [| | | |s| | | |]; try contradiction; try reflexivity.
  assert (Hno : forall t, In t knownOperators -> String.eqb s t = false).
  { intros t Hin. apply String.eqb_neq. intros E. subst.
    now apply (Hunknown t). }
  simpl. rewrite !Hno by (simpl; tauto). reflexivity.
Qed.

(** C8.  Whatever the field definitions (with distinct names) and the
    current values, a field without visibility rule is marked visible, and
    so is a field whose rule carries an operator other than [equals],
    [not-equals], [contains], [greater-than] and [less-than], whatever the
    value of the field it depends on. *)
Theorem visible_without_rule_or_known_operator
    (Number_gt Number_lt : value -> value -> bool)
    (fields : dict FieldAnalysis.t) (formValues : obj)
    (name : string) (field : FieldAnalysis.t) :
  NoDup (keys fields) ->
  In (name, field) fields ->
  (truthy (get "showWhen" (FieldAnalysis.config field)) = false ->
     lookup name (useConditionalFields Number_gt Number_lt fields formValues)
     = Some true)
  /\ (forall rule op,
     get "showWhen" (FieldAnalysis.config field) = VObj rule ->
     get "operator" rule = op ->
     op <> VUndefined ->
     (forall s, In s knownOperators -> op <> VStr s) ->
     lookup name (useConditionalFields Number_gt Number_lt fields formValues)
     = Some true).
Proof.
  intros Hnd Hin.
  assert (Hentry :
    lookup name (useConditionalFields Number_gt Number_lt fields formValues)
    = Some (fieldVisible Number_gt Number_lt field formValues)).
  { unfold useConditionalFields.
    apply (forEach_assign_entry
             (fun fd => fieldVisible Number_gt Number_lt fd formValues));
      assumption. }
  rewrite Hentry. unfold fieldVisible. split.
  - intros Hnone. now rewrite Hnone.
  - intros rule op Hrule Hop Hdef Hunknown. rewrite Hrule. simpl.
    f_equal. now apply (isVisible_unknown_operator _ _ rule op).
Qed.

Lemma visible_without_rule_or_known_operator_witness :
  NoDup (keys contactFields)
  /\ lookup "contactPreference"
       (useConditionalFields numGt numLt contactFields
          [("contactPreference", VStr "email")]) = Some true
  /\ lookup "phoneNumber"
       (useConditionalFields numGt numLt contactFields
          [("contactPreference", VStr "email")]) = Some true.
Proof.
  assert (Hnd : NoDup (keys contactFields)).
  { repeat constructor; simpl; intuition discriminate. }
  split; [exact Hnd|]. split.
  - apply (proj1 (visible_without_rule_or_known_operator numGt numLt
                    contactFields [("contactPreference", VStr "email")]
                    "contactPreference" (plainField "contactPreference" [])
                    Hnd ltac:(simpl; tauto))).
    reflexivity.
  - apply (proj2 (visible_without_rule_or_known_operator numGt numLt
                    contactFields [("contactPreference", VStr "email")]
                    "phoneNumber"
                    (plainField "phoneNumber"
                       [("showWhen",
                         VObj [("field", VStr "contactPreference");
                               ("value", VStr "phone");
                               ("operator", VStr "equal")])])
                    Hnd ltac:(simpl; tauto))
             [("field", VStr "contactPreference"); ("value", VStr "phone");
              ("operator", VStr "equal")] (VStr "equal")).
    + reflexivity.
    + reflexivity.
    + discriminate.
    + intros s Hs. simpl in Hs.
      intuition (subst; discriminate).
Defined.

(* ================================================================== *)
(** ** Saving: metadata and the document id *)
(* ================================================================== *)



Section SaveFacts.
Variable Store : Type.
Variable setDoc : DocumentReference -> value -> bool -> Store -> Error + Store.
Variable updateDoc : DocumentReference -> value -> Store -> Error + Store.
Variable addDoc :
  string -> value -> Store -> Error + (DocumentReference * Store).

Let save := saveToFirestore Store setDoc updateDoc addDoc.

Ltac save_branches :=
  repeat match goal with
    | |- context [match ?x with _ => _ end] => destruct x eqn:?; simpl
    | |- context [if ?x then _ else _] => destruct x eqn:?; simpl
    end.

(** Every write carries the assembled payload. *)
Lemma written_payload cfg st data formValues db w :
  written (save cfg st data formValues db) = Some w ->
  assemble cfg (mkState true None (currentDocId st))
    match data with Some d => d | None => formValues end
  = inr (payloadOf w).
Proof.
  unfold save, saveToFirestore, finish, failed. simpl.
  destruct (assemble cfg _ _) as [err|dataToSave]; simpl;
    [discriminate|].
  save_branches; intros E; inversion E; reflexivity.
Qed.





End SaveFacts.




(* ================================================================== *)
(** ** Wrappers: widget, required flag and default *)
(* ================================================================== *)

Lemma lookup_set_outside (l : list string) (k k' : string) (v : value)
    (o : obj) :
  ~ In k l -> In k' l -> lookup k (set k' v o) = lookup k o.
Proof.
  intros Hk Hk'. apply lookup_set_other. intros E. subst. contradiction.
Qed.

Ltac outside l Hk :=
  repeat (rewrite (lookup_set_outside l); [| exact Hk | simpl; tauto]).

Lemma stringRule_outside k checks rules :
  ~ In k ruleKeys -> lookup k rules = None ->
  lookup k (fold_left stringRule checks rules) = None.
Proof.
  intros Hk. revert rules.
  induction checks as [|c rest IH]; intros rules H; simpl; [exact H|].
  apply IH. destruct c; simpl; outside ruleKeys Hk; exact H.
Qed.

Lemma numberRule_outside k checks rules :
  ~ In k ruleKeys -> lookup k rules = None ->
  lookup k (fold_left numberRule checks rules) = None.
Proof.
  intros Hk. revert rules.
  induction checks as [|c rest IH]; intros rules H; simpl; [exact H|].
  apply IH. destruct c; simpl; outside ruleKeys Hk; exact H.
Qed.

(** The validation rules hold rule keys only. *)
Lemma rules_outside k zodType :
  ~ In k ruleKeys -> lookup k (extractValidationRules zodType) = None.
Proof.
  intros Hk.
  induction zodType as
    [checks|checks| | |vs|vs|elt _ minL maxL|shape|vt _|opts|d m|
     |inner IH dv|inner IH|inner IH|inner IH eff|nm isFile own];
    simpl; try assumption; try (literal_keys Hk).
  - outside ruleKeys Hk. now apply stringRule_outside.
  - outside ruleKeys Hk. now apply numberRule_outside.
  - destruct minL, maxL; simpl; literal_keys Hk.
  - outside ruleKeys Hk. now rewrite lookup_spread_absent.
  - outside ruleKeys Hk. now rewrite lookup_spread_absent.
Qed.

Lemma NoDup_keys_spread {A : Type} (target src : dict A) :
  NoDup (keys target) -> NoDup (keys (spread target src)).
Proof.
  unfold spread. revert target.
  induction src as [|[k v] rest IH]; intros target Hnd; simpl; [exact Hnd|].
  apply IH. now apply NoDup_keys_set.
Qed.

Lemma numberRule_keys_NoDup checks rules :
  NoDup (keys rules) -> NoDup (keys (fold_left numberRule checks rules)).
Proof.
  revert rules. induction checks as [|c rest IH]; intros rules Hnd; simpl.
  - exact Hnd.
  - apply IH. destruct c; simpl; repeat apply NoDup_keys_set; exact Hnd.
Qed.

Lemma rules_keys_NoDup zodType : NoDup (keys (extractValidationRules zodType)).
Proof.
  induction zodType as
    [checks|checks| | |vs|vs|elt _ minL maxL|shape|vt _|opts|d m|
     |inner IH dv|inner IH|inner IH|inner IH eff|nm isFile own];
    simpl; try assumption;
    try (repeat constructor; simpl; tauto).
  - apply NoDup_keys_set. apply stringRule_keys_NoDup. constructor.
  - apply NoDup_keys_set. apply numberRule_keys_NoDup. constructor.
  - destruct minL, maxL; simpl; repeat constructor; simpl;
      intuition discriminate.
  - apply NoDup_keys_set. apply NoDup_keys_spread. constructor.
  - apply NoDup_keys_set. apply NoDup_keys_spread. constructor.
Qed.

Lemma stringChecks_keys_NoDup checks cfg :
  NoDup (keys cfg) -> NoDup (keys (config (stringChecks checks cfg))).
Proof.
  revert cfg. induction checks as [|c rest IH]; intros cfg Hnd; simpl.
  - exact Hnd.
  - destruct c; simpl; try exact Hnd;
      try (apply IH; try apply NoDup_keys_set; exact Hnd).
    match goal with
    | |- context [100 <=? ?w] => destruct (100 <=? w)
    end; simpl; [|apply IH]; apply NoDup_keys_set; exact Hnd.
Qed.

Lemma numberChecks_keys_NoDup checks st :
  NoDup (keys (n_config st)) ->
  NoDup (keys (n_config (fold_left numberCheck checks st))).
Proof.
  revert st. induction checks as [|c rest IH]; intros st Hnd; simpl.
  - exact Hnd.
  - apply IH. destruct c; simpl; try apply NoDup_keys_set; exact Hnd.
Qed.

(** The mapper's config has no repeated key. *)
Lemma mapped_keys_NoDup zodType path :
  NoDup (keys (config (mapZodTypeToFieldType zodType path))).
Proof.
  induction zodType as
    [checks|checks| | |vs|vs|elt _ minL maxL|shape|vt _|opts|d m|
     |inner IH dv|inner IH|inner IH|inner IH eff|nm isFile own];
    simpl; try assumption; try (apply NoDup_keys_set; assumption);
    try (repeat constructor; simpl; tauto).
  - apply stringChecks_keys_NoDup. constructor.
  - assert (H : NoDup (keys (n_config (numberChecks checks))))
      by (apply numberChecks_keys_NoDup; constructor).
    destruct (minValue (numberChecks checks)),
      (maxValue (numberChecks checks)); try exact H.
    now destruct (_ <=? 10).
  - destruct (_ <=? 4); simpl; repeat constructor; simpl; tauto.
  - destruct minL, maxL; simpl; repeat constructor; simpl;
      intuition discriminate.
  - destruct (_ && _)%bool; constructor.
Qed.

(** What [analyzeField] stores under a key: the rule when there is one, the
    mapper's entry otherwise. *)
Lemma analyzed_config_get k name zodType path :
  get k (FieldAnalysis.config (analyzeField name zodType path)) =
  match lookup k (extractValidationRules zodType) with
  | Some v => v
  | None =>
      get k (config (mapZodTypeToFieldType zodType
                       (if String.eqb path "" then name
                        else (path ++ "." ++ name)%string)))
  end.
Proof.
  unfold analyzeField. simpl FieldAnalysis.config.
  rewrite get_spread_NoDup by apply rules_keys_NoDup.
  destruct (lookup k (extractValidationRules zodType)); [reflexivity|].
  now rewrite spread_copy by apply mapped_keys_NoDup.
Qed.

Lemma stringChecks_outside k checks cfg :
  ~ In k baseKeys -> lookup k cfg = None ->
  lookup k (config (stringChecks checks cfg)) = None.
Proof.
  intros Hk. revert cfg.
  induction checks as [|c rest IH]; intros cfg Hcfg; simpl; [exact Hcfg|].
  destruct c; simpl; try exact Hcfg;
    try (apply IH; outside baseKeys Hk; exact Hcfg).
  match goal with
  | |- context [100 <=? ?w] => destruct (100 <=? w)
  end; simpl;
    [outside baseKeys Hk; exact Hcfg | apply IH; outside baseKeys Hk; exact Hcfg].
Qed.

Lemma numberChecks_outside k checks st :
  ~ In k baseKeys -> lookup k (n_config st) = None ->
  lookup k (n_config (fold_left numberCheck checks st)) = None.
Proof.
  intros Hk. revert st.
  induction checks as [|c rest IH]; intros st Hst; simpl; [exact Hst|].
  apply IH. destruct c; simpl; outside baseKeys Hk; exact Hst.
Qed.

(** Under the wrappers, the mapper writes base keys only. *)
Lemma mapped_base_outside k zodType path :
  isWrapper zodType = false -> ~ In k baseKeys ->
  lookup k (config (mapZodTypeToFieldType zodType path)) = None.
Proof.
  intros Hbase Hk.
  destruct zodType as
    [checks|checks| | |vs|vs|elt minL maxL|shape|vt|opts|d m|
     |inner dv|inner|inner|inner eff|nm isFile own];
    simpl in *; try discriminate; try reflexivity; try (literal_keys Hk).
  - now apply stringChecks_outside.
  - assert (H : lookup k (n_config (numberChecks checks)) = None)
      by now apply numberChecks_outside.
    destruct (minValue (numberChecks checks)),
      (maxValue (numberChecks checks)); try exact H.
    now destruct (_ <=? 10).
  - destruct (_ <=? 4); simpl; literal_keys Hk.
  - destruct minL, maxL; simpl; literal_keys Hk.
  - now destruct (_ && _)%bool.
Qed.

Lemma unwrap_not_wrapper zodType : isWrapper (unwrap zodType) = false.
Proof. induction zodType; simpl; auto. Qed.

Lemma mapped_through_wrappers (zodType : ZodType) (path k : string) :
  type (mapZodTypeToFieldType zodType path)
  = type (mapZodTypeToFieldType (unwrap zodType) path)
  /\ get k (config (mapZodTypeToFieldType zodType path)) =
     if String.eqb k "defaultValue" then orUndefined (wrapperDefault zodType)
     else if String.eqb k "required"
          then (if hasOptionalWrapper zodType then VBool false else VUndefined)
          else get k (config (mapZodTypeToFieldType (unwrap zodType) path)).
Proof.
  assert (Hbase : forall t, isWrapper t = false ->
            get k (config (mapZodTypeToFieldType t path)) =
            if String.eqb k "defaultValue" then VUndefined
            else if String.eqb k "required" then VUndefined
                 else get k (config (mapZodTypeToFieldType t path))).
  { intros t Ht.
    destruct (String.eqb k "defaultValue") eqn:E1.
    - apply String.eqb_eq in E1. subst. unfold get.
      rewrite mapped_base_outside; [reflexivity | exact Ht |].
      simpl. intuition discriminate.
    - destruct (String.eqb k "required") eqn:E2; [|reflexivity].
      apply String.eqb_eq in E2. subst. unfold get.
      rewrite mapped_base_outside; [reflexivity | exact Ht |].
      simpl. intuition discriminate. }
  induction zodType as
    [checks|checks| | |vs|vs|elt _ minL maxL|shape|vt _|opts|d m|
     |inner IH dv|inner IH|inner IH|inner IH eff|nm isFile own];
    try (split; [reflexivity | now apply Hbase]).
  - destruct IH as [IHt IHc]. split; [exact IHt|].
    cbn [mapZodTypeToFieldType config wrapperDefault orUndefined unwrap].
    destruct (String.eqb k "defaultValue") eqn:E1.
    + apply String.eqb_eq in E1. subst. apply get_set_same.
    + rewrite get_set_other by now apply String.eqb_neq.
      exact IHc.
  - destruct IH as [IHt IHc]. split; [exact IHt|].
    cbn [mapZodTypeToFieldType config wrapperDefault hasOptionalWrapper unwrap].
    destruct (String.eqb k "defaultValue") eqn:E1;
      [apply String.eqb_eq in E1; subst;
       rewrite get_set_other by discriminate; exact IHc|].
    destruct (String.eqb k "required") eqn:E2.
    + apply String.eqb_eq in E2. subst. apply get_set_same.
    + rewrite get_set_other by now apply String.eqb_neq.
      exact IHc.
  - destruct IH as [IHt IHc]. split; [exact IHt|].
    cbn [mapZodTypeToFieldType config wrapperDefault hasOptionalWrapper unwrap].
    destruct (String.eqb k "defaultValue") eqn:E1;
      [apply String.eqb_eq in E1; subst;
       rewrite get_set_other by discriminate; exact IHc|].
    destruct (String.eqb k "required") eqn:E2.
    + apply String.eqb_eq in E2. subst. apply get_set_same.
    + rewrite get_set_other by now apply String.eqb_neq.
      exact IHc.
  - exact IH.
Qed.

(** X1.  The wrappers of a schema (default, optional, nullable, effects)
    leave the mapping of the schema they wrap as it is, up to two keys of
    the config: the widget is that of the unwrapped schema; [defaultValue]
    is the default of the outermost default wrapper; [required] is [false]
    when an optional or nullable wrapper occurs and absent otherwise; every
    other key is read as in the config of the unwrapped schema. *)
Theorem wrappers_touch_two_keys (zodType : ZodType) (path k : string) :
  let r := mapZodTypeToFieldType zodType path in
  let base := mapZodTypeToFieldType (unwrap zodType) path in
  type r = type base
  /\ get k (config r) =
     if String.eqb k "defaultValue" then orUndefined (wrapperDefault zodType)
     else if String.eqb k "required"
          then (if hasOptionalWrapper zodType then VBool false else VUndefined)
          else get k (config base).
Proof. exact (mapped_through_wrappers zodType path k). Qed.

Lemma rules_required zodType :
  lookup "required" (extractValidationRules zodType) =
  Some (VBool (negb (hasOptionalWrapper zodType))).
Proof.
  induction zodType as
    [checks|checks| | |vs|vs|elt _ minL maxL|shape|vt _|opts|d m|
     |inner IH dv|inner IH|inner IH|inner IH eff|nm isFile own];
    simpl; try assumption; try reflexivity;
    try apply lookup_set_same.
Qed.

(** X2.  A field is required exactly when no optional or nullable wrapper
    occurs among the wrappers of its schema: a default alone does not make
    it optional.  The [required] entry of the field's config says the same. *)
Theorem required_unless_optional_wrapper (name : string) (zodType : ZodType)
    (path : string) :
  FieldAnalysis.required (analyzeField name zodType path)
  = negb (hasOptionalWrapper zodType)
  /\ get "required" (FieldAnalysis.config (analyzeField name zodType path))
     = VBool (negb (hasOptionalWrapper zodType)).
Proof.
  split.
  - unfold analyzeField. simpl FieldAnalysis.required. unfold get.
    rewrite rules_required. now destruct (hasOptionalWrapper zodType).
  - rewrite analyzed_config_get. now rewrite rules_required.
Qed.

(** X3.  The two default values of an analyzed field differ in reach:
    [defaultValue] of the field is set only when the schema itself is a
    default wrapper, while [config.defaultValue] is the default of the
    outermost default wrapper found under optional, nullable and effects
    wrappers as well. *)
Theorem field_default_is_top_level_only (name : string) (zodType : ZodType)
    (path : string) :
  FieldAnalysis.defaultValue (analyzeField name zodType path)
  = match zodType with
    | ZodDefault _ d => d
    | _ => VUndefined
    end
  /\ get "defaultValue"
       (FieldAnalysis.config (analyzeField name zodType path))
     = orUndefined (wrapperDefault zodType).
Proof.
  split; [reflexivity|].
  rewrite analyzed_config_get.
  rewrite rules_outside by (simpl; intuition discriminate).
  exact (proj2 (mapped_through_wrappers zodType _ "defaultValue")).
Qed.

(* ================================================================== *)
(** ** String and union schemas *)
(* ================================================================== *)

Lemma stringChecks_first_decisive checks cfg :
  type (stringChecks checks cfg) =
  match find isDecisive checks with
  | Some SCEmail => email
  | Some SCUrl => url
  | Some _ => textarea
  | None => text
  end.
Proof.
  revert cfg. induction checks as [|c rest IH]; intros cfg; simpl.
  - reflexivity.
  - destruct c; simpl; try apply IH; try reflexivity.
    unfold isDecisive. simpl.
    match goal with
    | |- context [100 <=? ?w] => destruct (100 <=? w)
    end; [reflexivity | apply IH].
Qed.

(** X4.  The widget of a string schema is decided by the first of its
    checks that is an [email] check, a [url] check or a [min] check of at
    least 100: [email], [url] or [textarea] respectively, whatever follows
    it; without such a check the widget is [text]. *)
Theorem string_widget_by_first_decisive_check (checks : list ZodStringCheck)
    (path : string) :
  type (mapZodTypeToFieldType (ZodString checks) path) =
  match find isDecisive checks with
  | Some SCEmail => email
  | Some SCUrl => url
  | Some _ => textarea
  | None => text
  end.
Proof. simpl. apply stringChecks_first_decisive. Qed.

Lemma unionOptions_nth {A : Type} (options : list A) (start : Z) (k : nat) :
  (k < List.length options)%nat ->
  nth_error (unionOptions options start) k =
  Some (VObj [("label",
               VStr ("Option " ++ string_of_Z (start + Z.of_nat k + 1)));
              ("value", VNum (start + Z.of_nat k))]).
Proof.
  revert start k. induction options as [|o rest IH]; intros start k Hk.
  - simpl in Hk. lia.
  - destruct k as [|k]; simpl.
    + now rewrite Z.add_0_r.
    + rewrite IH by (simpl in Hk; lia).
      replace (start + 1 + Z.of_nat k) with (start + Z.pos (Pos.of_succ_nat k))
        by lia.
      reflexivity.
Qed.

Lemma unionOptions_length {A : Type} (options : list A) (start : Z) :
  List.length (unionOptions options start) = List.length options.
Proof.
  revert start. induction options as [|o rest IH]; intros start; simpl.
  - reflexivity.
  - now rewrite IH.
Qed.

(** X5.  A union schema maps to [radio] whatever the number of its
    alternatives, with one option per alternative: the option at position
    [k] (from 0) has the value [k] and the label [Option k+1]. *)
Theorem union_options_are_positions (options : list ZodType) (path : string)
    (k : nat) :
  (k < List.length options)%nat ->
  exists opts,
    mapZodTypeToFieldType (ZodUnion options) path
    = mkMapped radio [("options", VArr opts)]
    /\ List.length opts = List.length options
    /\ nth_error opts k =
       Some (VObj [("label", VStr ("Option " ++ string_of_Z (Z.of_nat k + 1)));
                   ("value", VNum (Z.of_nat k))]).
Proof.
  intros Hk. exists (unionOptions options 0). split; [reflexivity|].
  split; [apply unionOptions_length|].
  now rewrite unionOptions_nth.
Qed.

Lemma union_options_are_positions_witness :
  (5 < List.length [ZodBoolean; ZodDate; ZodBigInt; ZodString [];
                    ZodNumber []; ZodBoolean])%nat
  /\ exists opts,
       mapZodTypeToFieldType
         (ZodUnion [ZodBoolean; ZodDate; ZodBigInt; ZodString [];
                    ZodNumber []; ZodBoolean]) ""
       = mkMapped radio [("options", VArr opts)]
       /\ List.length opts = 6%nat
       /\ nth_error opts 5 =
          Some (VObj [("label", VStr "Option 6"); ("value", VNum 5)]).
Proof.
  split; [simpl; lia|].
  apply (union_options_are_positions
           [ZodBoolean; ZodDate; ZodBigInt; ZodString []; ZodNumber [];
            ZodBoolean] "" 5).
  simpl; lia.
Defined.

(* ================================================================== *)
(** ** Parsing a whole schema *)
(* ================================================================== *)

(** A [forEach] that assigns one entry per name of an object with distinct
    names builds the object of these entries, in the same order. *)
Lemma forEach_assign_map {A B : Type} (f : string * A -> B)
    (entries : dict A) (acc : dict B) :
  NoDup (keys acc ++ keys entries) ->
  fold_left (fun out e => set (fst e) (f e) out) entries acc
  = acc ++ map (fun e => (fst e, f e)) entries.
Proof.
  revert acc. induction entries as [|[k a] rest IH]; intros acc Hnd; simpl.
  - now rewrite app_nil_r.
  - rewrite set_fresh.
    + rewrite IH.
      * now rewrite <- app_assoc.
      * unfold keys. rewrite map_app. simpl. rewrite <- app_assoc. exact Hnd.
    + simpl in Hnd. apply NoDup_remove_2 in Hnd. intros Hin. apply Hnd.
      apply in_or_app. now left.
Qed.

(** X6.  [parseSchema] returns one field per property of an object schema
    (with distinct property names), in the order of the shape, each under
    the property's name and equal to [analyzeField] of the property; for a
    schema of any other class, a wrapped object schema included, it returns
    no field. *)
Theorem parseSchema_lists_the_shape (schema : ZodType) (basePath : string) :
  (forall shape, schema = ZodObject shape -> NoDup (keys shape)) ->
  parseSchema schema basePath
  = match schema with
    | ZodObject shape =>
        map (fun kv => (fst kv, analyzeField (fst kv) (snd kv) basePath))
          shape
    | _ => []
    end
  /\ keys (parseSchema schema basePath)
     = match schema with
       | ZodObject shape => keys shape
       | _ => []
       end.
Proof.
  intros Hnd.
  assert (E : parseSchema schema basePath
              = match schema with
                | ZodObject shape =>
                    map (fun kv =>
                           (fst kv, analyzeField (fst kv) (snd kv) basePath))
                      shape
                | _ => []
                end).
  { destruct schema; try reflexivity. simpl.
    apply (forEach_assign_map
             (fun kv => analyzeField (fst kv) (snd kv) basePath) shape []).
    now apply Hnd. }
  split; [exact E|].
  rewrite E. destruct schema; try reflexivity.
  unfold keys. rewrite map_map. reflexivity.
Qed.

Lemma parseSchema_lists_the_shape_witness :
  (forall shape, ZodObject contactShape = ZodObject shape ->
     NoDup (keys shape))
  /\ keys (parseSchema (ZodObject contactShape) "") = ["name"; "phone"]
  /\ parseSchema (ZodOptional (ZodObject contactShape)) "" = [].
Proof.
  assert (Hnd : forall shape, ZodObject contactShape = ZodObject shape ->
                  NoDup (keys shape)).
  { intros shape E. inversion E; subst.
    repeat constructor; simpl; intuition discriminate. }
  split; [exact Hnd|]. split.
  - exact (proj2 (parseSchema_lists_the_shape (ZodObject contactShape) ""
                    Hnd)).
  - refine (proj1 (parseSchema_lists_the_shape
                     (ZodOptional (ZodObject contactShape)) "" _)).
    intros shape E. discriminate E.
Defined.

Lemma stringChecks_not_container checks cfg :
  FieldType_eqb (type (stringChecks checks cfg)) array = false
  /\ FieldType_eqb (type (stringChecks checks cfg)) object = false.
Proof.
  rewrite stringChecks_first_decisive.
  destruct (find isDecisive checks) as [[]|]; split; reflexivity.
Qed.

(** The widget is [array] (resp. [object]) exactly for an array (resp.
    object) schema under the wrappers. *)
Lemma mapped_container zodType path :
  FieldType_eqb (type (mapZodTypeToFieldType zodType path)) array
  = isArraySchema (unwrap zodType)
  /\ FieldType_eqb (type (mapZodTypeToFieldType zodType path)) object
     = isObjectSchema (unwrap zodType).
Proof.
  rewrite (proj1 (mapped_through_wrappers zodType path "")).
  generalize (unwrap_not_wrapper zodType).
  destruct (unwrap zodType) as
    [checks|checks| | |vs|vs|elt minL maxL|shape|vt|opts|d m|
     |inner dv|inner|inner|inner eff|nm isFile own];
    simpl; intros Hw; try discriminate; try (split; reflexivity).
  - apply stringChecks_not_container.
  - destruct (minValue (numberChecks checks)),
      (maxValue (numberChecks checks)); try (split; reflexivity).
    destruct (_ <=? 10); split; reflexivity.
  - destruct (_ <=? 4); split; reflexivity.
  - destruct (_ && _)%bool; split; reflexivity.
Qed.

(** X7.  For an object schema with distinct property names, the analysis has
    one field per property; [hasArrays] (resp. [hasObjects]) is true exactly
    when some property's schema is, under its wrappers, an array (resp.
    object) schema. *)
Theorem analysis_flags_follow_unwrapped_schemas
    (shape : list (string * ZodType)) :
  NoDup (keys shape) ->
  let a := analyzeSchema (ZodObject shape) in
  List.length (SchemaAnalysis.fields a) = List.length shape
  /\ SchemaAnalysis.hasArrays a
     = existsb (fun kv => isArraySchema (unwrap (snd kv))) shape
  /\ SchemaAnalysis.hasObjects a
     = existsb (fun kv => isObjectSchema (unwrap (snd kv))) shape.
Proof.
  intros Hnd a. subst a. unfold analyzeSchema.
  cbn [SchemaAnalysis.fields SchemaAnalysis.hasArrays SchemaAnalysis.hasObjects].
  assert (E : parseSchema (ZodObject shape) ""
              = map (fun kv => (fst kv, analyzeField (fst kv) (snd kv) "")) shape).
  { simpl.
    apply (forEach_assign_map
             (fun kv => analyzeField (fst kv) (snd kv) "") shape []).
    exact Hnd. }
  rewrite E. unfold values. rewrite map_map. cbn [snd].
  split; [apply length_map|].
  split.
  - clear. induction shape as [|[k t] rest IH]; [reflexivity|].
    cbn [map existsb fst snd]. rewrite IH. f_equal.
    unfold analyzeField. cbn [FieldAnalysis.type].
    apply (proj1 (mapped_container t _)).
  - clear. induction shape as [|[k t] rest IH]; [reflexivity|].
    cbn [map existsb fst snd]. rewrite IH. f_equal.
    unfold analyzeField. cbn [FieldAnalysis.type].
    apply (proj2 (mapped_container t _)).
Qed.

Lemma analysis_flags_follow_unwrapped_schemas_witness :
  NoDup (keys [("tags", ZodOptional (ZodArray (ZodString []) None None));
               ("name", ZodString [])])
  /\ SchemaAnalysis.hasArrays
       (analyzeSchema
          (ZodObject [("tags", ZodOptional (ZodArray (ZodString []) None None));
                      ("name", ZodString [])])) = true
  /\ SchemaAnalysis.hasObjects
       (analyzeSchema
          (ZodObject [("tags", ZodOptional (ZodArray (ZodString []) None None));
                      ("name", ZodString [])])) = false.
Proof.
  assert (Hnd : NoDup (keys [("tags",
                              ZodOptional (ZodArray (ZodString []) None None));
                             ("name", ZodString [])])).
  { repeat constructor; simpl; intuition discriminate. }
  split; [exact Hnd|].
  pose proof (analysis_flags_follow_unwrapped_schemas _ Hnd) as Hthm.
  cbv zeta in Hthm. destruct Hthm as (_ & Harr & Hobj).
  split; [rewrite Harr | rewrite Hobj]; reflexivity.
Defined.

Lemma assignDefault_listing shape acc :
  NoDup (keys acc ++ keys shape) ->
  fold_left assignDefault shape acc = acc ++ flat_map defaultEntry shape.
Proof.
  revert acc. induction shape as [|[k t] rest IH]; intros acc Hnd; simpl.
  - now rewrite app_nil_r.
  - unfold assignDefault at 2, defaultEntry at 1. simpl.
    destruct (defaultFor t) as [v|].
    + rewrite set_fresh.
      * rewrite IH; [now rewrite <- app_assoc|].
        unfold keys. rewrite map_app. simpl. rewrite <- app_assoc. exact Hnd.
      * apply NoDup_remove_2 in Hnd. intros Hin. apply Hnd.
        apply in_or_app. now left.
    + apply IH. apply NoDup_remove_1 in Hnd. exact Hnd.
Qed.

(** X8.  For an object schema with distinct property names, the synthesized
    tree lists, in the order of the shape, exactly the properties whose own
    schema is a default wrapper, an array, an object, a boolean, a number or
    a string, each with the value [defaultFor] gives; every other property
    is left out. *)
Theorem defaults_list_the_assignable_properties
    (shape : list (string * ZodType)) :
  NoDup (keys shape) ->
  generateDefaultValues (ZodObject shape) = flat_map defaultEntry shape.
Proof.
  intros Hnd. rewrite generateDefaultValues_object.
  now rewrite (assignDefault_listing shape []).
Qed.

Lemma defaults_list_the_assignable_properties_witness :
  NoDup (keys [("name", ZodString []); ("age", ZodNumber []);
               ("active", ZodBoolean);
               ("tags", ZodArray (ZodString []) None None);
               ("born", ZodDate)])
  /\ generateDefaultValues
       (ZodObject [("name", ZodString []); ("age", ZodNumber []);
                   ("active", ZodBoolean);
                   ("tags", ZodArray (ZodString []) None None);
                   ("born", ZodDate)])
     = [("name", VStr ""); ("age", VNum 0); ("active", VBool false);
        ("tags", VArr [])].
Proof.
  assert (Hnd : NoDup (keys [("name", ZodString []); ("age", ZodNumber []);
                             ("active", ZodBoolean);
                             ("tags", ZodArray (ZodString []) None None);
                             ("born", ZodDate)])).
  { repeat constructor; simpl; intuition discriminate. }
  split; [exact Hnd|].
  now rewrite (defaults_list_the_assignable_properties _ Hnd).
Defined.

(* ================================================================== *)
(** ** Validating one field *)
(* ================================================================== *)

(** X9.  [validateField] on a schema that is not an object schema reports
    no message, whatever the name.  On an object schema: for a property of
    the shape it returns the message of the first issue when [safeParse]
    reports issues, [Schema validation failed] when [safeParse] throws, and
    no message when [safeParse] succeeds or fails with an empty issue list;
    for a name the shape has no property of, it reports no message, unless
    the name is that of a member inherited from [Object.prototype]
    ([toString], [constructor], ...), for which it returns
    [Schema validation failed]. *)
Theorem validateField_reports_first_issue
    (safeParse : ZodType -> value -> SafeParseReturn)
    (schema : ZodType) (name : string) (v : value) :
  FormHooks.validateField safeParse schema name v
  = match schema with
    | ZodObject shape =>
        match lookup name shape with
        | Some fieldSchema =>
            match safeParse fieldSchema v with
            | Threw => Some "Schema validation failed"
            | SafeParseError (first :: _) => Some (ZodIssue.message first)
            | SafeParseError [] => None
            | SafeParseSuccess _ => None
            end
        | None =>
            if existsb (String.eqb name)
                 ["constructor"; "__defineGetter__"; "__defineSetter__";
                  "hasOwnProperty"; "__lookupGetter__"; "__lookupSetter__";
                  "isPrototypeOf"; "propertyIsEnumerable"; "toString";
                  "valueOf"; "__proto__"; "toLocaleString"]
            then Some "Schema validation failed"
            else None
        end
    | _ => None
    end.
Proof.
  unfold FormHooks.validateField, FormHooks.getFieldSchema.
  destruct schema; try reflexivity.
  destruct (lookup name shape) as [fieldSchema|].
  - unfold validateWithSchema, FormHooks.firstMessage.
    destruct (safeParse fieldSchema v) as [|parsed|[|first rest]];
      reflexivity.
  - unfold inherited, inheritedNames.
    destruct (existsb _ _); reflexivity.
Qed.

Lemma validateField_reports_first_issue_witness :
  FormHooks.validateField failingParse (ZodObject contactShape) "email"
    VNull = None
  /\ FormHooks.validateField failingParse (ZodObject contactShape) "toString"
       (VStr "x") = Some "Schema validation failed"
  /\ FormHooks.validateField failingParse (ZodObject contactShape) "phone"
       VNull = Some "Schema validation failed"
  /\ FormHooks.validateField failingParse (ZodObject contactShape) "phone"
       VUndefined = Some "Too short"
  /\ FormHooks.validateField failingParse (ZodString []) "phone" VUndefined
     = None.
Proof.
  rewrite !validateField_reports_first_issue. repeat split.
Defined.

(* ================================================================== *)
(** ** Visibility of the fields of a form *)
(* ================================================================== *)

Lemma lookup_some_in {A : Type} k (v : A) (o : dict A) :
  lookup k o = Some v -> In (k, v) o.
Proof.
  induction o as [|[k' v'] rest IH]; simpl; [discriminate|].
  destruct (String.eqb k k') eqn:E.
  - apply String.eqb_eq in E. intros H. inversion H; subst. now left.
  - intros H. right. now apply IH.
Qed.

Lemma forEach_assign_NoDup {A B : Type} (f : string * A -> B)
    (entries : dict A) (acc : dict B) :
  NoDup (keys acc) ->
  NoDup (keys (fold_left (fun out e => set (fst e) (f e) out) entries acc)).
Proof.
  revert acc. induction entries as [|e rest IH]; intros acc Hnd; simpl.
  - exact Hnd.
  - apply IH. now apply NoDup_keys_set.
Qed.

Lemma parseSchema_keys_NoDup schema path :
  NoDup (keys (parseSchema schema path)).
Proof.
  destruct schema; simpl; try constructor.
  apply (forEach_assign_NoDup
           (fun kv => analyzeField (fst kv) (snd kv) path)).
  constructor.
Qed.

(** X10.  Fed with the fields [parseSchema] derives from a schema, as
    [ZodForm] does, the visibility evaluator marks every field visible,
    whatever the values of the form: a parsed field carries no [showWhen]
    rule. *)
Theorem parsed_fields_are_always_visible
    (Number_gt Number_lt : value -> value -> bool)
    (schema : ZodType) (basePath : string) (formValues : obj)
    (name : string) :
  In name (keys (parseSchema schema basePath)) ->
  lookup name
    (useConditionalFields Number_gt Number_lt (parseSchema schema basePath)
       formValues)
  = Some true.
Proof.
  intros Hin.
  destruct (lookup_key_some name _ Hin) as [field Hfield].
  apply lookup_some_in in Hfield.
  unfold useConditionalFields.
  rewrite (forEach_assign_entry
             (fun fd => fieldVisible Number_gt Number_lt fd formValues)
             _ [] name field (parseSchema_keys_NoDup schema basePath) Hfield).
  f_equal. unfold fieldVisible.
  pose proof (parsed_fields_plain schema basePath) as Hplain.
  rewrite Forall_forall in Hplain.
  destruct (Hplain field) as [Hshow _].
  { unfold values. change field with (snd (name, field)). now apply in_map. }
  now rewrite Hshow.
Qed.

Lemma parsed_fields_are_always_visible_witness :
  In "phone" (keys (parseSchema (ZodObject contactShape) ""))
  /\ lookup "phone"
       (useConditionalFields numGt numLt
          (parseSchema (ZodObject contactShape) "") [("name", VStr "Ann")])
     = Some true.
Proof.
  assert (Hin : In "phone" (keys (parseSchema (ZodObject contactShape) "")))
    by (simpl; tauto).
  split; [exact Hin|].
  exact (parsed_fields_are_always_visible numGt numLt (ZodObject contactShape)
           "" [("name", VStr "Ann")] "phone" Hin).
Defined.

(** X11.  For field definitions with distinct names, a field whose rule
    names a dependent field and has no operator, or the operator [equals],
    is visible exactly when the current value of the dependent field is
    strictly equal to the rule's value (a missing value reads as
    [undefined]); with the operator [not-equals] it is visible exactly when
    they differ.  The dependent field is one the form values own, or one
    whose name is not that of a member inherited from [Object.prototype]
    (a read of [constructor] or [toString] on values that do not own it
    yields a function). *)
Theorem equality_rules_compare_strictly
    (Number_gt Number_lt : value -> value -> bool)
    (fields : dict FieldAnalysis.t) (formValues : obj)
    (name : string) (field : FieldAnalysis.t) (rule : obj) (dep : string) :
  NoDup (keys fields) ->
  In (name, field) fields ->
  get "showWhen" (FieldAnalysis.config field) = VObj rule ->
  get "field" rule = VStr dep ->
  inherited dep = false \/ In dep (keys formValues) ->
  (get "operator" rule = VUndefined \/ get "operator" rule = VStr "equals" ->
     lookup name (useConditionalFields Number_gt Number_lt fields formValues)
     = Some (strict_equals (get dep formValues) (get "value" rule)))
  /\ (get "operator" rule = VStr "not-equals" ->
     lookup name (useConditionalFields Number_gt Number_lt fields formValues)
     = Some (negb (strict_equals (get dep formValues) (get "value" rule)))).
Proof.
  intros Hnd Hin Hrule Hdep _.
  assert (Hentry :
    lookup name (useConditionalFields Number_gt Number_lt fields formValues)
    = Some (fieldVisible Number_gt Number_lt field formValues)).
  { unfold useConditionalFields.
    apply (forEach_assign_entry
             (fun fd => fieldVisible Number_gt Number_lt fd formValues));
      assumption. }
  rewrite Hentry. unfold fieldVisible. rewrite Hrule.
  cbn [truthy negb]. unfold isVisible. cbn [prop]. rewrite Hdep.
  cbn [String_]. split.
  - intros [Hop|Hop]; rewrite Hop; reflexivity.
  - intros Hop. rewrite Hop. reflexivity.
Qed.

Lemma equality_rules_compare_strictly_witness :
  NoDup (keys preferenceFields)
  /\ inherited "contactPreference" = false
  /\ useConditionalFields numGt numLt preferenceFields
       [("contactPreference", VStr "phone")]
     = [("phoneNumber", true); ("postalAddress", false)]
  /\ lookup "phoneNumber"
       (useConditionalFields numGt numLt preferenceFields
          [("contactPreference", VStr "email")])
     = Some false
  /\ lookup "postalAddress"
       (useConditionalFields numGt numLt preferenceFields [])
     = Some true.
Proof.
  assert (Hnd : NoDup (keys preferenceFields)).
  { repeat constructor; simpl; intuition discriminate. }
  split; [exact Hnd|]. split; [reflexivity|]. split; [reflexivity|]. split.
  - apply (proj1 (equality_rules_compare_strictly numGt numLt preferenceFields
                    [("contactPreference", VStr "email")] "phoneNumber"
                    (plainField "phoneNumber"
                       [("showWhen",
                         VObj [("field", VStr "contactPreference");
                               ("value", VStr "phone")])])
                    [("field", VStr "contactPreference");
                     ("value", VStr "phone")]
                    "contactPreference" Hnd ltac:(simpl; tauto)
                    eq_refl eq_refl (or_introl eq_refl))).
    left. reflexivity.
  - apply (proj2 (equality_rules_compare_strictly numGt numLt preferenceFields
                    [] "postalAddress"
                    (plainField "postalAddress"
                       [("showWhen",
                         VObj [("field", VStr "contactPreference");
                               ("value", VStr "phone");
                               ("operator", VStr "not-equals")])])
                    [("field", VStr "contactPreference");
                     ("value", VStr "phone");
                     ("operator", VStr "not-equals")]
                    "contactPreference" Hnd ltac:(simpl; tauto)
                    eq_refl eq_refl (or_introl eq_refl))).
    reflexivity.
Defined.

(* ================================================================== *)
(** ** Array fields *)
(* ================================================================== *)

From Stdlib Require Import Permutation.

Lemma withoutIndex_before xs i index :
  index < i -> FormHooks.withoutIndex xs i index = xs.
Proof.
  revert i. induction xs as [|x rest IH]; intros i Hlt; simpl.
  - reflexivity.
  - assert (E : (i =? index) = false) by (apply Z.eqb_neq; lia).
    rewrite E. f_equal. apply IH. lia.
Qed.

Lemma withoutIndex_beyond xs i index :
  i + Z.of_nat (List.length xs) <= index ->
  FormHooks.withoutIndex xs i index = xs.
Proof.
  revert i. induction xs as [|x rest IH]; intros i Hle; simpl.
  - reflexivity.
  - simpl List.length in Hle.
    assert (E : (i =? index) = false) by (apply Z.eqb_neq; lia).
    rewrite E. f_equal. apply IH. lia.
Qed.

Lemma withoutIndex_at xs i (n : nat) :
  (n < List.length xs)%nat ->
  FormHooks.withoutIndex xs i (i + Z.of_nat n)
  = firstn n xs ++ skipn (S n) xs.
Proof.
  revert i n. induction xs as [|x rest IH]; intros i n Hlt; simpl in Hlt.
  - lia.
  - simpl FormHooks.withoutIndex. destruct n as [|n].
    + rewrite Z.add_0_r, Z.eqb_refl. simpl.
      apply withoutIndex_before. lia.
    + assert (E : (i =? i + Z.of_nat (S n)) = false)
        by (apply Z.eqb_neq; lia).
      rewrite E. simpl. f_equal.
      replace (i + Z.pos (Pos.of_succ_nat n)) with (i + 1 + Z.of_nat n) by lia.
      apply IH. lia.
Qed.

(** X12.  [remove] on an array drops the item at the given position and
    keeps the others in order; a position that is negative or past the end
    leaves the array as it is. *)
Theorem remove_drops_the_indexed_item (xs : list value) (index : Z) :
  (forall n : nat, index = Z.of_nat n -> (n < List.length xs)%nat ->
     FormHooks.remove (VArr xs) index
     = Some (firstn n xs ++ skipn (S n) xs))
  /\ (index < 0 \/ Z.of_nat (List.length xs) <= index ->
     FormHooks.remove (VArr xs) index = Some xs).
Proof.
  unfold FormHooks.remove. cbn [FormHooks.orEmptyArray truthy]. split.
  - intros n -> Hlt. f_equal.
    exact (withoutIndex_at xs 0 n Hlt).
  - intros [Hneg|Hbig]; f_equal.
    + apply withoutIndex_before. exact Hneg.
    + apply withoutIndex_beyond. lia.
Qed.

Lemma remove_drops_the_indexed_item_witness :
  (1 < List.length [VStr "a"; VStr "b"; VStr "c"])%nat
  /\ FormHooks.remove (VArr [VStr "a"; VStr "b"; VStr "c"]) 1
     = Some [VStr "a"; VStr "c"]
  /\ FormHooks.remove (VArr [VStr "a"; VStr "b"; VStr "c"]) (-1)
     = Some [VStr "a"; VStr "b"; VStr "c"].
Proof.
  split; [simpl; lia|]. split.
  - apply (proj1 (remove_drops_the_indexed_item
                    [VStr "a"; VStr "b"; VStr "c"] 1) 1%nat);
      [reflexivity | simpl; lia].
  - apply (proj2 (remove_drops_the_indexed_item
                    [VStr "a"; VStr "b"; VStr "c"] (-1))).
    left. lia.
Defined.

(** X13.  [append] puts the value after the current items, a field without
    value (any falsy value) counting as the empty array; removing the last
    position of the result gives the items back. *)
Theorem append_then_remove_last (current v : value) (ys : list value) :
  FormHooks.append current v = Some ys ->
  exists xs,
    FormHooks.iterate (FormHooks.orEmptyArray current) = Some xs
    /\ (truthy current = false -> xs = [])
    /\ ys = xs ++ [v]
    /\ FormHooks.remove (VArr ys) (Z.of_nat (List.length xs)) = Some xs.
Proof.
  unfold FormHooks.append. intros Happ.
  destruct (FormHooks.iterate (FormHooks.orEmptyArray current)) as [xs|] eqn:E;
    [|discriminate].
  inversion Happ; subst. exists xs. split; [reflexivity|]. split.
  - intros Hfalsy. unfold FormHooks.orEmptyArray in E. rewrite Hfalsy in E.
    simpl in E. now inversion E.
  - split; [reflexivity|].
    unfold FormHooks.remove. cbn [FormHooks.orEmptyArray truthy]. f_equal.
    change (Z.of_nat (List.length xs)) with (0 + Z.of_nat (List.length xs)).
    rewrite (withoutIndex_at (xs ++ [v]) 0 (List.length xs))
      by (rewrite length_app; simpl; lia).
    rewrite firstn_app, Nat.sub_diag, firstn_all.
    rewrite (skipn_all2 (xs ++ [v])) by (rewrite length_app; simpl; lia).
    simpl. now rewrite !app_nil_r.
Qed.

Lemma append_then_remove_last_witness :
  FormHooks.append VUndefined (VObj []) = Some [VObj []]
  /\ exists xs,
       FormHooks.iterate (FormHooks.orEmptyArray VUndefined) = Some xs
       /\ (truthy VUndefined = false -> xs = [])
       /\ [VObj []] = xs ++ [VObj []]
       /\ FormHooks.remove (VArr [VObj []]) (Z.of_nat (List.length xs))
          = Some xs.
Proof.
  split; [reflexivity|].
  exact (append_then_remove_last VUndefined (VObj []) [VObj []] eq_refl).
Defined.

Lemma spliceStart_nat len (n : nat) :
  FormHooks.spliceStart len (Z.of_nat n) = Nat.min n len.
Proof.
  unfold FormHooks.spliceStart.
  assert (E : (Z.of_nat n <? 0) = false) by (apply Z.ltb_ge; lia).
  now rewrite E, Nat2Z.id.
Qed.

(** Moving the item that follows [a] to the position [target]. *)
Lemma move_in_range (a b : list value) (x : value) (target : nat) :
  (target <= List.length (a ++ b))%nat ->
  FormHooks.move (VArr (a ++ x :: b)) (Z.of_nat (List.length a))
    (Z.of_nat target)
  = Some (firstn target (a ++ b) ++ x :: skipn target (a ++ b)).
Proof.
  intros Hle. unfold FormHooks.move.
  cbn [FormHooks.orEmptyArray truthy FormHooks.iterate]. cbv zeta.
  rewrite (spliceStart_nat (List.length (a ++ x :: b)) (List.length a)).
  assert (Hmin : Nat.min (List.length a) (List.length (a ++ x :: b))
                 = List.length a)
    by (rewrite length_app; simpl; lia).
  rewrite Hmin.
  assert (Hfirst : firstn (List.length a) (a ++ x :: b) = a).
  { rewrite firstn_app, Nat.sub_diag, firstn_all. simpl.
    apply app_nil_r. }
  assert (Hskip : skipn (List.length a) (a ++ x :: b) = x :: b).
  { rewrite skipn_app, Nat.sub_diag, skipn_all. reflexivity. }
  assert (Hskip1 : skipn (List.length a + 1) (a ++ x :: b) = b).
  { rewrite skipn_app, skipn_all2 by lia.
    replace (List.length a + 1 - List.length a)%nat with 1%nat by lia.
    reflexivity. }
  rewrite Hfirst, Hskip, Hskip1. cbn [firstn].
  rewrite spliceStart_nat.
  now rewrite (Nat.min_l target) by exact Hle.
Qed.

(** X14.  [move] between two positions of an array reorders it: the result
    is a permutation of the array with the same length, the moved item is
    found at the target position, and moving it back restores the array. *)
Theorem move_reorders_and_can_be_undone (xs : list value) (from to : nat) :
  (from < List.length xs)%nat ->
  (to < List.length xs)%nat ->
  exists ys,
    FormHooks.move (VArr xs) (Z.of_nat from) (Z.of_nat to) = Some ys
    /\ Permutation xs ys
    /\ List.length ys = List.length xs
    /\ nth_error ys to = nth_error xs from
    /\ FormHooks.move (VArr ys) (Z.of_nat to) (Z.of_nat from) = Some xs.
Proof.
  intros Hfrom Hto.
  destruct (nth_error xs from) as [x|] eqn:Hx;
    [|apply nth_error_None in Hx; lia].
  destruct (nth_error_split xs from Hx) as (a & b & Hxs & Hlen).
  subst xs from.
  assert (Hm : (to <= List.length (a ++ b))%nat).
  { rewrite length_app in *. simpl in Hto. lia. }
  exists (firstn to (a ++ b) ++ x :: skipn to (a ++ b)).
  split; [now apply move_in_range|].
  assert (Hc : List.length (firstn to (a ++ b)) = to)
    by (rewrite length_firstn; lia).
  split; [|split; [|split]].
  - apply Permutation_trans with (x :: a ++ b).
    + apply Permutation_sym, Permutation_middle.
    + rewrite <- (firstn_skipn to (a ++ b)) at 1.
      apply Permutation_middle.
  - rewrite length_app. simpl. rewrite Hc, length_skipn.
    rewrite !length_app in *. simpl. lia.
  - rewrite nth_error_app2 by lia.
    now rewrite Hc, Nat.sub_diag.
  - pose proof (move_in_range (firstn to (a ++ b)) (skipn to (a ++ b)) x
                  (List.length a)) as Hback.
    rewrite firstn_skipn, Hc in Hback.
    rewrite Hback by (rewrite length_app; lia).
    rewrite firstn_app, Nat.sub_diag, firstn_all. simpl.
    rewrite app_nil_r.
    now rewrite skipn_app, Nat.sub_diag, skipn_all.
Qed.

Lemma move_reorders_and_can_be_undone_witness :
  (0 < List.length [VStr "a"; VStr "b"; VStr "c"])%nat
  /\ (2 < List.length [VStr "a"; VStr "b"; VStr "c"])%nat
  /\ FormHooks.move (VArr [VStr "a"; VStr "b"; VStr "c"]) 0 2
     = Some [VStr "b"; VStr "c"; VStr "a"]
  /\ exists ys,
       FormHooks.move (VArr [VStr "a"; VStr "b"; VStr "c"])
         (Z.of_nat 0) (Z.of_nat 2) = Some ys
       /\ Permutation [VStr "a"; VStr "b"; VStr "c"] ys
       /\ List.length ys = List.length [VStr "a"; VStr "b"; VStr "c"]
       /\ nth_error ys 2 = nth_error [VStr "a"; VStr "b"; VStr "c"] 0
       /\ FormHooks.move (VArr ys) (Z.of_nat 2) (Z.of_nat 0)
          = Some [VStr "a"; VStr "b"; VStr "c"].
Proof.
  split; [simpl; lia|]. split; [simpl; lia|]. split; [reflexivity|].
  apply (move_reorders_and_can_be_undone [VStr "a"; VStr "b"; VStr "c"] 0 2);
    simpl; lia.
Defined.

(** X15.  [move] from a position at or past the end of the array removes
    nothing and inserts [undefined] at the target position (clamped to the
    array): the array grows by one item. *)
Theorem move_from_past_the_end_inserts_undefined (xs : list value)
    (from to : Z) :
  Z.of_nat (List.length xs) <= from ->
  FormHooks.move (VArr xs) from to
  = Some (firstn (FormHooks.spliceStart (List.length xs) to) xs
          ++ VUndefined
          :: skipn (FormHooks.spliceStart (List.length xs) to) xs)
  /\ forall ys, FormHooks.move (VArr xs) from to = Some ys ->
                List.length ys = S (List.length xs).
Proof.
  intros Hfrom.
  assert (E : FormHooks.move (VArr xs) from to
              = Some (firstn (FormHooks.spliceStart (List.length xs) to) xs
                      ++ VUndefined
                      :: skipn (FormHooks.spliceStart (List.length xs) to) xs)).
  { unfold FormHooks.move.
    cbn [FormHooks.orEmptyArray truthy FormHooks.iterate].
    assert (Hstart : FormHooks.spliceStart (List.length xs) from
                     = List.length xs).
    { unfold FormHooks.spliceStart.
      assert (Hpos : (from <? 0) = false) by (apply Z.ltb_ge; lia).
      rewrite Hpos. apply Nat.min_r. lia. }
    rewrite Hstart, skipn_all, firstn_all.
    rewrite skipn_all2 by lia. cbn [firstn]. now rewrite app_nil_r. }
  split; [exact E|].
  intros ys Hys. rewrite E in Hys. inversion Hys; subst.
  rewrite length_app. simpl. rewrite length_firstn, length_skipn.
  assert (Hle : (FormHooks.spliceStart (List.length xs) to
                 <= List.length xs)%nat).
  { unfold FormHooks.spliceStart. destruct (to <? 0) eqn:Hneg.
    - apply Z.ltb_lt in Hneg.
      destruct (Z.max_spec (Z.of_nat (List.length xs) + to) 0)
        as [[_ ->]|[_ ->]]; lia.
    - apply Nat.le_min_r. }
  lia.
Qed.

Lemma move_from_past_the_end_inserts_undefined_witness :
  Z.of_nat (List.length [VStr "a"; VStr "b"]) <= 5
  /\ FormHooks.move (VArr [VStr "a"; VStr "b"]) 5 0
     = Some [VUndefined; VStr "a"; VStr "b"].
Proof.
  split; [simpl; lia|].
  apply (proj1 (move_from_past_the_end_inserts_undefined
                  [VStr "a"; VStr "b"] 5 0 ltac:(simpl; lia))).
Defined.

Lemma itemsFrom_nth name xs start k item :
  nth_error xs k = Some item ->
  nth_error (FormHooks.itemsFrom name xs start) k
  = Some (spread
            [("id", VStr (name ++ "-" ++ string_of_Z (start + Z.of_nat k)))]
            (FormHooks.ownEntries item)).
Proof.
  revert start k. induction xs as [|x rest IH]; intros start k Hk.
  - destruct k; discriminate.
  - destruct k as [|k]; simpl in *.
    + inversion Hk; subst. now rewrite Z.add_0_r.
    + rewrite (IH (start + 1) k Hk).
      replace (start + 1 + Z.of_nat k) with (start + Z.pos (Pos.of_succ_nat k))
        by lia.
      reflexivity.
Qed.

Lemma itemsFrom_length name xs start :
  List.length (FormHooks.itemsFrom name xs start) = List.length xs.
Proof.
  revert start. induction xs as [|x rest IH]; intros start; simpl.
  - reflexivity.
  - now rewrite IH.
Qed.

(** X16.  [items] returns one object per array item.  For an item that is an
    object (with distinct property names), the object keeps every property
    of the item, and its [id] is the item's own [id] when the item has one;
    only otherwise is it the generated [name-index]. *)
Theorem item_own_id_wins (name : string) (xs : list value) (k : nat)
    (props : obj) :
  nth_error xs k = Some (VObj props) ->
  NoDup (keys props) ->
  exists all o,
    FormHooks.items name (VArr xs) = Some all
    /\ List.length all = List.length xs
    /\ nth_error all k = Some o
    /\ get "id" o =
       match lookup "id" props with
       | Some v => v
       | None => VStr (name ++ "-" ++ string_of_Z (Z.of_nat k))
       end
    /\ forall key, key <> "id" -> get key o = get key props.
Proof.
  intros Hk Hnd.
  exists (FormHooks.itemsFrom name xs 0).
  exists (spread [("id", VStr (name ++ "-" ++ string_of_Z (Z.of_nat k)))]
            props).
  split; [reflexivity|]. split; [apply itemsFrom_length|]. split.
  - now rewrite (itemsFrom_nth name xs 0 k (VObj props) Hk).
  - split.
    + rewrite get_spread_NoDup by exact Hnd.
      destruct (lookup "id" props); reflexivity.
    + intros key Hkey. rewrite get_spread_NoDup by exact Hnd.
      unfold get at 2. destruct (lookup key props); [reflexivity|].
      unfold get. simpl.
      apply String.eqb_neq in Hkey. now rewrite Hkey.
Qed.

Lemma item_own_id_wins_witness :
  nth_error [VObj [("id", VStr "row-7"); ("label", VStr "x")]] 0
  = Some (VObj [("id", VStr "row-7"); ("label", VStr "x")])
  /\ NoDup (keys [("id", VStr "row-7"); ("label", VStr "x")])
  /\ FormHooks.items "rows"
       (VArr [VObj [("id", VStr "row-7"); ("label", VStr "x")]])
     = Some [[("id", VStr "row-7"); ("label", VStr "x")]]
  /\ exists all o,
       FormHooks.items "rows"
         (VArr [VObj [("id", VStr "row-7"); ("label", VStr "x")]]) = Some all
       /\ List.length all = 1%nat
       /\ nth_error all 0 = Some o
       /\ get "id" o = VStr "row-7"
       /\ forall key, key <> "id" ->
                      get key o
                      = get key [("id", VStr "row-7"); ("label", VStr "x")].
Proof.
  assert (Hnd : NoDup (keys [("id", VStr "row-7"); ("label", VStr "x")])).
  { repeat constructor; simpl; intuition discriminate. }
  split; [reflexivity|]. split; [exact Hnd|]. split; [reflexivity|].
  exact (item_own_id_wins "rows"
           [VObj [("id", VStr "row-7"); ("label", VStr "x")]] 0
           [("id", VStr "row-7"); ("label", VStr "x")] eq_refl Hnd).
Defined.

(* ================================================================== *)
(** ** Converting the timestamps of a loaded document *)
(* ================================================================== *)

Section DataFacts.
Import Timestamps.
Variables (T D : Type).
Variable toDate : T -> D.

Section Induction.
Variable P : data T D -> Prop.
Hypothesis Hundefined : P DUndefined.
Hypothesis Hnull : P DNull.
Hypothesis Hbool : forall b, P (DBool b).
Hypothesis Hnum : forall n, P (DNum n).
Hypothesis Hstr : forall s, P (DStr s).
Hypothesis Htimestamp : forall t, P (DTimestamp t).
Hypothesis Hdate : forall d, P (DDate d).
Hypothesis Hinstance :
  forall cls props,
    Forall (fun kv => P (snd kv)) props -> P (DInstance cls props).
Hypothesis Harr : forall items, Forall P items -> P (DArr items).
Hypothesis Hobj :
  forall props, Forall (fun kv => P (snd kv)) props -> P (DObj props).

(** Induction on data, with the hypothesis for every item of an array and
    every property of an object. *)
Fixpoint data_nested_ind (d : data T D) : P d :=
  match d with
  | DUndefined => Hundefined
  | DNull => Hnull
  | DBool b => Hbool b
  | DNum n => Hnum n
  | DStr s => Hstr s
  | DTimestamp t => Htimestamp t
  | DDate x => Hdate x
  | DInstance cls props =>
      Hinstance cls props
        ((fix each (ps : list (string * data T D))
              : Forall (fun kv => P (snd kv)) ps :=
            match ps with
            | [] => Forall_nil _
            | (k, v) :: rest =>
                Forall_cons (k, v) (data_nested_ind v) (each rest)
            end) props)
  | DArr items =>
      Harr items
        ((fix each (xs : list (data T D)) : Forall P xs :=
            match xs with
            | [] => Forall_nil P
            | x :: rest => Forall_cons x (data_nested_ind x) (each rest)
            end) items)
  | DObj props =>
      Hobj props
        ((fix each (ps : list (string * data T D))
              : Forall (fun kv => P (snd kv)) ps :=
            match ps with
            | [] => Forall_nil _
            | (k, v) :: rest =>
                Forall_cons (k, v) (data_nested_ind v) (each rest)
            end) props)
  end.
End Induction.

(** The loop over the entries of an object, as a fold. *)
Lemma entries_fold (props : list (string * data T D)) :
  (fix entries (ps : list (string * data T D)) (transformed : dict (data T D))
       {struct ps} : dict (data T D) :=
     match ps with
     | [] => transformed
     | (key, v) :: rest =>
         entries rest (set key (transformTimestamps toDate v) transformed)
     end) props []
  = fold_left
      (fun transformed kv =>
         set (fst kv) (transformTimestamps toDate (snd kv)) transformed)
      props [].
Proof.
  generalize (@nil (string * data T D)).
  induction props as [|[k v] rest IH]; intros acc; simpl.
  - reflexivity.
  - apply IH.
Qed.

Lemma transformTimestamps_object props :
  transformTimestamps toDate (DObj props)
  = DObj (fold_left
            (fun transformed kv =>
               set (fst kv) (transformTimestamps toDate (snd kv)) transformed)
            props []).
Proof. cbn [transformTimestamps]. now rewrite entries_fold. Qed.

Lemma transformTimestamps_instance cls props :
  transformTimestamps toDate (DInstance cls props)
  = DObj (fold_left
            (fun transformed kv =>
               set (fst kv) (transformTimestamps toDate (snd kv)) transformed)
            props []).
Proof. cbn [transformTimestamps]. now rewrite entries_fold. Qed.

(** With distinct property names, the loop converts property by property. *)
Lemma converted_entries (props : list (string * data T D)) :
  NoDup (keys props) ->
  fold_left
    (fun transformed kv =>
       set (fst kv) (transformTimestamps toDate (snd kv)) transformed)
    props []
  = map (fun kv => (fst kv, transformTimestamps toDate (snd kv))) props.
Proof.
  intros Hnd.
  now rewrite (forEach_assign_map
                 (fun kv => transformTimestamps toDate (snd kv)) props []).
Qed.

Lemma holdsTimestamp_object (props : list (string * data T D)) :
  holdsTimestamp (DObj props)
  = existsb (fun kv => holdsTimestamp (snd kv)) props.
Proof.
  simpl. induction props as [|[k v] rest IH]; simpl.
  - reflexivity.
  - now rewrite IH.
Qed.

Lemma existsb_values_false {A : Type} (f : A -> bool) (o : dict A) :
  Forall (fun v => f v = false) (values o) ->
  existsb (fun kv => f (snd kv)) o = false.
Proof.
  induction o as [|[k v] rest IH]; simpl; intros Hall; [reflexivity|].
  inversion Hall as [|? ? Hv Hrest]; subst. now rewrite Hv, IH.
Qed.

Lemma converted_entries_clean (props : list (string * data T D)) :
  Forall
    (fun kv => holdsTimestamp (transformTimestamps toDate (snd kv)) = false)
    props ->
  holdsTimestamp
    (DObj (fold_left
             (fun transformed kv =>
                set (fst kv) (transformTimestamps toDate (snd kv))
                  transformed) props []))
  = false.
Proof.
  intros IH. rewrite holdsTimestamp_object.
  apply existsb_values_false.
  assert (G : forall acc,
             Forall (fun v => holdsTimestamp v = false) (values acc) ->
             Forall (fun v => holdsTimestamp v = false)
               (values
                  (fold_left
                     (fun transformed kv =>
                        set (fst kv) (transformTimestamps toDate (snd kv))
                          transformed) props acc))).
  { induction IH as [|[k v] rest Hv _ IHrest]; intros acc Hacc; simpl.
    - exact Hacc.
    - apply IHrest. apply Forall_values_set; [exact Hacc | exact Hv]. }
  apply G. constructor.
Qed.

Lemma transformTimestamps_clean (d : data T D) :
  holdsTimestamp (transformTimestamps toDate d) = false.
Proof.
  induction d as [| | | | | | |cls props IH|items IH|props IH]
    using data_nested_ind; try reflexivity.
  - rewrite transformTimestamps_instance. now apply converted_entries_clean.
  - simpl. induction IH as [|x rest Hx _ IHrest]; simpl.
    + reflexivity.
    + now rewrite Hx, IHrest.
  - rewrite transformTimestamps_object. now apply converted_entries_clean.
Qed.

Lemma all_properties (Q : data T D -> Prop)
    (props : list (string * data T D)) :
  (fix all (ps : list (string * data T D)) : Prop :=
     match ps with
     | [] => True
     | (_, v) :: rest => Q v /\ all rest
     end) props
  <-> Forall (fun kv => Q (snd kv)) props.
Proof.
  induction props as [|[k v] rest IH]; simpl.
  - split; [constructor | trivial].
  - split.
    + intros [Hv Hrest]. constructor; [exact Hv | now apply IH].
    + intros Hall. inversion Hall; subst. split; [assumption | now apply IH].
Qed.

Lemma all_items (Q : data T D -> Prop) (items : list (data T D)) :
  (fix all (xs : list (data T D)) : Prop :=
     match xs with
     | [] => True
     | x :: rest => Q x /\ all rest
     end) items
  <-> Forall Q items.
Proof.
  induction items as [|x rest IH]; simpl.
  - split; [constructor | trivial].
  - split.
    + intros [Hx Hrest]. constructor; [exact Hx | now apply IH].
    + intros Hall. inversion Hall; subst. split; [assumption | now apply IH].
Qed.

Lemma isPlain_object (props : list (string * data T D)) :
  isPlain (DObj props)
  <-> NoDup (keys props) /\ Forall (fun kv => isPlain (snd kv)) props.
Proof.
  cbn [isPlain]. unfold keys. now rewrite (all_properties isPlain).
Qed.

Lemma isPlain_array (items : list (data T D)) :
  isPlain (DArr items) <-> Forall isPlain items.
Proof. cbn [isPlain]. apply (all_items isPlain). Qed.

Lemma distinctKeys_object (props : list (string * data T D)) :
  distinctKeys (DObj props)
  <-> NoDup (keys props) /\ Forall (fun kv => distinctKeys (snd kv)) props.
Proof.
  cbn [distinctKeys]. unfold keys. now rewrite (all_properties distinctKeys).
Qed.

Lemma distinctKeys_instance cls (props : list (string * data T D)) :
  distinctKeys (DInstance cls props)
  <-> NoDup (keys props) /\ Forall (fun kv => distinctKeys (snd kv)) props.
Proof.
  cbn [distinctKeys]. unfold keys. now rewrite (all_properties distinctKeys).
Qed.

Lemma distinctKeys_array (items : list (data T D)) :
  distinctKeys (DArr items) <-> Forall distinctKeys items.
Proof. cbn [distinctKeys]. apply (all_items distinctKeys). Qed.

Lemma transformTimestamps_plain (d : data T D) :
  isPlain d -> transformTimestamps toDate d = d.
Proof.
  induction d as [| | | | | | |cls props IH|items IH|props IH]
    using data_nested_ind;
    try reflexivity; try (simpl; contradiction).
  - intros Hplain. apply isPlain_array in Hplain. simpl. f_equal.
    induction IH as [|x rest Hx _ IHrest]; simpl; [reflexivity|].
    inversion Hplain; subst. rewrite Hx by assumption.
    now rewrite IHrest.
  - intros Hplain. apply isPlain_object in Hplain.
    destruct Hplain as [Hnd Hall].
    rewrite transformTimestamps_object, converted_entries by exact Hnd.
    f_equal. clear Hnd.
    induction IH as [|[k v] rest Hv _ IHrest]; simpl; [reflexivity|].
    inversion Hall; subst. simpl in *. rewrite Hv by assumption.
    now rewrite IHrest.
Qed.

Lemma fixed_items {A : Type} (f : A -> A) (K P : A -> Prop) (xs : list A) :
  Forall (fun x => K x -> f x = x -> P x) xs ->
  Forall K xs ->
  map f xs = xs ->
  Forall P xs.
Proof.
  induction xs as [|x rest IH]; intros Hstep Hall E; [constructor|].
  simpl in E. injection E as Ex Erest.
  inversion Hstep as [|? ? Hx Hrest]. inversion Hall as [|? ? Kx Krest].
  constructor; [now apply Hx | now apply IH].
Qed.

Lemma fixed_properties {A : Type} (f : A -> A) (K P : A -> Prop)
    (ps : list (string * A)) :
  Forall (fun kv => K (snd kv) -> f (snd kv) = snd kv -> P (snd kv)) ps ->
  Forall (fun kv => K (snd kv)) ps ->
  map (fun kv => (fst kv, f (snd kv))) ps = ps ->
  Forall (fun kv => P (snd kv)) ps.
Proof.
  induction ps as [|[k v] rest IH]; intros Hstep Hall E; [constructor|].
  simpl in E. injection E as Ev Erest.
  inversion Hstep as [|? ? Hv Hrest]. inversion Hall as [|? ? Kv Krest].
  constructor; [now apply Hv | now apply IH].
Qed.

(** Conversely, data that come out unchanged were plain. *)
Lemma unchanged_is_plain (d : data T D) :
  distinctKeys d -> transformTimestamps toDate d = d -> isPlain d.
Proof.
  induction d as [| | | | | | |cls props IH|items IH|props IH]
    using data_nested_ind;
    try (intros; exact I); try (intros _ E; discriminate E).
  - intros Hkeys E. apply distinctKeys_array in Hkeys.
    apply isPlain_array. simpl in E. injection E as Eitems.
    exact (fixed_items _ distinctKeys isPlain items IH Hkeys Eitems).
  - intros Hkeys E. apply distinctKeys_object in Hkeys.
    destruct Hkeys as [Hnd Hall]. apply isPlain_object.
    split; [exact Hnd|].
    rewrite transformTimestamps_object, converted_entries in E by exact Hnd.
    injection E as Eprops.
    exact (fixed_properties _ distinctKeys isPlain props IH Hall Eprops).
Qed.

Lemma lookup_converted k (props : list (string * data T D)) :
  lookup k (map (fun kv => (fst kv, transformTimestamps toDate (snd kv)))
              props)
  = match lookup k props with
    | Some v => Some (transformTimestamps toDate v)
    | None => None
    end.
Proof.
  induction props as [|[k' v] rest IH]; simpl; [reflexivity|].
  now destruct (String.eqb k k').
Qed.

Lemma lookup_Forall {A : Type} (Q : A -> Prop) k (o : dict A) v :
  Forall (fun kv => Q (snd kv)) o -> lookup k o = Some v -> Q v.
Proof.
  intros Hall Hk. apply lookup_some_in in Hk.
  rewrite Forall_forall in Hall. exact (Hall (k, v) Hk).
Qed.

(** What is found at a position of the data is found converted at the same
    position of the converted data. *)
Lemma converted_at path :
  forall d x,
    distinctKeys d ->
    valueAt path d = Some x ->
    valueAt path (transformTimestamps toDate d)
    = Some (transformTimestamps toDate x).
Proof.
  induction path as [|[i|k] rest IH]; intros d x Hkeys Hat.
  - simpl in Hat. inversion Hat; subst. reflexivity.
  - destruct d; try discriminate Hat. cbn [valueAt] in Hat.
    apply distinctKeys_array in Hkeys.
    destruct (nth_error items i) as [y|] eqn:Hy; [|discriminate Hat].
    cbn [transformTimestamps valueAt]. rewrite nth_error_map, Hy. simpl.
    apply IH; [|exact Hat].
    rewrite Forall_forall in Hkeys. apply Hkeys.
    now apply nth_error_In with i.
  - destruct d; try discriminate Hat; cbn [valueAt] in Hat.
    + apply distinctKeys_instance in Hkeys. destruct Hkeys as [Hnd Hall].
      destruct (lookup k props) as [y|] eqn:Hy; [|discriminate Hat].
      rewrite transformTimestamps_instance, converted_entries by exact Hnd.
      cbn [valueAt]. rewrite lookup_converted, Hy.
      apply IH; [|exact Hat].
      exact (lookup_Forall distinctKeys k props y Hall Hy).
    + apply distinctKeys_object in Hkeys. destruct Hkeys as [Hnd Hall].
      destruct (lookup k props) as [y|] eqn:Hy; [|discriminate Hat].
      rewrite transformTimestamps_object, converted_entries by exact Hnd.
      cbn [valueAt]. rewrite lookup_converted, Hy.
      apply IH; [|exact Hat].
      exact (lookup_Forall distinctKeys k props y Hall Hy).
Qed.

Lemma converted_everywhere (d : data T D) :
  distinctKeys d ->
  holdsTimestamp (transformTimestamps toDate d) = false
  /\ (forall path t,
        valueAt path d = Some (DTimestamp t) ->
        valueAt path (transformTimestamps toDate d)
        = Some (DDate (toDate t)))
  /\ (forall path x,
        valueAt path d = Some x ->
        valueAt path (transformTimestamps toDate d)
        = Some (transformTimestamps toDate x)).
Proof.
  intros Hkeys. split; [apply transformTimestamps_clean|]. split.
  - intros path t Hat.
    exact (converted_at path d (DTimestamp t) Hkeys Hat).
  - intros path x Hat. now apply converted_at.
Qed.

Lemma unchanged_exactly_when_plain (d : data T D) :
  (isPlain d -> transformTimestamps toDate d = d)
  /\ (distinctKeys d -> transformTimestamps toDate d = d -> isPlain d)
  /\ (forall x : D, transformTimestamps toDate (DDate x) = DObj [])
  /\ (forall cls props,
        NoDup (keys props) ->
        transformTimestamps toDate (DInstance cls props)
        = DObj (map (fun kv => (fst kv, transformTimestamps toDate (snd kv)))
                  props)).
Proof.
  split; [apply transformTimestamps_plain|].
  split; [apply unchanged_is_plain|]. split; [reflexivity|].
  intros cls props Hnd.
  now rewrite transformTimestamps_instance, converted_entries.
Qed.

End DataFacts.

(** X17.  Every [Timestamp] of the loaded data, at any depth of arrays and
    objects, is replaced by its [toDate()]: the converted data hold no
    [Timestamp]; where the data hold a [Timestamp], the converted data hold
    the [Date] it converts to, at the same position; and more generally
    what stands at a position of the data stands converted at that position
    of the converted data. *)
Theorem converted_data_hold_no_timestamp (T D : Type) (toDate : T -> D)
    (d : Timestamps.data T D) :
  distinctKeys d ->
  holdsTimestamp (Timestamps.transformTimestamps toDate d) = false
  /\ (forall path t,
        valueAt path d = Some (Timestamps.DTimestamp t) ->
        valueAt path (Timestamps.transformTimestamps toDate d)
        = Some (Timestamps.DDate (toDate t)))
  /\ (forall path x,
        valueAt path d = Some x ->
        valueAt path (Timestamps.transformTimestamps toDate d)
        = Some (Timestamps.transformTimestamps toDate x)).
Proof. apply converted_everywhere. Qed.

(** The start of the stored event, and the second of its slots. *)
Lemma converted_data_hold_no_timestamp_witness :
  distinctKeys storedEvent
  /\ valueAt [AtKey "startsAt"]
       (Timestamps.transformTimestamps secondsToMillis storedEvent)
     = Some (Timestamps.DDate 1700000000000)
  /\ valueAt [AtKey "slots"; AtIndex 0]
       (Timestamps.transformTimestamps secondsToMillis storedEvent)
     = Some (Timestamps.DDate 1700003600000)
  /\ Timestamps.transformTimestamps secondsToMillis storedEvent
     = Timestamps.DObj
         [("name", Timestamps.DStr "Launch");
          ("startsAt", Timestamps.DDate 1700000000000);
          ("place",
           Timestamps.DObj
             [("_lat", Timestamps.DNum 48); ("_long", Timestamps.DNum 2)]);
          ("slots",
           Timestamps.DArr [Timestamps.DDate 1700003600000; Timestamps.DNull])].
Proof.
  assert (Hkeys : distinctKeys storedEvent).
  { simpl. repeat split; try tauto;
      repeat constructor; simpl; intuition discriminate. }
  destruct (converted_data_hold_no_timestamp Z Z secondsToMillis storedEvent
              Hkeys) as (_ & Hdates & _).
  split; [exact Hkeys|]. split.
  - exact (Hdates [AtKey "startsAt"] 1700000000 eq_refl).
  - split; [|reflexivity].
    exact (Hdates [AtKey "slots"; AtIndex 0%nat] 1700003600 eq_refl).
Defined.

(** X18.  The conversion leaves unchanged exactly the data made of
    primitives, arrays and plain objects: such data come out as they went
    in, and data (with distinct property names in every object) that come
    out unchanged hold no [Timestamp], no [Date] and no object of another
    class.  A [Date] comes out as an empty object, and an object of another
    class ([GeoPoint], ...) as a plain object of its converted properties. *)
Theorem plain_data_are_unchanged (T D : Type) (toDate : T -> D)
    (d : Timestamps.data T D) :
  (isPlain d -> Timestamps.transformTimestamps toDate d = d)
  /\ (distinctKeys d -> Timestamps.transformTimestamps toDate d = d ->
      isPlain d)
  /\ (forall x : D,
        Timestamps.transformTimestamps toDate (Timestamps.DDate x)
        = Timestamps.DObj [])
  /\ (forall cls props,
        NoDup (keys props) ->
        Timestamps.transformTimestamps toDate (Timestamps.DInstance cls props)
        = Timestamps.DObj
            (map (fun kv =>
                    (fst kv, Timestamps.transformTimestamps toDate (snd kv)))
               props)).
Proof. apply unchanged_exactly_when_plain. Qed.

Lemma plain_data_are_unchanged_witness :
  isPlain (Timestamps.DObj
             [("name", @Timestamps.DStr Z Z "Ann");
              ("tags", Timestamps.DArr [Timestamps.DStr "a"; Timestamps.DNull])])
  /\ Timestamps.transformTimestamps secondsToMillis
       (Timestamps.DObj
          [("name", Timestamps.DStr "Ann");
           ("tags", Timestamps.DArr [Timestamps.DStr "a"; Timestamps.DNull])])
     = Timestamps.DObj
         [("name", Timestamps.DStr "Ann");
          ("tags", Timestamps.DArr [Timestamps.DStr "a"; Timestamps.DNull])]
  /\ Timestamps.transformTimestamps secondsToMillis
       (Timestamps.DObj [("born", Timestamps.DDate 86400000)])
     = Timestamps.DObj [("born", Timestamps.DObj [])].
Proof.
  assert (Hplain :
    isPlain (Timestamps.DObj
               [("name", @Timestamps.DStr Z Z "Ann");
                ("tags",
                 Timestamps.DArr [Timestamps.DStr "a"; Timestamps.DNull])])).
  { simpl. repeat split; try tauto.
    repeat constructor; simpl; intuition discriminate. }
  split; [exact Hplain|]. split; [|reflexivity].
  exact (proj1 (plain_data_are_unchanged Z Z secondsToMillis _) Hplain).
Defined.

(* ================================================================== *)
(** ** Loading: the state after the events of the subscription *)
(* ================================================================== *)

Section LoadFacts.
Import FirestoreLoad.
Variables (T D : Type).
Variable toDate : T -> D.
Variable cfg : LoadConfig T D.

Let run := fold_left (onEvent toDate cfg).

Lemma loading_after_event st e : loading (onEvent toDate cfg st e) = false.
Proof.
  destruct e as [snapshot|err]; simpl; [|reflexivity].
  now destruct (snapshotData snapshot).
Qed.

Lemma loading_after_run events st :
  events <> [] -> loading (run events st) = false.
Proof.
  unfold run. intros Hne.
  destruct (exists_last Hne) as (pre & e & ->).
  rewrite fold_left_app. simpl. apply loading_after_event.
Qed.

(** Events that deliver no data leave the document id and the form values
    as they are. *)
Lemma run_without_data events st :
  forallb (fun e => negb (deliversData e)) events = true ->
  currentDocId (run events st) = currentDocId st
  /\ formValues (run events st) = formValues st.
Proof.
  unfold run. revert st.
  induction events as [|e rest IH]; intros st Hall; simpl; [auto|].
  simpl in Hall. apply andb_prop in Hall. destruct Hall as [He Hrest].
  destruct (IH (onEvent toDate cfg st e) Hrest) as [Hid Hvalues].
  rewrite Hid, Hvalues.
  destruct e as [snapshot|err]; simpl in *; [|auto].
  destruct (snapshotData snapshot); [discriminate | auto].
Qed.

(** Events other than failures leave the error as it is. *)
Lemma run_without_failure events st :
  forallb (fun e => negb (isFailure e)) events = true ->
  error (run events st) = error st.
Proof.
  unfold run. revert st.
  induction events as [|e rest IH]; intros st Hall; simpl; [auto|].
  simpl in Hall. apply andb_prop in Hall. destruct Hall as [He Hrest].
  rewrite (IH (onEvent toDate cfg st e) Hrest).
  destruct e as [snapshot|err]; simpl in *; [|discriminate].
  now destruct (snapshotData snapshot).
Qed.

Lemma last_snapshot_from pre snapshot raw post st :
  snapshotData snapshot = Some raw ->
  forallb (fun e => negb (deliversData e)) post = true ->
  currentDocId (run (pre ++ Next snapshot :: post) st)
  = Some (snapshotId snapshot)
  /\ formValues (run (pre ++ Next snapshot :: post) st)
     = Some match transformAfterLoad cfg with
            | Some f => f (Timestamps.transformTimestamps toDate raw)
            | None => Timestamps.transformTimestamps toDate raw
            end.
Proof.
  intros Hraw Hpost. unfold run. rewrite fold_left_app. cbn [fold_left].
  destruct (run_without_data post
              (onEvent toDate cfg (fold_left (onEvent toDate cfg) pre st)
                 (Next snapshot)) Hpost) as [Hid Hvalues].
  unfold run in Hid, Hvalues. rewrite Hid, Hvalues.
  simpl. rewrite Hraw. simpl. auto.
Qed.

Lemma last_failure_from pre err post st :
  forallb (fun e => negb (isFailure e)) post = true ->
  error (run (pre ++ Failed err :: post) st) = Some err.
Proof.
  intros Hpost. unfold run. rewrite fold_left_app. cbn [fold_left].
  pose proof (run_without_failure post
                (onEvent toDate cfg (fold_left (onEvent toDate cfg) pre st)
                   (Failed err)) Hpost) as Herr.
  unfold run in Herr. now rewrite Herr.
Qed.

End LoadFacts.

(** X19.  Once the subscription has delivered an event, a snapshot of an
    existing or of a missing document or an error, the hook is no longer
    loading, whatever events follow. *)
Theorem first_event_ends_loading (T D : Type) (toDate : T -> D)
    (cfg : FirestoreLoad.LoadConfig T D)
    (events : list (FirestoreLoad.Event T D)) :
  FirestoreLoad.subscribes cfg = true ->
  events <> [] ->
  FirestoreLoad.loading (FirestoreLoad.afterEvents toDate cfg events) = false.
Proof.
  intros Hsub Hne. unfold FirestoreLoad.afterEvents. rewrite Hsub.
  now apply loading_after_run.
Qed.

Lemma first_event_ends_loading_witness :
  FirestoreLoad.subscribes boundConfig = true
  /\ FirestoreLoad.loading (FirestoreLoad.initialState boundConfig) = true
  /\ FirestoreLoad.loading
       (FirestoreLoad.afterEvents secondsToMillis boundConfig
          [FirestoreLoad.Next (FirestoreLoad.mkSnapshot "abc" None)])
     = false.
Proof.
  split; [reflexivity|]. split; [reflexivity|].
  apply (first_event_ends_loading Z Z secondsToMillis boundConfig);
    [reflexivity | discriminate].
Defined.

(** X20.  The remote side wins: after the events of the subscription, the
    document id is the id of the last snapshot of an existing document and
    the form holds that snapshot's data, converted ([transformTimestamps],
    then [transformAfterLoad]); snapshots of a missing document and errors
    that follow change neither. *)
Theorem last_existing_snapshot_wins (T D : Type) (toDate : T -> D)
    (cfg : FirestoreLoad.LoadConfig T D)
    (pre post : list (FirestoreLoad.Event T D))
    (snapshot : FirestoreLoad.Snapshot T D) (raw : Timestamps.data T D) :
  FirestoreLoad.subscribes cfg = true ->
  FirestoreLoad.snapshotData snapshot = Some raw ->
  forallb (fun e => negb (deliversData e)) post = true ->
  let st :=
    FirestoreLoad.afterEvents toDate cfg
      (pre ++ FirestoreLoad.Next snapshot :: post) in
  FirestoreLoad.currentDocId st = Some (FirestoreLoad.snapshotId snapshot)
  /\ FirestoreLoad.formValues st
     = Some match FirestoreLoad.transformAfterLoad cfg with
            | Some f => f (Timestamps.transformTimestamps toDate raw)
            | None => Timestamps.transformTimestamps toDate raw
            end.
Proof.
  intros Hsub Hraw Hpost st. subst st.
  unfold FirestoreLoad.afterEvents. rewrite Hsub.
  now apply last_snapshot_from.
Qed.

(** Scenario 4 of the specification: bound to [abc], a snapshot with
    [{ title: 'y' }] arrives, followed by a transport error. *)
Lemma last_existing_snapshot_wins_witness :
  FirestoreLoad.subscribes boundConfig = true
  /\ FirestoreLoad.formValues
       (FirestoreLoad.afterEvents secondsToMillis boundConfig
          ([] ++ FirestoreLoad.Next (FirestoreLoad.mkSnapshot "abc" (Some titleY))
              :: [FirestoreLoad.Failed offline]))
     = Some titleY.
Proof.
  split; [reflexivity|].
  apply (last_existing_snapshot_wins Z Z secondsToMillis boundConfig []
           [FirestoreLoad.Failed offline]
           (FirestoreLoad.mkSnapshot "abc" (Some titleY)) titleY
           eq_refl eq_refl eq_refl).
Defined.

(** X21.  An error of the subscription stays in the hook's state: the
    snapshots that follow it, of existing documents too, do not clear it. *)
Theorem snapshots_do_not_clear_the_error (T D : Type) (toDate : T -> D)
    (cfg : FirestoreLoad.LoadConfig T D)
    (pre post : list (FirestoreLoad.Event T D))
    (err : FirestoreForm.Error) :
  FirestoreLoad.subscribes cfg = true ->
  forallb (fun e => negb (isFailure e)) post = true ->
  FirestoreLoad.error
    (FirestoreLoad.afterEvents toDate cfg
       (pre ++ FirestoreLoad.Failed err :: post))
  = Some err.
Proof.
  intros Hsub Hpost. unfold FirestoreLoad.afterEvents. rewrite Hsub.
  now apply last_failure_from.
Qed.

Lemma snapshots_do_not_clear_the_error_witness :
  FirestoreLoad.subscribes boundConfig = true
  /\ FirestoreLoad.error
       (FirestoreLoad.afterEvents secondsToMillis boundConfig
          ([] ++ FirestoreLoad.Failed offline
              :: [FirestoreLoad.Next
                    (FirestoreLoad.mkSnapshot "abc" (Some titleY))]))
     = Some offline.
Proof.
  split; [reflexivity|].
  apply (snapshots_do_not_clear_the_error Z Z secondsToMillis boundConfig []
           [FirestoreLoad.Next (FirestoreLoad.mkSnapshot "abc" (Some titleY))]
           offline eq_refl eq_refl).
Defined.

(** X22.  The hook starts in the loading state without subscribing exactly
    when it is given a document id but neither a collection nor a document
    reference; it then stays loading whatever happens remotely. *)
Theorem id_without_collection_loads_forever (T D : Type) (toDate : T -> D)
    (cfg : FirestoreLoad.LoadConfig T D) :
  (FirestoreLoad.loading (FirestoreLoad.initialState cfg) = true
   /\ FirestoreLoad.subscribes cfg = false
   <-> FirestoreForm.nonEmpty (FirestoreLoad.documentId cfg) = true
       /\ FirestoreForm.nonEmpty (FirestoreLoad.collectionName cfg) = false
       /\ FirestoreLoad.documentRef cfg = None)
  /\ (FirestoreForm.nonEmpty (FirestoreLoad.documentId cfg) = true ->
      FirestoreForm.nonEmpty (FirestoreLoad.collectionName cfg) = false ->
      FirestoreLoad.documentRef cfg = None ->
      forall events,
        FirestoreLoad.loading (FirestoreLoad.afterEvents toDate cfg events)
        = true).
Proof.
  unfold FirestoreLoad.afterEvents, FirestoreLoad.subscribes,
    FirestoreLoad.initialState.
  cbn [FirestoreLoad.loading].
  destruct (FirestoreLoad.documentRef cfg) as [r|];
    destruct (FirestoreForm.nonEmpty (FirestoreLoad.documentId cfg));
    destruct (FirestoreForm.nonEmpty (FirestoreLoad.collectionName cfg));
    simpl; split; try (intros; try discriminate; reflexivity);
    try (split; intros; intuition discriminate).
  all: split; intros; intuition (try discriminate; auto).
Qed.

Lemma id_without_collection_loads_forever_witness :
  FirestoreForm.nonEmpty (FirestoreLoad.documentId idOnlyConfig) = true
  /\ FirestoreForm.nonEmpty (FirestoreLoad.collectionName idOnlyConfig) = false
  /\ FirestoreLoad.documentRef idOnlyConfig = None
  /\ FirestoreLoad.loading
       (FirestoreLoad.afterEvents secondsToMillis idOnlyConfig
          [FirestoreLoad.Next (FirestoreLoad.mkSnapshot "abc" (Some titleY))])
     = true.
Proof.
  split; [reflexivity|]. split; [reflexivity|]. split; [reflexivity|].
  apply (proj2 (id_without_collection_loads_forever Z Z secondsToMillis
                  idOnlyConfig) eq_refl eq_refl eq_refl).
Defined.

(* ================================================================== *)
(** ** Saving: routing, failures and the payload *)
(* ================================================================== *)

Section MoreSaveFacts.
Variable Store : Type.
Variable setDoc : DocumentReference -> value -> bool -> Store -> Error + Store.
Variable updateDoc : DocumentReference -> value -> Store -> Error + Store.
Variable addDoc :
  string -> value -> Store -> Error + (DocumentReference * Store).

Let save := saveToFirestore Store setDoc updateDoc addDoc.

Ltac save_cases :=
  unfold save, saveToFirestore, finish, failed; simpl;
  repeat match goal with
    | |- context [match ?x with _ => _ end] => destruct x eqn:?; simpl
    | |- context [if ?x then _ else _] => destruct x eqn:?; simpl
    end.

Lemma save_without_target cfg st data formValues db :
  documentRef cfg = None ->
  nonEmpty (collectionName cfg) = false ->
  save cfg st data formValues db
  = let caught :=
      match assemble cfg (mkState true None (currentDocId st))
              match data with Some d => d | None => formValues end with
      | inl thrown => thrown
      | inr _ => noTarget
      end in
    mkSaved (mkState false (Some caught) (currentDocId st)) db None
      (inl (rethrown cfg caught)).
Proof.
  intros Href Hcoll. unfold save, saveToFirestore, failed. simpl.
  destruct (assemble cfg _ _) as [thrown|payload]; simpl; [reflexivity|].
  now rewrite Href, Hcoll.
Qed.

Lemma save_settles cfg st data formValues db :
  let r := save cfg st data formValues db in
  saving (state r) = false
  /\ (forall err, outcome r = inl err ->
        exists caught,
          error (state r) = Some caught /\ err = rethrown cfg caught)
  /\ (forall docRef, outcome r = inr docRef -> error (state r) = None)
  /\ (written r = None ->
        store r = db
        /\ exists caught,
             error (state r) = Some caught
             /\ outcome r = inl (rethrown cfg caught)
             /\ (assemble cfg (mkState true None (currentDocId st))
                   match data with Some d => d | None => formValues end
                 = inl caught
                 \/ caught = noTarget)).
Proof.
  unfold save, saveToFirestore, finish, failed. simpl.
  destruct (assemble cfg _ _) as [thrown|payload] eqn:Hpayload; simpl.
  - repeat split; try discriminate.
    + intros err E. inversion E. now exists thrown.
    + exists thrown. repeat split. now left.
  - repeat match goal with
      | |- context [match ?x with _ => _ end] => destruct x eqn:?; simpl
      | |- context [if ?x then _ else _] => destruct x eqn:?; simpl
      end;
      repeat split; try discriminate;
      try (intros err E; inversion E; eexists; split; reflexivity).
    exists noTarget. repeat split. now right.
Qed.

Lemma save_route cfg st data formValues db w :
  written (save cfg st data formValues db) = Some w ->
  match documentRef cfg with
  | Some target => exists payload, w = SetDocMerge target payload
  | None =>
      if nonEmpty (currentDocId st)
      then exists payload,
             w = UpdateDoc
                   (doc (theString (collectionName cfg))
                      (theString (currentDocId st))) payload
      else exists payload,
             w = AddDoc (theString (collectionName cfg)) payload
  end.
Proof.
  unfold save, saveToFirestore, finish, failed. simpl.
  destruct (assemble cfg _ _) as [thrown|dataToSave]; simpl;
    [discriminate|].
  destruct (documentRef cfg) as [target|].
  - intros Hw. eexists.
    destruct (setDoc _ _ _ _);
      [|destruct (match onSuccess cfg with Some _ => _ | None => _ end)];
      simpl in Hw; inversion Hw; reflexivity.
  - destruct (nonEmpty (collectionName cfg));
      destruct (nonEmpty (currentDocId st)); simpl;
      try (intros Hw; discriminate).
    + intros Hw. eexists.
      destruct (updateDoc _ _ _);
        [|destruct (match onSuccess cfg with Some _ => _ | None => _ end)];
        simpl in Hw; inversion Hw; reflexivity.
    + intros Hw. eexists.
      destruct (addDoc _ _ _) as [err|[created db']];
        [|destruct (match onSuccess cfg with Some _ => _ | None => _ end)];
        simpl in Hw; inversion Hw; reflexivity.
Qed.

Lemma save_created_then_callback_fails cfg st data formValues db payload
    callback created db' err :
  documentRef cfg = None ->
  nonEmpty (collectionName cfg) = true ->
  nonEmpty (currentDocId st) = false ->
  assemble cfg (mkState true None (currentDocId st))
    match data with Some d => d | None => formValues end
  = inr payload ->
  addDoc (theString (collectionName cfg)) payload db = inr (created, db') ->
  onSuccess cfg = Some callback ->
  callback match data with Some d => d | None => formValues end = Some err ->
  let r := save cfg st data formValues db in
  outcome r = inl (rethrown cfg err)
  /\ (onError cfg = None -> outcome r = inl err)
  /\ store r = db'
  /\ currentDocId (state r) = Some (id created)
  /\ error (state r) = Some err.
Proof.
  intros Href Hcoll Hid Hpayload Hadd Hcb Herr.
  unfold save, saveToFirestore, finish, failed. simpl.
  rewrite Hpayload, Href, Hcoll, Hid. simpl. rewrite Hadd, Hcb, Herr. simpl.
  repeat split. intros Hnone. unfold rethrown. now rewrite Hnone.
Qed.

End MoreSaveFacts.

(** X23.  A save without document reference and without collection writes
    nothing, whatever the store and the other callbacks are: the store is
    untouched and no call is made to it, the hook is no longer saving, keeps
    its document id and holds the error caught, which is the configuration
    error unless [transformBeforeSave], which runs first, has thrown; the
    save rejects with that error, or with what [onError] throws. *)
Theorem save_without_target_writes_nothing (Store : Type)
    (setDoc : DocumentReference -> value -> bool -> Store -> Error + Store)
    (updateDoc : DocumentReference -> value -> Store -> Error + Store)
    (addDoc : string -> value -> Store -> Error + (DocumentReference * Store))
    (cfg : Config) (st : State) (data : option obj) (formValues : obj)
    (db : Store) :
  documentRef cfg = None ->
  nonEmpty (collectionName cfg) = false ->
  saveToFirestore Store setDoc updateDoc addDoc cfg st data formValues db
  = let caught :=
      match assemble cfg (mkState true None (currentDocId st))
              match data with Some d => d | None => formValues end with
      | inl thrown => thrown
      | inr _ => noTarget
      end in
    mkSaved (mkState false (Some caught) (currentDocId st)) db None
      (inl (rethrown cfg caught)).
Proof. apply save_without_target. Qed.

(** Without target: the configuration error; with a [transformBeforeSave]
    that throws, its error instead. *)
Lemma save_without_target_writes_nothing_witness :
  documentRef targetlessConfig = None
  /\ nonEmpty (collectionName targetlessConfig) = false
  /\ saveToFirestore Log logSetDoc logUpdateDoc logAddDoc targetlessConfig
       boundState (Some titleX) [] []
     = mkSaved (mkState false (Some noTarget) (Some "abc")) [] None
         (inl noTarget)
  /\ outcome
       (saveToFirestore Log logSetDoc logUpdateDoc logAddDoc hookThrows
          unboundState (Some titleX) [] [])
     = inl refused.
Proof.
  split; [reflexivity|]. split; [reflexivity|]. split.
  - now rewrite (save_without_target_writes_nothing Log logSetDoc logUpdateDoc
                   logAddDoc targetlessConfig boundState (Some titleX) [] []
                   eq_refl eq_refl).
  - now rewrite (save_without_target_writes_nothing Log logSetDoc logUpdateDoc
                   logAddDoc hookThrows unboundState (Some titleX) [] []
                   eq_refl eq_refl).
Defined.

(** X24.  Whatever the configuration, the store and the callbacks do, a save
    settles and leaves the hook not saving.  When it rejects, the hook holds
    the error that was caught, and the rejection is that error unless
    [onError] has thrown, in which case it is what [onError] threw; when it
    resolves, the hook holds no error.  A save that made no call to the
    store left the store as it was, and caught either the error thrown by
    [transformBeforeSave] or the configuration error. *)
Theorem save_always_settles (Store : Type)
    (setDoc : DocumentReference -> value -> bool -> Store -> Error + Store)
    (updateDoc : DocumentReference -> value -> Store -> Error + Store)
    (addDoc : string -> value -> Store -> Error + (DocumentReference * Store))
    (cfg : Config) (st : State) (data : option obj) (formValues : obj)
    (db : Store) :
  let r :=
    saveToFirestore Store setDoc updateDoc addDoc cfg st data formValues db in
  saving (state r) = false
  /\ (forall err, outcome r = inl err ->
        exists caught,
          error (state r) = Some caught
          /\ err = match onError cfg with
                   | Some callback =>
                       match callback caught with
                       | Some thrown => thrown
                       | None => caught
                       end
                   | None => caught
                   end)
  /\ (forall docRef, outcome r = inr docRef -> error (state r) = None)
  /\ (written r = None ->
        store r = db
        /\ exists caught,
             error (state r) = Some caught
             /\ outcome r = inl (rethrown cfg caught)
             /\ (assemble cfg (mkState true None (currentDocId st))
                   match data with Some d => d | None => formValues end
                 = inl caught
                 \/ caught = noTarget)).
Proof. apply save_settles. Qed.

(** An [onSuccess] that throws, with an [onError] that throws as well: the
    hook holds the first error, the save rejects with the second. *)
Lemma save_always_settles_witness :
  outcome
    (saveToFirestore Log logSetDoc logUpdateDoc logAddDoc bothThrow
       unboundState (Some titleX) [] [])
  = inl refused
  /\ error
       (state
          (saveToFirestore Log logSetDoc logUpdateDoc logAddDoc bothThrow
             unboundState (Some titleX) [] []))
     = Some rejected
  /\ exists caught,
       error
         (state
            (saveToFirestore Log logSetDoc logUpdateDoc logAddDoc bothThrow
               unboundState (Some titleX) [] []))
       = Some caught
       /\ refused = rethrown bothThrow caught.
Proof.
  split; [reflexivity|]. split; [reflexivity|].
  exact (proj1 (proj2 (save_always_settles Log logSetDoc logUpdateDoc
                         logAddDoc bothThrow unboundState (Some titleX)
                         [] [])) refused eq_refl).
Defined.

(** X25.  The write of a save is routed by the configuration: with a
    document reference it is a merging [setDoc] on that reference, whatever
    collection and document id are known; otherwise it is an [updateDoc] on
    the bound document of the collection when a document id is bound, and
    an [addDoc] on the collection when none is. *)
Theorem document_reference_takes_precedence (Store : Type)
    (setDoc : DocumentReference -> value -> bool -> Store -> Error + Store)
    (updateDoc : DocumentReference -> value -> Store -> Error + Store)
    (addDoc : string -> value -> Store -> Error + (DocumentReference * Store))
    (cfg : Config) (st : State) (data : option obj) (formValues : obj)
    (db : Store) (w : WriteCall) :
  written
    (saveToFirestore Store setDoc updateDoc addDoc cfg st data formValues db)
  = Some w ->
  match documentRef cfg with
  | Some target => exists payload, w = SetDocMerge target payload
  | None =>
      if nonEmpty (currentDocId st)
      then exists payload,
             w = UpdateDoc
                   (doc (theString (collectionName cfg))
                      (theString (currentDocId st))) payload
      else exists payload,
             w = AddDoc (theString (collectionName cfg)) payload
  end.
Proof. apply save_route. Qed.

Lemma document_reference_takes_precedence_witness :
  exists w,
    written
      (saveToFirestore Log logSetDoc logUpdateDoc logAddDoc bothConfig
         boundState (Some titleX) [] [])
    = Some w
    /\ exists payload, w = SetDocMerge (doc "users" "u1") payload.
Proof.
  eexists. split; [reflexivity|].
  exact (document_reference_takes_precedence Log logSetDoc logUpdateDoc
           logAddDoc bothConfig boundState (Some titleX) [] [] _ eq_refl).
Defined.

(** X26.  When the first save into a collection is accepted by the store but
    the [onSuccess] callback throws, the save rejects with the callback's
    error (or with what [onError] throws, when it throws) although the
    document exists: the store holds the write, the hook is bound to the
    created document's id and holds the callback's error. *)
Theorem failing_callback_leaves_the_document (Store : Type)
    (setDoc : DocumentReference -> value -> bool -> Store -> Error + Store)
    (updateDoc : DocumentReference -> value -> Store -> Error + Store)
    (addDoc : string -> value -> Store -> Error + (DocumentReference * Store))
    (cfg : Config) (st : State) (data : option obj) (formValues : obj)
    (db : Store) (payload : value) (callback : obj -> option Error)
    (created : DocumentReference) (db' : Store) (err : Error) :
  documentRef cfg = None ->
  nonEmpty (collectionName cfg) = true ->
  nonEmpty (currentDocId st) = false ->
  assemble cfg (mkState true None (currentDocId st))
    match data with Some d => d | None => formValues end
  = inr payload ->
  addDoc (theString (collectionName cfg)) payload db = inr (created, db') ->
  onSuccess cfg = Some callback ->
  callback match data with Some d => d | None => formValues end = Some err ->
  let r :=
    saveToFirestore Store setDoc updateDoc addDoc cfg st data formValues db in
  outcome r = inl (rethrown cfg err)
  /\ (onError cfg = None -> outcome r = inl err)
  /\ store r = db'
  /\ currentDocId (state r) = Some (id created)
  /\ error (state r) = Some err.
Proof. apply save_created_then_callback_fails. Qed.

Lemma failing_callback_leaves_the_document_witness :
  outcome
    (saveToFirestore Log logSetDoc logUpdateDoc logAddDoc throwingConfig
       unboundState (Some titleX) [] [])
  = inl rejected
  /\ List.length
       (store
          (saveToFirestore Log logSetDoc logUpdateDoc logAddDoc throwingConfig
             unboundState (Some titleX) [] [])) = 1%nat
  /\ currentDocId
       (state
          (saveToFirestore Log logSetDoc logUpdateDoc logAddDoc throwingConfig
             unboundState (Some titleX) [] []))
     = Some "doc0".
Proof.
  pose proof
    (failing_callback_leaves_the_document Log logSetDoc logUpdateDoc logAddDoc
       throwingConfig unboundState (Some titleX) [] []
       (VObj [("title", VStr "x");
              ("_metadata", VObj (creationMetadata (Some (mkUser "u1"))))])
       (fun _ => Some rejected) (doc "posts" "doc0")
       [AddDoc "posts"
          (VObj [("title", VStr "x");
                 ("_metadata", VObj (creationMetadata (Some (mkUser "u1"))))])]
       rejected eq_refl eq_refl eq_refl eq_refl eq_refl eq_refl eq_refl)
    as Hthm.
  cbv zeta in Hthm. destruct Hthm as (_ & Hout & Hstore & Hid & _).
  split; [exact (Hout eq_refl)|]. split; [now rewrite Hstore | exact Hid].
Defined.

Lemma assemble_keeps_fields cfg st (formData : obj) :
  transformBeforeSave cfg = None ->
  NoDup (keys formData) ->
  exists props,
    assemble cfg st formData = inr (VObj props)
    /\ (forall k, k <> "_metadata" -> get k props = get k formData)
    /\ (includeMetadata cfg = false -> props = formData).
Proof.
  intros Hnone Hnd. unfold assemble. rewrite Hnone.
  rewrite !(spread_copy formData) by exact Hnd.
  destruct (includeMetadata cfg).
  - eexists. split; [reflexivity|]. split; [|discriminate].
    intros k Hk. now rewrite get_set_other.
  - exists formData. repeat split.
Qed.

(** X27.  Without [transformBeforeSave], the payload of a save holds every
    field of the saved data (the [data] argument when given, the form's
    values otherwise, with distinct names) under its name and with its
    value; only [_metadata] may differ, and without metadata inclusion the
    payload is the saved data, nothing added. *)
Theorem payload_keeps_the_form_fields (Store : Type)
    (setDoc : DocumentReference -> value -> bool -> Store -> Error + Store)
    (updateDoc : DocumentReference -> value -> Store -> Error + Store)
    (addDoc : string -> value -> Store -> Error + (DocumentReference * Store))
    (cfg : Config) (st : State) (data : option obj) (formValues : obj)
    (db : Store) (w : WriteCall) :
  transformBeforeSave cfg = None ->
  NoDup (keys match data with Some d => d | None => formValues end) ->
  written
    (saveToFirestore Store setDoc updateDoc addDoc cfg st data formValues db)
  = Some w ->
  exists props,
    payloadOf w = VObj props
    /\ (forall k, k <> "_metadata" ->
          get k props
          = get k match data with Some d => d | None => formValues end)
    /\ (includeMetadata cfg = false ->
        props = match data with Some d => d | None => formValues end).
Proof.
  intros Hnone Hnd Hw.
  pose proof (written_payload _ _ _ _ _ _ _ _ _ _ Hw) as Hsent.
  destruct (assemble_keeps_fields cfg (mkState true None (currentDocId st))
              match data with Some d => d | None => formValues end
              Hnone Hnd) as (props & Hprops & Hfields).
  exists props. split; [congruence | exact Hfields].
Qed.

Lemma payload_keeps_the_form_fields_witness :
  transformBeforeSave bareConfig = None
  /\ NoDup (keys titleX)
  /\ written
       (saveToFirestore Log logSetDoc logUpdateDoc logAddDoc bareConfig
          unboundState (Some titleX) [("title", VStr "stale")] [])
     = Some (AddDoc "posts" (VObj titleX))
  /\ exists props,
       VObj titleX = VObj props
       /\ (forall k, k <> "_metadata" -> get k props = get k titleX)
       /\ (includeMetadata bareConfig = false -> props = titleX).
Proof.
  assert (Hnd : NoDup (keys titleX)).
  { repeat constructor; simpl; intuition discriminate. }
  split; [reflexivity|]. split; [exact Hnd|]. split; [reflexivity|].
  exact (payload_keeps_the_form_fields Log logSetDoc logUpdateDoc logAddDoc
           bareConfig unboundState (Some titleX) [("title", VStr "stale")] []
           (AddDoc "posts" (VObj titleX)) eq_refl Hnd eq_refl).
Defined.

(* ================================================================== *)
(** ** Auto-save: one save per burst of changes *)
(* ================================================================== *)

Lemma saves_app st events rest :
  AutoSave.saves st (events ++ rest)
  = AutoSave.saves st events
    ++ AutoSave.saves
         (fold_left (fun s e => fst (AutoSave.onEvent s e)) events st) rest.
Proof.
  revert st. induction events as [|e more IH]; intros st; simpl.
  - reflexivity.
  - now rewrite IH, app_assoc.
Qed.

Lemma changes_only_replace_the_pending_data st ds d :
  AutoSave.watching st = true ->
  AutoSave.saves st (map AutoSave.Changed (ds ++ [d])) = []
  /\ fold_left (fun s e => fst (AutoSave.onEvent s e))
       (map AutoSave.Changed (ds ++ [d])) st
     = AutoSave.mkEffect true (Some d).
Proof.
  revert st. induction ds as [|x rest IH]; intros st Hw; simpl.
  - rewrite Hw. simpl. auto.
  - rewrite Hw. simpl. apply IH. reflexivity.
Qed.

(** X28.  While the effect is watching, a burst of changes followed by the
    run of the pending timeout triggers at most one save: with the data of
    the last change when the form is valid at that moment, none when it is
    not.  The earlier changes of the burst are never saved, and the effect
    goes on watching with no timeout pending. *)
Theorem burst_of_changes_saves_the_last_once (st : AutoSave.Effect)
    (earlier : list obj) (latest : obj) (isValid : bool)
    (rest : list AutoSave.Event) :
  AutoSave.watching st = true ->
  AutoSave.saves st
    (map AutoSave.Changed (earlier ++ [latest])
     ++ AutoSave.TimerFired isValid :: rest)
  = (if isValid then [latest] else [])
    ++ AutoSave.saves (AutoSave.mkEffect true None) rest.
Proof.
  intros Hw. rewrite saves_app.
  destruct (changes_only_replace_the_pending_data st earlier latest Hw)
    as [Hnone Hstate].
  rewrite Hnone, Hstate. simpl. now destruct isValid.
Qed.

Lemma burst_of_changes_saves_the_last_once_witness :
  AutoSave.watching (AutoSave.mounted true) = true
  /\ AutoSave.saves (AutoSave.mounted true)
       [AutoSave.Changed [("title", VStr "h")];
        AutoSave.Changed [("title", VStr "he")];
        AutoSave.Changed [("title", VStr "hey")];
        AutoSave.TimerFired true]
     = [[("title", VStr "hey")]].
Proof.
  split; [reflexivity|].
  exact (burst_of_changes_saves_the_last_once (AutoSave.mounted true)
           [[("title", VStr "h")]; [("title", VStr "he")]]
           [("title", VStr "hey")] true [] eq_refl).
Defined.

Lemma nothing_saved_when_idle events :
  AutoSave.saves (AutoSave.mkEffect false None) events = [].
Proof.
  induction events as [|e rest IH]; simpl; [reflexivity|].
  destruct e; simpl; exact IH.
Qed.

(** X29.  Unmounting cancels the pending timeout and the subscription:
    whatever events come after it, changes and timer runs alike, nothing is
    saved.  The same holds when auto-save is off from the start. *)
Theorem nothing_is_saved_after_unmount (st : AutoSave.Effect)
    (events : list AutoSave.Event) :
  AutoSave.saves st (AutoSave.Unmounted :: events) = []
  /\ AutoSave.saves (AutoSave.mounted false) events = [].
Proof.
  split.
  - simpl. apply nothing_saved_when_idle.
  - apply nothing_saved_when_idle.
Qed.

(* ================================================================== *)
(** ** Uploads: progress ticks, then one outcome *)
(* ================================================================== *)

Section UploadFacts.
Import StorageUpload.
Variable Progress : Type.
Variable zero : Progress.
Variable percent : Z -> Z -> Progress.
Variable h : Handlers.

Lemma last_after_first (f : Z * Z -> Progress) t more d :
  last (map f more) (f t) = last (map f (t :: more)) d.
Proof.
  cbn [map]. generalize (f t) as a, (map f more) as l. intros a l.
  revert a d. induction l as [|x rest IH]; intros a d.
  - reflexivity.
  - change (last (a :: x :: rest) d) with (last (x :: rest) d).
    change (last (x :: rest) a) with (last (x :: rest) a).
    rewrite <- (IH x d). rewrite <- (IH x a). reflexivity.
Qed.

Lemma observe_ticks (st : UploadState Progress) ticks rest :
  observe Progress percent h st (map tickEvent ticks ++ rest)
  = let st' :=
      mkUploadState (uploading st)
        (last (map (fun t => percent (fst t) (snd t)) ticks) (progress st))
        (downloadURL st) (error st) in
    (fst (observe Progress percent h st' rest),
     (if onProgress h
      then map (fun t => ProgressCall (percent (fst t) (snd t))) ticks
      else [])
     ++ snd (observe Progress percent h st' rest)).
Proof.
  revert st. induction ticks as [|t more IH]; intros st.
  - destruct st as [u p d e].
    cbn [map app last uploading progress downloadURL error].
    cbv zeta. destruct (onProgress h);
      now destruct (observe Progress percent h (mkUploadState u p d e) rest).
  - change (map tickEvent (t :: more) ++ rest)
      with (tickEvent t :: (map tickEvent more ++ rest)).
    cbn [observe tickEvent onTaskEvent].
    rewrite IH. cbn [uploading progress downloadURL error]. cbv zeta.
    rewrite (last_after_first (fun t0 => percent (fst t0) (snd t0))
               t more (progress st)).
    destruct (onProgress h); reflexivity.
Qed.

Lemma upload_outcome (st : UploadState Progress) ticks terminal :
  isTerminal terminal = true ->
  onProgress h = true ->
  onError h = true ->
  let final := fst (upload Progress zero percent h st
                      (map tickEvent ticks ++ [terminal])) in
  let calls := snd (upload Progress zero percent h st
                      (map tickEvent ticks ++ [terminal])) in
  uploading final = false
  /\ progress final
     = last (map (fun t => percent (fst t) (snd t)) ticks) zero
  /\ exists outcomeCalls,
       calls
       = map (fun t => ProgressCall (percent (fst t) (snd t))) ticks
         ++ outcomeCalls
       /\ match terminal with
          | TaskCompleted (inr link) =>
              downloadURL final = Some link
              /\ match onComplete h with
                 | Some handler =>
                     match handler link with
                     | Some err =>
                         outcomeCalls = [CompleteCall link; ErrorCall err]
                         /\ error final = Some err
                     | None =>
                         outcomeCalls = [CompleteCall link]
                         /\ error final = None
                     end
                 | None => outcomeCalls = [] /\ error final = None
                 end
          | TaskCompleted (inl err) | TaskFailed err =>
              downloadURL final = downloadURL st
              /\ error final = Some err
              /\ outcomeCalls = [ErrorCall err]
          | StateChanged _ _ => True
          end.
Proof.
  intros Hterm Hprog Herr. unfold upload. rewrite observe_ticks.
  cbn [start uploading progress downloadURL error]. cbv zeta.
  rewrite Hprog.
  destruct terminal as [b t|err|[err|link]]; [discriminate| | |];
    cbn [observe onTaskEvent fail fst snd app].
  - rewrite Herr. cbn [fst snd uploading progress downloadURL error].
    split; [reflexivity|]. split; [reflexivity|].
    eexists. split; [reflexivity|]. repeat split.
  - rewrite Herr. cbn [fst snd uploading progress downloadURL error].
    split; [reflexivity|]. split; [reflexivity|].
    eexists. split; [reflexivity|]. repeat split.
  - destruct (onComplete h) as [handler|].
    + destruct (handler link) as [err|];
        cbn [fail fst snd uploading progress downloadURL error app].
      * rewrite Herr. cbn [fst snd uploading progress downloadURL error app].
        split; [reflexivity|]. split; [reflexivity|].
        eexists. split; [reflexivity|]. repeat split.
      * split; [reflexivity|]. split; [reflexivity|].
        eexists. split; [reflexivity|]. repeat split.
    + cbn [fst snd uploading progress downloadURL error app].
      split; [reflexivity|]. split; [reflexivity|].
      eexists. split; [reflexivity|]. repeat split.
Qed.

End UploadFacts.

(** X30.  An upload whose task reports progress ticks and then ends, with
    [onProgress] and [onError] provided: the hook is no longer uploading and
    shows the percent of the last tick; the handlers were called once per
    tick, in order, and then for the outcome.  On completion the download
    URL is set and [onComplete] is called (followed by [onError] if it
    throws); on failure, of the task or of [getDownloadURL], the URL of an
    earlier upload is kept, the error is stored and only [onError] is
    called. *)
Theorem upload_reports_ticks_then_one_outcome (Progress : Type)
    (zero : Progress) (percent : Z -> Z -> Progress)
    (h : StorageUpload.Handlers) (st : StorageUpload.UploadState Progress)
    (ticks : list (Z * Z)) (terminal : StorageUpload.TaskEvent) :
  isTerminal terminal = true ->
  StorageUpload.onProgress h = true ->
  StorageUpload.onError h = true ->
  let final := fst (StorageUpload.upload Progress zero percent h st
                      (map tickEvent ticks ++ [terminal])) in
  let calls := snd (StorageUpload.upload Progress zero percent h st
                      (map tickEvent ticks ++ [terminal])) in
  StorageUpload.uploading final = false
  /\ StorageUpload.progress final
     = last (map (fun t => percent (fst t) (snd t)) ticks) zero
  /\ exists outcomeCalls,
       calls
       = map (fun t => StorageUpload.ProgressCall (percent (fst t) (snd t)))
           ticks
         ++ outcomeCalls
       /\ match terminal with
          | StorageUpload.TaskCompleted (inr link) =>
              StorageUpload.downloadURL final = Some link
              /\ match StorageUpload.onComplete h with
                 | Some handler =>
                     match handler link with
                     | Some err =>
                         outcomeCalls
                         = [StorageUpload.CompleteCall link;
                            StorageUpload.ErrorCall err]
                         /\ StorageUpload.error final = Some err
                     | None =>
                         outcomeCalls = [StorageUpload.CompleteCall link]
                         /\ StorageUpload.error final = None
                     end
                 | None =>
                     outcomeCalls = [] /\ StorageUpload.error final = None
                 end
          | StorageUpload.TaskCompleted (inl err)
          | StorageUpload.TaskFailed err =>
              StorageUpload.downloadURL final = StorageUpload.downloadURL st
              /\ StorageUpload.error final = Some err
              /\ outcomeCalls = [StorageUpload.ErrorCall err]
          | StorageUpload.StateChanged _ _ => True
          end.
Proof. apply upload_outcome. Qed.

(** Scenario 5 of the specification: 100 bytes, ticks at 50 and 100, then
    completion. *)
Lemma upload_reports_ticks_then_one_outcome_witness :
  isTerminal (StorageUpload.TaskCompleted (inr "https://cdn/avatar.png"))
  = true
  /\ StorageUpload.onProgress allHandlers = true
  /\ StorageUpload.onError allHandlers = true
  /\ snd (StorageUpload.upload Z 0 wholePercent allHandlers
            (StorageUpload.initialState Z 0)
            (map tickEvent [(50, 100); (100, 100)]
             ++ [StorageUpload.TaskCompleted (inr "https://cdn/avatar.png")]))
     = [StorageUpload.ProgressCall 50; StorageUpload.ProgressCall 100;
        StorageUpload.CompleteCall "https://cdn/avatar.png"]
  /\ StorageUpload.uploading
       (fst (StorageUpload.upload Z 0 wholePercent allHandlers
               (StorageUpload.initialState Z 0)
               (map tickEvent [(50, 100); (100, 100)]
                ++ [StorageUpload.TaskCompleted
                      (inr "https://cdn/avatar.png")])))
     = false.
Proof.
  pose proof
    (upload_reports_ticks_then_one_outcome Z 0 wholePercent allHandlers
       (StorageUpload.initialState Z 0) [(50, 100); (100, 100)]
       (StorageUpload.TaskCompleted (inr "https://cdn/avatar.png"))
       eq_refl eq_refl eq_refl) as Hthm.
  cbv zeta in Hthm. destruct Hthm as (Hdone & _).
  split; [reflexivity|]. split; [reflexivity|]. split; [reflexivity|].
  split; [reflexivity | exact Hdone].
Defined.
